(** * SketchDDD visual builder: code generators and domain store

    A shallow embedding of the TypeScript sources of the visual builder

      - [web/src/utils/codegen/typescript.ts], [java.ts], [csharp.ts],
        [index.ts] (the three code generators and their dispatcher),
      - [web/src/stores/domainStore.ts] (the actions of the store on
        contexts, nodes, fields, variants, morphisms, context maps and the
        selection, the history with [undo] and [redo], and the conversion
        of a parsed model in [importModel]),
      - [web/src/wasm/types.ts] (the parsed model and the diagnostics),
      - [web/src/utils/export/mermaid.ts] (the two diagrams),

    together with a model of the name index and the morphism-reference
    pass of the validator, which lives in the Rust core and is described by
    the specification only.

    Conventions of the embedding.

      - A JavaScript string is a [string]; one [ascii] stands for one code
        unit below 256.  [JS.toUpperCase] and [JS.toLowerCase] map the ASCII
        letters and leave every other character alone.
      - A [Record<string, T>] is an association list in property order:
        [Object.entries] returns it as it is and [o[k]] is the first entry
        with key [k].  Node and context ids are UUIDs ([generateId]), so
        property order is insertion order.
      - An array local to a function ([lines]) is the list of the values
        pushed to it, in order.
      - [new Date().toISOString()] is the argument [now] of the
        generators; [generateId()] is the argument [id] of an action that
        calls it once, and a supply [ids] of the import, which calls it
        many times.
      - The exported generators pass the context explicitly: they return
        their result together with the context as it is when they return. *)

From Stdlib Require Import String Ascii List Bool Arith Lia.
Import ListNotations.

Open Scope string_scope.
Open Scope nat_scope.
Open Scope list_scope.

Infix "+++" := String.append (right associativity, at level 60).

(** ** JavaScript string and array primitives *)

Module JS.

Definition nl : string := String (ascii_of_nat 10) "".

(** [WhiteSpace] and [LineTerminator] code units below 256: this is the
    class [\s] of regular expressions and the class [trim] removes. *)
Definition isWhiteSpace (c : ascii) : bool :=
  let n := nat_of_ascii c in
  ((9 <=? n) && (n <=? 13)) || (n =? 32) || (n =? 160).

Fixpoint trimStart (s : string) : string :=
  match s with
  | EmptyString => EmptyString
  | String c r => if isWhiteSpace c then trimStart r else s
  end.

Fixpoint trimEnd (s : string) : string :=
  match s with
  | EmptyString => EmptyString
  | String c r =>
      let r' := trimEnd r in
      if isWhiteSpace c && (r' =? "")%string then EmptyString
      else String c r'
  end.

(** [s.trim()] *)
Definition trim (s : string) : string := trimEnd (trimStart s).

(** [s.replace(/\s+/g, '')] *)
Fixpoint removeWhiteSpace (s : string) : string :=
  match s with
  | EmptyString => EmptyString
  | String c r =>
      if isWhiteSpace c then removeWhiteSpace r
      else String c (removeWhiteSpace r)
  end.

Definition upperChar (c : ascii) : ascii :=
  let n := nat_of_ascii c in
  if (97 <=? n) && (n <=? 122) then ascii_of_nat (n - 32) else c.

Definition lowerChar (c : ascii) : ascii :=
  let n := nat_of_ascii c in
  if (65 <=? n) && (n <=? 90) then ascii_of_nat (n + 32) else c.

Fixpoint mapChars (f : ascii -> ascii) (s : string) : string :=
  match s with
  | EmptyString => EmptyString
  | String c r => String (f c) (mapChars f r)
  end.

Definition toUpperCase : string -> string := mapChars upperChar.
Definition toLowerCase : string -> string := mapChars lowerChar.

(** [s.charAt(0)] and [s.slice(1)] *)
Definition charAt0 (s : string) : string :=
  match s with
  | EmptyString => EmptyString
  | String c _ => String c EmptyString
  end.

Definition slice1 (s : string) : string :=
  match s with
  | EmptyString => EmptyString
  | String _ r => r
  end.

(** Truthiness of a string, and [a || b] on strings. *)
Definition truthy (s : string) : bool := negb (s =? "")%string.

Definition orElse (a b : string) : string := if truthy a then a else b.

(** Truthiness of [string | undefined], and [a || b] with [b] a string. *)
Definition truthyOpt (o : option string) : bool :=
  match o with
  | Some s => truthy s
  | None => false
  end.

Definition optOrElse (a : option string) (b : string) : string :=
  match a with
  | Some s => orElse s b
  | None => b
  end.

(** [arr.join(sep)] *)
Fixpoint join (sep : string) (l : list string) : string :=
  match l with
  | [] => ""
  | [a] => a
  | a :: r => a +++ sep +++ join sep r
  end.

(** [arr.map((x, index) => f(x, index))], which is also what a
    [forEach((x, index) => lines.push(f(x, index)))] appends to [lines]. *)
Fixpoint mapiFrom {A B : Type} (i : nat) (f : A -> nat -> B) (l : list A)
  : list B :=
  match l with
  | [] => []
  | a :: r => f a i :: mapiFrom (S i) f r
  end.

Definition mapi {A B : Type} (f : A -> nat -> B) (l : list A) : list B :=
  mapiFrom 0 f l.

(** [s.includes(t)] *)
Fixpoint startsWith (t s : string) : bool :=
  match t, s with
  | EmptyString, _ => true
  | String a t', String b s' => Ascii.eqb a b && startsWith t' s'
  | String _ _, EmptyString => false
  end.

Fixpoint includes (s t : string) : bool :=
  startsWith t s
  || match s with
     | EmptyString => false
     | String _ r => includes r t
     end.

(** [o[k]] on a record held in property order. *)
Fixpoint get {A : Type} (o : list (string * A)) (k : string) : option A :=
  match o with
  | [] => None
  | (k', a) :: r => if (k' =? k)%string then Some a else get r k
  end.

(** [delete o[k]] *)
Definition remove {A : Type} (o : list (string * A)) (k : string)
  : list (string * A) :=
  filter (fun e => negb (fst e =? k)%string) o.

(** [Object.keys(o)] *)
Definition keys {A : Type} (o : list (string * A)) : list string :=
  map fst o.

End JS.

(** ** The domain model ([@/types]) *)

Record Field := {
  field_id : string;
  field_name : string;
  field_type : string;
  field_optional : bool
}.

Record EnumVariant := {
  variant_id : string;
  variant_name : string;
  variant_payload : option string
}.

Record EntityNode := {
  entity_name : string;
  entity_fields : list Field
}.

Record ValueNode := {
  value_name : string;
  value_fields : list Field
}.

Record EnumNode := {
  enum_name : string;
  enum_variants : list EnumVariant
}.

Record AggregateNode := {
  aggregate_name : string;
  rootId : string;
  memberIds : list string;
  invariants : list string
}.

(** [DomainNode] is the union of the four node types, discriminated by
    its [kind] property. *)
Inductive DomainNode :=
| Entity (n : EntityNode)
| Value (n : ValueNode)
| Enum (n : EnumNode)
| Aggregate (n : AggregateNode).

Inductive Kind := KEntity | KValue | KEnum | KAggregate.

Definition kind (n : DomainNode) : Kind :=
  match n with
  | Entity _ => KEntity
  | Value _ => KValue
  | Enum _ => KEnum
  | Aggregate _ => KAggregate
  end.

Definition Kind_eqb (a b : Kind) : bool :=
  match a, b with
  | KEntity, KEntity | KValue, KValue | KEnum, KEnum
  | KAggregate, KAggregate => true
  | _, _ => false
  end.

Definition name (n : DomainNode) : string :=
  match n with
  | Entity e => entity_name e
  | Value v => value_name v
  | Enum e => enum_name e
  | Aggregate a => aggregate_name a
  end.

(** The place of a node on the canvas, which no function here reads. *)
Record Position := { pos_x : nat; pos_y : nat }.

Record NodeData := {
  data_node : DomainNode;
  data_position : Position
}.

Inductive Cardinality := one | optional | many.

Record Morphism := {
  morphism_id : string;
  sourceId : string;
  targetId : string;
  morphism_name : string;
  cardinality : Cardinality
}.

Definition Nodes := list (string * NodeData).

Record ContextData := {
  context_id : string;
  context_name : string;
  nodes : Nodes;
  morphisms : list Morphism
}.

(** ** Code generation options and results ([codegen/types.ts]) *)

Inductive TargetLanguage := typescript | java | csharp.

Record CodeGenOptions := {
  language : TargetLanguage;
  includeComments : bool;
  generateInterfaces : bool;
  generateClasses : bool;
  namespace : option string;
  packageName : option string
}.

Record GeneratedFile := {
  filename : string;
  content : string;
  file_language : TargetLanguage
}.

(** What a generator returns, and the context when it returns. *)
Definition Gen (A : Type) : Type := A * ContextData.

Definition result {A : Type} (g : Gen A) : A := fst g.
Definition contextAfter {A : Type} (g : Gen A) : ContextData := snd g.

(** A generator's loop over [Object.entries(context.nodes)]: the state it
    runs in holds the context next to the array the callback pushes to. *)
Record Loop (A : Type) := mkLoop {
  loop_context : ContextData;
  loop_out : list A
}.
Arguments mkLoop {A}.
Arguments loop_context {A}.
Arguments loop_out {A}.

(** [out.push(a)] *)
Definition push {A : Type} (a : A) (s : Loop A) : Loop A :=
  mkLoop (loop_context s) (loop_out s ++ [a]).

(** [entries.forEach(callback)] *)
Definition forEach {A B : Type} (l : list B) (callback : Loop A -> B -> Loop A)
  (s : Loop A) : Loop A :=
  fold_left callback l s.

(** [Object.entries(nodes).find(([id]) => id === k)?.[1]] *)
Definition findEntry (ns : Nodes) (k : string) : option NodeData :=
  option_map snd (find (fun e => (fst e =? k)%string) ns).

(** [nodes[id]?.node] *)
Definition nodeAt (ns : Nodes) (id : string) : option DomainNode :=
  option_map data_node (JS.get ns id).

Definition hasKind (k : Kind) (e : string * NodeData) : bool :=
  Kind_eqb (kind (data_node (snd e))) k.

(** ** The TypeScript generator ([codegen/typescript.ts]) *)

Module TypeScript.

Definition typeMap : list (string * string) :=
  [ ("string", "string"); ("String", "string");
    ("int", "number"); ("integer", "number");
    ("Int", "number"); ("Integer", "number");
    ("float", "number"); ("Float", "number");
    ("double", "number"); ("Double", "number");
    ("number", "number"); ("Number", "number");
    ("boolean", "boolean"); ("Boolean", "boolean");
    ("bool", "boolean"); ("Bool", "boolean");
    ("date", "Date"); ("Date", "Date");
    ("datetime", "Date"); ("DateTime", "Date");
    ("uuid", "string"); ("UUID", "string") ].

(** [typeMap[type] || type], on the own properties of [typeMap]: a type
    name is a name of the domain, not one of the members every object
    inherits ([constructor], [toString], ...). *)
Definition mapTypeToTS (type : string) : string :=
  JS.optOrElse (JS.get typeMap type) type.

Definition fieldLine (prefix : string) (field : Field) : string :=
  let tsType := mapTypeToTS (field_type field) in
  let opt := if field_optional field then "?" else "" in
  prefix +++ field_name field +++ opt +++ ": " +++ tsType +++ ";".

Definition assignLine (field : Field) : string :=
  "    this." +++ field_name field +++ " = data." +++ field_name field
  +++ ";".

(** The relationship lines of an entity: one for each morphism leaving
    the entity whose target resolves. *)
Definition leaves (node : EntityNode) (ns : Nodes) (m : Morphism) : bool :=
  (sourceId m =? entity_name node)%string
  || match findEntry ns (sourceId m) with
     | Some d => (name (data_node d) =? entity_name node)%string
     | None => false
     end.

Definition relationshipLine (ns : Nodes) (m : Morphism) : list string :=
  match findEntry ns (targetId m) with
  | Some d =>
      let targetNode := data_node d in
      let card :=
        match cardinality m with
        | many => "[]"
        | optional => " | null"
        | one => ""
        end in
      [ "  " +++ morphism_name m
        +++ (match cardinality m with optional => "?" | _ => "" end)
        +++ ": " +++ name targetNode +++ card +++ ";" ]
  | None => []
  end.

Definition generateEntityLines (node : EntityNode) (ms : list Morphism)
  (ns : Nodes) (options : CodeGenOptions) : list string :=
  (if includeComments options then
     [ "/**";
       " * Entity: " +++ entity_name node;
       " * An entity with a unique identity";
       " */" ]
   else [])
  ++ (if generateInterfaces options then
        [ "export interface " +++ entity_name node +++ " {";
          "  readonly id: string;" ]
        ++ map (fieldLine "  ") (entity_fields node)
        ++ flat_map (relationshipLine ns) (filter (leaves node ns) ms)
        ++ [ "}" ]
      else [])
  ++ (if generateClasses options then
        [ "";
          "export class " +++ entity_name node +++ "Impl implements "
          +++ entity_name node +++ " {";
          "  readonly id: string;" ]
        ++ map (fieldLine "  ") (entity_fields node)
        ++ [ "";
             "  constructor(data: Omit<" +++ entity_name node
             +++ ", 'id'> & { id?: string }) {";
             "    this.id = data.id ?? crypto.randomUUID();" ]
        ++ map assignLine (entity_fields node)
        ++ [ "  }"; "}" ]
      else []).

Definition generateEntity (node : EntityNode) (ms : list Morphism)
  (ns : Nodes) (options : CodeGenOptions) : string :=
  JS.join JS.nl (generateEntityLines node ms ns options).

(** Value objects. *)

Definition classFieldLine (field : Field) : string :=
  "  readonly " +++ field_name field +++ ": "
  +++ mapTypeToTS (field_type field) +++ ";".

Definition comparison (f : Field) : string :=
  "this." +++ field_name f +++ " === other." +++ field_name f.

Definition equalsCondition (node : ValueNode) : string :=
  JS.orElse (JS.join " && " (map comparison (value_fields node))) "true".

Definition valueCommentLines (node : ValueNode) (options : CodeGenOptions)
  : list string :=
  if includeComments options then
    [ "/**";
      " * Value Object: " +++ value_name node;
      " * An immutable value type identified by its attributes";
      " */" ]
  else [].

Definition valueInterfaceLines (node : ValueNode) (options : CodeGenOptions)
  : list string :=
  if generateInterfaces options then
    [ "export interface " +++ value_name node +++ " {" ]
    ++ map (fieldLine "  readonly ") (value_fields node)
    ++ [ "}" ]
  else [].

Definition valueClassLines (node : ValueNode) (options : CodeGenOptions)
  : list string :=
  if generateClasses options then
    [ "";
      "export class " +++ value_name node +++ "Impl implements "
      +++ value_name node +++ " {" ]
    ++ map classFieldLine (value_fields node)
    ++ [ "";
         "  constructor(data: " +++ value_name node +++ ") {" ]
    ++ map assignLine (value_fields node)
    ++ [ "  }";
         "";
         "  equals(other: " +++ value_name node +++ "): boolean {";
         "    return " +++ equalsCondition node +++ ";";
         "  }";
         "}" ]
  else [].

Definition generateValueObjectLines (node : ValueNode)
  (options : CodeGenOptions) : list string :=
  valueCommentLines node options
  ++ valueInterfaceLines node options
  ++ valueClassLines node options.

Definition generateValueObject (node : ValueNode) (options : CodeGenOptions)
  : string :=
  JS.join JS.nl (generateValueObjectLines node options).

(** Enums. *)

Definition enumCommentLines (node : EnumNode) (options : CodeGenOptions)
  : list string :=
  if includeComments options then
    [ "/**"; " * Enum: " +++ enum_name node; " */" ]
  else [].

(** [node.variants.some(v => v.payload)] *)
Definition hasPayloads (node : EnumNode) : bool :=
  existsb (fun v => JS.truthyOpt (variant_payload v)) (enum_variants node).

Definition unionCase (count : nat) (variant : EnumVariant) (index : nat)
  : string :=
  let separator := if index =? count - 1 then ";" else "" in
  match variant_payload variant with
  | Some p =>
      if JS.truthy p then
        "  | { type: '" +++ variant_name variant +++ "'; value: "
        +++ mapTypeToTS p +++ " }" +++ separator
      else "  | { type: '" +++ variant_name variant +++ "' }" +++ separator
  | None => "  | { type: '" +++ variant_name variant +++ "' }" +++ separator
  end.

Definition enumMember (count : nat) (variant : EnumVariant) (index : nat)
  : string :=
  let comma := if index <? count - 1 then "," else "" in
  "  " +++ variant_name variant +++ " = '" +++ variant_name variant +++ "'"
  +++ comma.

Definition enumBodyLines (node : EnumNode) : list string :=
  let count := length (enum_variants node) in
  if hasPayloads node then
    [ "export type " +++ enum_name node +++ " =" ]
    ++ JS.mapi (unionCase count) (enum_variants node)
  else
    [ "export enum " +++ enum_name node +++ " {" ]
    ++ JS.mapi (enumMember count) (enum_variants node)
    ++ [ "}" ].

Definition generateEnumLines (node : EnumNode) (options : CodeGenOptions)
  : list string :=
  enumCommentLines node options ++ enumBodyLines node.

Definition generateEnum (node : EnumNode) (options : CodeGenOptions)
  : string :=
  JS.join JS.nl (generateEnumLines node options).

(** Aggregates. *)

Definition aggregateCommentLines (node : AggregateNode) (ns : Nodes)
  (options : CodeGenOptions) : list string :=
  if includeComments options then
    [ "/**"; " * Aggregate: " +++ aggregate_name node ]
    ++ match nodeAt ns (rootId node) with
       | Some rootNode => [ " * Root Entity: " +++ name rootNode ]
       | None => []
       end
    ++ (if 0 <? length (invariants node) then
          [ " * "; " * Invariants:" ]
          ++ map (fun inv => " * - " +++ inv) (invariants node)
        else [])
    ++ [ " */" ]
  else [].

(** [node.memberIds.map(id => nodes[id]?.node).filter(Boolean)] *)
Definition memberNodes (node : AggregateNode) (ns : Nodes)
  : list DomainNode :=
  flat_map (fun id => match nodeAt ns id with
                      | Some m => [m]
                      | None => []
                      end) (memberIds node).

Definition memberField (member : DomainNode) : string :=
  "  " +++ JS.toLowerCase (name member) +++ "s: " +++ name member +++ "[];".

Definition aggregateBodyLines (node : AggregateNode) (ns : Nodes)
  : list string :=
  [ "export interface " +++ aggregate_name node +++ "Aggregate {" ]
  ++ match nodeAt ns (rootId node) with
     | Some rootNode => [ "  root: " +++ name rootNode +++ ";" ]
     | None => []
     end
  ++ (if 0 <? length (memberNodes node ns) then
        map memberField (memberNodes node ns)
      else [])
  ++ [ "}" ].

Definition generateAggregateLines (node : AggregateNode) (ns : Nodes)
  (options : CodeGenOptions) : list string :=
  aggregateCommentLines node ns options ++ aggregateBodyLines node ns.

Definition generateAggregate (node : AggregateNode) (ns : Nodes)
  (options : CodeGenOptions) : string :=
  JS.join JS.nl (generateAggregateLines node ns options).

(** The exported generator.  Each of the four passes filters the entries
    by kind; the cast [data.node as T] of its callback is the match on
    the node, whose other branch is not reached after the filter. *)

Definition fileHeader (context : ContextData) (options : CodeGenOptions)
  (now : string) : list string :=
  if includeComments options then
    [ "/**";
      " * Generated by SketchDDD";
      " * Context: " +++ context_name context;
      " * Generated at: " +++ now;
      " */";
      "" ]
  else [].

(** The code of one node, as the pass of its kind pushes it. *)
Definition item (context : ContextData) (options : CodeGenOptions)
  (n : DomainNode) : string :=
  match n with
  | Enum e => generateEnum e options
  | Value v => generateValueObject v options
  | Entity e =>
      generateEntity e (morphisms context) (nodes context) options
  | Aggregate a => generateAggregate a (nodes context) options
  end.

Definition enumPass (options : CodeGenOptions) (s : Loop string)
  (e : string * NodeData) : Loop string :=
  match data_node (snd e) with
  | Enum n => push "" (push (generateEnum n options) s)
  | _ => s
  end.

Definition valuePass (options : CodeGenOptions) (s : Loop string)
  (e : string * NodeData) : Loop string :=
  match data_node (snd e) with
  | Value n => push "" (push (generateValueObject n options) s)
  | _ => s
  end.

Definition entityPass (options : CodeGenOptions) (s : Loop string)
  (e : string * NodeData) : Loop string :=
  match data_node (snd e) with
  | Entity n =>
      let context := loop_context s in
      push "" (push (generateEntity n (morphisms context) (nodes context)
                       options) s)
  | _ => s
  end.

Definition aggregatePass (options : CodeGenOptions) (s : Loop string)
  (e : string * NodeData) : Loop string :=
  match data_node (snd e) with
  | Aggregate n =>
      let context := loop_context s in
      push "" (push (generateAggregate n (nodes context) options) s)
  | _ => s
  end.

(** The state when the four passes are done: [loop_out] is [lines]. *)
Definition passes (context : ContextData) (options : CodeGenOptions)
  (now : string) : Loop string :=
  let s := mkLoop context (fileHeader context options now) in
  let nodeEntries := nodes (loop_context s) in
  let s := forEach (filter (hasKind KEnum) nodeEntries)
             (enumPass options) s in
  let s := forEach (filter (hasKind KValue) nodeEntries)
             (valuePass options) s in
  let s := forEach (filter (hasKind KEntity) nodeEntries)
             (entityPass options) s in
  forEach (filter (hasKind KAggregate) nodeEntries)
    (aggregatePass options) s.

Definition generateTypeScript (context : ContextData)
  (options : CodeGenOptions) (now : string) : Gen GeneratedFile :=
  let s := passes context options now in
  ({| filename :=
        JS.removeWhiteSpace (context_name (loop_context s)) +++ ".ts";
      content := JS.trim (JS.join JS.nl (loop_out s));
      file_language := typescript |},
   loop_context s).

End TypeScript.

(** ** The Java generator ([codegen/java.ts]) *)

Module Java.

Definition typeMap : list (string * string) :=
  [ ("string", "String"); ("String", "String");
    ("int", "int"); ("integer", "int");
    ("Int", "Integer"); ("Integer", "Integer");
    ("float", "float"); ("Float", "Float");
    ("double", "double"); ("Double", "Double");
    ("number", "double"); ("Number", "Double");
    ("boolean", "boolean"); ("Boolean", "Boolean");
    ("bool", "boolean"); ("Bool", "Boolean");
    ("date", "LocalDate"); ("Date", "LocalDate");
    ("datetime", "LocalDateTime"); ("DateTime", "LocalDateTime");
    ("uuid", "UUID"); ("UUID", "UUID") ].

(** [typeMap[type] || type], as in the TypeScript generator. *)
Definition mapTypeToJava (type : string) : string :=
  JS.optOrElse (JS.get typeMap type) type.

Definition capitalize (str : string) : string :=
  JS.toUpperCase (JS.charAt0 str) +++ JS.slice1 str.

(** [options.packageName || 'com.example.domain'] *)
Definition package (options : CodeGenOptions) : string :=
  JS.optOrElse (packageName options) "com.example.domain".

Definition getterLines (field : Field) : list string :=
  let javaType := mapTypeToJava (field_type field) in
  let capName := capitalize (field_name field) in
  [ "";
    "    public " +++ javaType +++ " get" +++ capName +++ "() {";
    "        return " +++ field_name field +++ ";";
    "    }" ].

Definition setterLines (field : Field) : list string :=
  let javaType := mapTypeToJava (field_type field) in
  let capName := capitalize (field_name field) in
  [ "";
    "    public void set" +++ capName +++ "(" +++ javaType +++ " "
    +++ field_name field +++ ") {";
    "        this." +++ field_name field +++ " = " +++ field_name field
    +++ ";";
    "    }" ].

Definition generateEntityLines (node : EntityNode)
  (options : CodeGenOptions) : list string :=
  [ "package " +++ package options +++ ";";
    "";
    "import java.util.UUID;";
    "import java.util.Objects;";
    "" ]
  ++ (if includeComments options then
        [ "/**";
          " * Entity: " +++ entity_name node;
          " * An entity with a unique identity";
          " */" ]
      else [])
  ++ [ "public class " +++ entity_name node +++ " {";
       "";
       "    private final UUID id;" ]
  ++ map (fun field =>
            "    private " +++ mapTypeToJava (field_type field) +++ " "
            +++ field_name field +++ ";") (entity_fields node)
  ++ [ "";
       "    public " +++ entity_name node +++ "() {";
       "        this.id = UUID.randomUUID();";
       "    }";
       "";
       "    public " +++ entity_name node +++ "(UUID id) {";
       "        this.id = id;";
       "    }";
       "";
       "    public UUID getId() {";
       "        return id;";
       "    }" ]
  ++ flat_map (fun field => getterLines field ++ setterLines field)
       (entity_fields node)
  ++ [ "";
       "    @Override";
       "    public boolean equals(Object o) {";
       "        if (this == o) return true;";
       "        if (o == null || getClass() != o.getClass()) return false;";
       "        " +++ entity_name node +++ " that = (" +++ entity_name node
       +++ ") o;";
       "        return Objects.equals(id, that.id);";
       "    }";
       "";
       "    @Override";
       "    public int hashCode() {";
       "        return Objects.hash(id);";
       "    }";
       "}" ].

Definition generateEntity (node : EntityNode) (options : CodeGenOptions)
  : string :=
  JS.join JS.nl (generateEntityLines node options).

(** Value objects. *)

Definition finalFieldLine (field : Field) : string :=
  "    private final " +++ mapTypeToJava (field_type field) +++ " "
  +++ field_name field +++ ";".

Definition comparison (f : Field) : string :=
  "Objects.equals(" +++ field_name f +++ ", that." +++ field_name f +++ ")".

Definition equalsCondition (node : ValueNode) : string :=
  JS.orElse (JS.join " && " (map comparison (value_fields node))) "true".

Definition valueHeadLines (node : ValueNode) (options : CodeGenOptions)
  : list string :=
  [ "package " +++ package options +++ ";";
    "";
    "import java.util.Objects;";
    "" ]
  ++ (if includeComments options then
        [ "/**";
          " * Value Object: " +++ value_name node;
          " * An immutable value type identified by its attributes";
          " */" ]
      else [])
  ++ [ "public final class " +++ value_name node +++ " {";
       "" ].

Definition valueConstructorLines (node : ValueNode) : list string :=
  let params :=
    JS.join ", "
      (map (fun f => mapTypeToJava (field_type f) +++ " " +++ field_name f)
         (value_fields node)) in
  [ "";
    "    public " +++ value_name node +++ "(" +++ params +++ ") {" ]
  ++ map (fun field =>
            "        this." +++ field_name field +++ " = "
            +++ field_name field +++ ";") (value_fields node)
  ++ [ "    }" ].

Definition valueEqualsLines (node : ValueNode) : list string :=
  [ "";
    "    @Override";
    "    public boolean equals(Object o) {";
    "        if (this == o) return true;";
    "        if (o == null || getClass() != o.getClass()) return false;";
    "        " +++ value_name node +++ " that = (" +++ value_name node
    +++ ") o;";
    "        return " +++ equalsCondition node +++ ";";
    "    }" ].

Definition valueHashLines (node : ValueNode) : list string :=
  let hashFields :=
    JS.orElse (JS.join ", " (map field_name (value_fields node))) "" in
  [ "";
    "    @Override";
    "    public int hashCode() {";
    "        return Objects.hash(" +++ hashFields +++ ");";
    "    }";
    "}" ].

Definition generateValueObjectLines (node : ValueNode)
  (options : CodeGenOptions) : list string :=
  valueHeadLines node options
  ++ map finalFieldLine (value_fields node)
  ++ valueConstructorLines node
  ++ flat_map getterLines (value_fields node)
  ++ valueEqualsLines node
  ++ valueHashLines node.

Definition generateValueObject (node : ValueNode) (options : CodeGenOptions)
  : string :=
  JS.join JS.nl (generateValueObjectLines node options).

(** Enums. *)

Definition enumConstant (count : nat) (variant : EnumVariant) (index : nat)
  : string :=
  let comma := if index <? count - 1 then "," else ";" in
  "    " +++ JS.toUpperCase (variant_name variant) +++ comma.

Definition generateEnumLines (node : EnumNode) (options : CodeGenOptions)
  : list string :=
  [ "package " +++ package options +++ ";";
    "" ]
  ++ (if includeComments options then
        [ "/**"; " * Enum: " +++ enum_name node; " */" ]
      else [])
  ++ [ "public enum " +++ enum_name node +++ " {" ]
  ++ JS.mapi (enumConstant (length (enum_variants node)))
       (enum_variants node)
  ++ [ "}" ].

Definition generateEnum (node : EnumNode) (options : CodeGenOptions)
  : string :=
  JS.join JS.nl (generateEnumLines node options).

(** Aggregates. *)

(** [node.memberIds.forEach(id => { const memberNode = nodes[id]?.node;
    if (memberNode) { ... } })] with a callback that pushes [f memberNode]. *)
Definition forMembers (node : AggregateNode) (ns : Nodes)
  (f : DomainNode -> list string) : list string :=
  flat_map (fun id => match nodeAt ns id with
                      | Some memberNode => f memberNode
                      | None => []
                      end) (memberIds node).

Definition aggregateHeadLines (node : AggregateNode) (ns : Nodes)
  (options : CodeGenOptions) : list string :=
  [ "package " +++ package options +++ ";";
    "";
    "import java.util.List;";
    "import java.util.ArrayList;";
    "" ]
  ++ (if includeComments options then
        [ "/**"; " * Aggregate: " +++ aggregate_name node ]
        ++ match nodeAt ns (rootId node) with
           | Some rootNode => [ " * Root Entity: " +++ name rootNode ]
           | None => []
           end
        ++ (if 0 <? length (invariants node) then
              [ " * "; " * Invariants:" ]
              ++ map (fun inv => " * - " +++ inv) (invariants node)
            else [])
        ++ [ " */" ]
      else []).

Definition memberField (memberNode : DomainNode) : list string :=
  [ "    private final List<" +++ name memberNode +++ "> "
    +++ JS.toLowerCase (name memberNode) +++ "s;" ].

Definition memberInit (memberNode : DomainNode) : list string :=
  [ "        this." +++ JS.toLowerCase (name memberNode)
    +++ "s = new ArrayList<>();" ].

Definition memberGetter (memberNode : DomainNode) : list string :=
  [ "";
    "    public List<" +++ name memberNode +++ "> get"
    +++ capitalize (name memberNode) +++ "s() {";
    "        return new ArrayList<>(" +++ JS.toLowerCase (name memberNode)
    +++ "s);";
    "    }" ].

Definition memberAdd (memberNode : DomainNode) : list string :=
  [ "";
    "    public void add" +++ name memberNode +++ "(" +++ name memberNode
    +++ " item) {";
    "        this." +++ JS.toLowerCase (name memberNode) +++ "s.add(item);";
    "    }" ].

Definition aggregateFieldLines (node : AggregateNode) (ns : Nodes)
  : list string :=
  match nodeAt ns (rootId node) with
  | Some rootNode => [ "    private final " +++ name rootNode +++ " root;" ]
  | None => []
  end
  ++ forMembers node ns memberField.

Definition aggregateConstructorLines (node : AggregateNode) (ns : Nodes)
  : list string :=
  [ "    public " +++ aggregate_name node +++ "Aggregate("
    +++ match nodeAt ns (rootId node) with
        | Some rootNode => name rootNode +++ " root"
        | None => ""
        end
    +++ ") {" ]
  ++ match nodeAt ns (rootId node) with
     | Some _ => [ "        this.root = root;" ]
     | None => []
     end
  ++ forMembers node ns memberInit
  ++ [ "    }" ].

Definition aggregateMethodLines (node : AggregateNode) (ns : Nodes)
  : list string :=
  match nodeAt ns (rootId node) with
  | Some rootNode =>
      [ "    public " +++ name rootNode +++ " getRoot() {";
        "        return root;";
        "    }" ]
  | None => []
  end
  ++ forMembers node ns
       (fun memberNode => memberGetter memberNode ++ memberAdd memberNode).

Definition generateAggregateLines (node : AggregateNode) (ns : Nodes)
  (options : CodeGenOptions) : list string :=
  aggregateHeadLines node ns options
  ++ [ "public class " +++ aggregate_name node +++ "Aggregate {";
       "" ]
  ++ aggregateFieldLines node ns
  ++ [ "" ]
  ++ aggregateConstructorLines node ns
  ++ [ "" ]
  ++ aggregateMethodLines node ns
  ++ [ "}" ].

Definition generateAggregate (node : AggregateNode) (ns : Nodes)
  (options : CodeGenOptions) : string :=
  JS.join JS.nl (generateAggregateLines node ns options).

(** The exported generator: one file for each node. *)

(** The [switch] on [data.node.kind]: [content] and [filename]. *)
Definition render (context : ContextData) (options : CodeGenOptions)
  (n : DomainNode) : string * string :=
  match n with
  | Entity e => (generateEntity e options, entity_name e +++ ".java")
  | Value v => (generateValueObject v options, value_name v +++ ".java")
  | Enum e => (generateEnum e options, enum_name e +++ ".java")
  | Aggregate a =>
      (generateAggregate a (nodes context) options,
       aggregate_name a +++ "Aggregate.java")
  end.

Definition callback (options : CodeGenOptions) (s : Loop GeneratedFile)
  (e : string * NodeData) : Loop GeneratedFile :=
  let '(content, filename) :=
    render (loop_context s) options (data_node (snd e)) in
  if JS.truthy content && JS.truthy filename then
    push {| filename := filename;
            content := content;
            file_language := java |} s
  else s.

Definition generateJava (context : ContextData) (options : CodeGenOptions)
  : Gen (list GeneratedFile) :=
  let s := mkLoop context [] in
  let nodeEntries := nodes (loop_context s) in
  let s := forEach nodeEntries (callback options) s in
  (loop_out s, loop_context s).

End Java.

(** ** The C# generator ([codegen/csharp.ts]) *)

Module CSharp.

Definition typeMap : list (string * string) :=
  [ ("string", "string"); ("String", "string");
    ("int", "int"); ("integer", "int");
    ("Int", "int"); ("Integer", "int");
    ("float", "float"); ("Float", "float");
    ("double", "double"); ("Double", "double");
    ("number", "double"); ("Number", "double");
    ("boolean", "bool"); ("Boolean", "bool");
    ("bool", "bool"); ("Bool", "bool");
    ("date", "DateOnly"); ("Date", "DateOnly");
    ("datetime", "DateTime"); ("DateTime", "DateTime");
    ("uuid", "Guid"); ("UUID", "Guid") ].

(** [typeMap[type] || type], as in the TypeScript generator. *)
Definition mapTypeToCSharp (type : string) : string :=
  JS.optOrElse (JS.get typeMap type) type.

(** [s.charAt(0).toUpperCase() + s.slice(1)] *)
Definition pascal (s : string) : string :=
  JS.toUpperCase (JS.charAt0 s) +++ JS.slice1 s.

(** [options.namespace || 'Domain'] *)
Definition namespaceOf (options : CodeGenOptions) : string :=
  JS.optOrElse (namespace options) "Domain".

Definition propertyLine (field : Field) : string :=
  let csType := mapTypeToCSharp (field_type field) in
  let nullable := if field_optional field then "?" else "" in
  let required := if field_optional field then "" else " required" in
  "    public" +++ required +++ " " +++ csType +++ nullable +++ " "
  +++ pascal (field_name field) +++ " { get; set; }".

Definition generateEntityLines (node : EntityNode)
  (options : CodeGenOptions) : list string :=
  [ "namespace " +++ namespaceOf options +++ ";";
    "" ]
  ++ (if includeComments options then
        [ "/// <summary>";
          "/// Entity: " +++ entity_name node;
          "/// An entity with a unique identity";
          "/// </summary>" ]
      else [])
  ++ [ "public class " +++ entity_name node;
       "{";
       "    public Guid Id { get; init; } = Guid.NewGuid();";
       "" ]
  ++ map propertyLine (entity_fields node)
  ++ [ "";
       "    public override bool Equals(object? obj)";
       "    {";
       "        if (obj is not " +++ entity_name node
       +++ " other) return false;";
       "        return Id == other.Id;";
       "    }";
       "";
       "    public override int GetHashCode() => Id.GetHashCode();";
       "}" ].

Definition generateEntity (node : EntityNode) (options : CodeGenOptions)
  : string :=
  JS.join JS.nl (generateEntityLines node options).

(** Value objects: a positional [record]. *)

Definition recordParameter (f : Field) : string :=
  let csType := mapTypeToCSharp (field_type f) in
  let nullable := if field_optional f then "?" else "" in
  csType +++ nullable +++ " " +++ pascal (field_name f).

Definition valueCommentLines (node : ValueNode) (options : CodeGenOptions)
  : list string :=
  if includeComments options then
    [ "/// <summary>";
      "/// Value Object: " +++ value_name node;
      "/// An immutable value type identified by its attributes";
      "/// </summary>" ]
  else [].

Definition recordLine (node : ValueNode) : string :=
  let params := JS.join ", " (map recordParameter (value_fields node)) in
  "public record " +++ value_name node +++ "(" +++ params +++ ");".

Definition generateValueObjectLines (node : ValueNode)
  (options : CodeGenOptions) : list string :=
  [ "namespace " +++ namespaceOf options +++ ";";
    "" ]
  ++ valueCommentLines node options
  ++ [ recordLine node ].

Definition generateValueObject (node : ValueNode) (options : CodeGenOptions)
  : string :=
  JS.join JS.nl (generateValueObjectLines node options).

(** Enums. *)

Definition enumMember (count : nat) (variant : EnumVariant) (index : nat)
  : string :=
  let comma := if index <? count - 1 then "," else "" in
  "    " +++ variant_name variant +++ comma.

Definition generateEnumLines (node : EnumNode) (options : CodeGenOptions)
  : list string :=
  [ "namespace " +++ namespaceOf options +++ ";";
    "" ]
  ++ (if includeComments options then
        [ "/// <summary>";
          "/// Enum: " +++ enum_name node;
          "/// </summary>" ]
      else [])
  ++ [ "public enum " +++ enum_name node;
       "{" ]
  ++ JS.mapi (enumMember (length (enum_variants node))) (enum_variants node)
  ++ [ "}" ].

Definition generateEnum (node : EnumNode) (options : CodeGenOptions)
  : string :=
  JS.join JS.nl (generateEnumLines node options).

(** Aggregates. *)

(** [node.memberIds.forEach(id => { const memberNode = nodes[id]?.node;
    if (memberNode) { ... } })] with a callback that pushes [f memberNode]. *)
Definition forMembers (node : AggregateNode) (ns : Nodes)
  (f : DomainNode -> list string) : list string :=
  flat_map (fun id => match nodeAt ns id with
                      | Some memberNode => f memberNode
                      | None => []
                      end) (memberIds node).

Definition aggregateHeadLines (node : AggregateNode) (ns : Nodes)
  (options : CodeGenOptions) : list string :=
  [ "namespace " +++ namespaceOf options +++ ";";
    "" ]
  ++ (if includeComments options then
        [ "/// <summary>"; "/// Aggregate: " +++ aggregate_name node ]
        ++ match nodeAt ns (rootId node) with
           | Some rootNode => [ "/// Root Entity: " +++ name rootNode ]
           | None => []
           end
        ++ (if 0 <? length (invariants node) then
              [ "/// "; "/// Invariants:" ]
              ++ map (fun inv => "/// - " +++ inv) (invariants node)
            else [])
        ++ [ "/// </summary>" ]
      else []).

Definition backingField (memberNode : DomainNode) : list string :=
  [ "    private readonly List<" +++ name memberNode +++ "> _"
    +++ JS.toLowerCase (name memberNode) +++ "s = new();" ].

Definition memberProperty (memberNode : DomainNode) : list string :=
  [ "    public IReadOnlyList<" +++ name memberNode +++ "> "
    +++ name memberNode +++ "s => _" +++ JS.toLowerCase (name memberNode)
    +++ "s.AsReadOnly();" ].

Definition memberAdd (memberNode : DomainNode) : list string :=
  [ "";
    "    public void Add" +++ name memberNode +++ "(" +++ name memberNode
    +++ " item)";
    "    {";
    "        // TODO: Validate invariants before adding";
    "        _" +++ JS.toLowerCase (name memberNode) +++ "s.Add(item);";
    "    }" ].

Definition memberRemove (memberNode : DomainNode) : list string :=
  [ "";
    "    public bool Remove" +++ name memberNode +++ "(" +++ name memberNode
    +++ " item)";
    "    {";
    "        return _" +++ JS.toLowerCase (name memberNode)
    +++ "s.Remove(item);";
    "    }" ].

Definition generateAggregateLines (node : AggregateNode) (ns : Nodes)
  (options : CodeGenOptions) : list string :=
  aggregateHeadLines node ns options
  ++ [ "public class " +++ aggregate_name node +++ "Aggregate";
       "{" ]
  ++ forMembers node ns backingField
  ++ (if 0 <? length (memberIds node) then [ "" ] else [])
  ++ match nodeAt ns (rootId node) with
     | Some rootNode =>
         [ "    public required " +++ name rootNode
           +++ " Root { get; init; }" ]
     | None => []
     end
  ++ forMembers node ns memberProperty
  ++ forMembers node ns
       (fun memberNode => memberAdd memberNode ++ memberRemove memberNode)
  ++ [ "}" ].

Definition generateAggregate (node : AggregateNode) (ns : Nodes)
  (options : CodeGenOptions) : string :=
  JS.join JS.nl (generateAggregateLines node ns options).

(** The exported generator: one file for each node. *)

(** The [switch] on [data.node.kind]: [content] and [filename]. *)
Definition render (context : ContextData) (options : CodeGenOptions)
  (n : DomainNode) : string * string :=
  match n with
  | Entity e => (generateEntity e options, entity_name e +++ ".cs")
  | Value v => (generateValueObject v options, value_name v +++ ".cs")
  | Enum e => (generateEnum e options, enum_name e +++ ".cs")
  | Aggregate a =>
      (generateAggregate a (nodes context) options,
       aggregate_name a +++ "Aggregate.cs")
  end.

Definition callback (options : CodeGenOptions) (s : Loop GeneratedFile)
  (e : string * NodeData) : Loop GeneratedFile :=
  let '(content, filename) :=
    render (loop_context s) options (data_node (snd e)) in
  if JS.truthy content && JS.truthy filename then
    push {| filename := filename;
            content := content;
            file_language := csharp |} s
  else s.

Definition generateCSharp (context : ContextData) (options : CodeGenOptions)
  : Gen (list GeneratedFile) :=
  let s := mkLoop context [] in
  let nodeEntries := nodes (loop_context s) in
  let s := forEach nodeEntries (callback options) s in
  (loop_out s, loop_context s).

End CSharp.

(** ** The dispatcher ([codegen/index.ts]) *)

(** [Partial<CodeGenOptions>]: every property may be missing.  A property
    that is present holds a value of its type or [undefined]; for the three
    flags, of which the generators only test the truthiness, [undefined] is
    [false]. *)
Record PartialOptions := {
  p_language : option TargetLanguage;
  p_includeComments : option bool;
  p_generateInterfaces : option bool;
  p_generateClasses : option bool;
  p_namespace : option (option string);
  p_packageName : option (option string)
}.

Definition noOptions : PartialOptions :=
  {| p_language := None; p_includeComments := None;
     p_generateInterfaces := None; p_generateClasses := None;
     p_namespace := None; p_packageName := None |}.

(** [a.p] after [{ p: d, ...a }] *)
Definition spread {A : Type} (d : A) (o : option A) : A :=
  match o with
  | Some a => a
  | None => d
  end.

(** [{ language, includeComments: true, ..., ...options }] *)
Definition defaultOptions (lang : TargetLanguage)
  (options : option PartialOptions) : CodeGenOptions :=
  let o := spread noOptions options in
  {| language := spread lang (p_language o);
     includeComments := spread true (p_includeComments o);
     generateInterfaces := spread true (p_generateInterfaces o);
     generateClasses := spread true (p_generateClasses o);
     namespace := spread (Some "Domain") (p_namespace o);
     packageName := spread (Some "com.example.domain") (p_packageName o) |}.

(** The [switch] has a case for each of the three languages; its
    [default], which throws, is not reached. *)
Definition generateCode (context : ContextData) (lang : TargetLanguage)
  (options : option PartialOptions) (now : string)
  : Gen (list GeneratedFile) :=
  let defaultOptions := defaultOptions lang options in
  match lang with
  | typescript =>
      let '(file, context) :=
        TypeScript.generateTypeScript context defaultOptions now in
      ([file], context)
  | java => Java.generateJava context defaultOptions
  | csharp => CSharp.generateCSharp context defaultOptions
  end.

(** ** The domain store ([stores/domainStore.ts]) *)

Inductive ContextMapPattern :=
| SharedKernel | CustomerSupplier | Conformist | AntiCorruptionLayer
| OpenHostService | PublishedLanguage | Partnership | SeparateWays.

Record ObjectMapping := {
  mapping_sourceId : string;
  mapping_targetId : string
}.

Record ContextMap := {
  map_id : string;
  map_name : string;
  sourceContextId : string;
  targetContextId : string;
  pattern : ContextMapPattern;
  mappings : list ObjectMapping
}.

Module Store.

Section WithValidationResult.

(** The [ValidationResult] of [@/types], which the store only holds. *)
Variable ValidationResult : Type.

Record DomainState := {
  activeContextId : option string;
  contexts : list (string * ContextData);
  contextMaps : list ContextMap;
  selectedNodeIds : list string;
  selectedEdgeIds : list string;
  validationResult : option ValidationResult;
  isPaletteOpen : bool;
  isPropertiesPanelOpen : bool
}.

(** The module-level [history] object. *)
Record HistoryState := {
  past : list DomainState;
  future : list DomainState
}.

(** The store and the history it is saved to. *)
Record World := {
  state : DomainState;
  history : HistoryState
}.

Definition MAX_HISTORY : nat := 50.

(** [JSON.parse(JSON.stringify(state))] copies the state; a copy is
    the same value. *)
Definition saveToHistory (s : DomainState) (h : HistoryState)
  : HistoryState :=
  let past := past h ++ [s] in
  let past := if MAX_HISTORY <? length past then tl past else past in
  {| past := past; future := [] |}.

(** [state.activeContextId === contextId] *)
Definition isActive (s : DomainState) (contextId : string) : bool :=
  match activeContextId s with
  | Some a => (a =? contextId)%string
  | None => false
  end.

Definition keepsClearOf (contextId : string) (m : ContextMap) : bool :=
  negb (sourceContextId m =? contextId)%string
  && negb (targetContextId m =? contextId)%string.

Definition deleteContext (contextId : string) (w : World) : World :=
  let s := state w in
  let h := saveToHistory s (history w) in
  let contexts := JS.remove (contexts s) contextId in
  let contextMaps := filter (keepsClearOf contextId) (contextMaps s) in
  let activeContextId :=
    if isActive s contextId then
      let contextIds := JS.keys contexts in
      if 0 <? length contextIds then nth_error contextIds 0 else None
    else activeContextId s in
  {| state :=
       {| activeContextId := activeContextId;
          contexts := contexts;
          contextMaps := contextMaps;
          selectedNodeIds := selectedNodeIds s;
          selectedEdgeIds := selectedEdgeIds s;
          validationResult := validationResult s;
          isPaletteOpen := isPaletteOpen s;
          isPropertiesPanelOpen := isPropertiesPanelOpen s |};
     history := h |}.

(** [o[k] = v] on a record that has the property [k]: the value is
    replaced in place. *)
Fixpoint assign {A : Type} (o : list (string * A)) (k : string) (v : A)
  : list (string * A) :=
  match o with
  | [] => []
  | (k', a) :: r =>
      if (k' =? k)%string then (k', v) :: r else (k', a) :: assign r k v
  end.

Definition untouched (nodeId : string) (m : Morphism) : bool :=
  negb (sourceId m =? nodeId)%string && negb (targetId m =? nodeId)%string.

(** What [deleteNode] does to the context it finds. *)
Definition withoutNode (nodeId : string) (context : ContextData)
  : ContextData :=
  {| context_id := context_id context;
     context_name := context_name context;
     nodes := JS.remove (nodes context) nodeId;
     morphisms := filter (untouched nodeId) (morphisms context) |}.

Definition deleteNode (contextId nodeId : string) (w : World) : World :=
  let s := state w in
  let h := saveToHistory s (history w) in
  match JS.get (contexts s) contextId with
  | Some context =>
      {| state :=
           {| activeContextId := activeContextId s;
              contexts :=
                assign (contexts s) contextId (withoutNode nodeId context);
              contextMaps := contextMaps s;
              selectedNodeIds :=
                filter (fun id => negb (id =? nodeId)%string)
                  (selectedNodeIds s);
              selectedEdgeIds := selectedEdgeIds s;
              validationResult := validationResult s;
              isPaletteOpen := isPaletteOpen s;
              isPropertiesPanelOpen := isPropertiesPanelOpen s |};
         history := h |}
  | None => {| state := s; history := h |}
  end.

(** *** The other actions of the store

    [generateId()] is the argument [id] of the actions that call it. *)

Definition withContexts (cs : list (string * ContextData)) (s : DomainState)
  : DomainState :=
  {| activeContextId := activeContextId s;
     contexts := cs;
     contextMaps := contextMaps s;
     selectedNodeIds := selectedNodeIds s;
     selectedEdgeIds := selectedEdgeIds s;
     validationResult := validationResult s;
     isPaletteOpen := isPaletteOpen s;
     isPropertiesPanelOpen := isPropertiesPanelOpen s |}.

Definition withActiveContextId (a : option string) (s : DomainState)
  : DomainState :=
  {| activeContextId := a;
     contexts := contexts s;
     contextMaps := contextMaps s;
     selectedNodeIds := selectedNodeIds s;
     selectedEdgeIds := selectedEdgeIds s;
     validationResult := validationResult s;
     isPaletteOpen := isPaletteOpen s;
     isPropertiesPanelOpen := isPropertiesPanelOpen s |}.

Definition withContextMaps (ms : list ContextMap) (s : DomainState)
  : DomainState :=
  {| activeContextId := activeContextId s;
     contexts := contexts s;
     contextMaps := ms;
     selectedNodeIds := selectedNodeIds s;
     selectedEdgeIds := selectedEdgeIds s;
     validationResult := validationResult s;
     isPaletteOpen := isPaletteOpen s;
     isPropertiesPanelOpen := isPropertiesPanelOpen s |}.

Definition withSelection (ns es : list string) (s : DomainState)
  : DomainState :=
  {| activeContextId := activeContextId s;
     contexts := contexts s;
     contextMaps := contextMaps s;
     selectedNodeIds := ns;
     selectedEdgeIds := es;
     validationResult := validationResult s;
     isPaletteOpen := isPaletteOpen s;
     isPropertiesPanelOpen := isPropertiesPanelOpen s |}.

(** [o[k] = v]: the value of the property [k] is replaced where it is, and
    a new property comes last. *)
Definition put {A : Type} (o : list (string * A)) (k : string) (v : A)
  : list (string * A) :=
  match JS.get o k with
  | Some _ => assign o k v
  | None => o ++ [(k, v)]
  end.

Definition createContext (id name : string) (w : World) : World :=
  let s := state w in
  let h := saveToHistory s (history w) in
  {| state :=
       withActiveContextId (Some id)
         (withContexts
            (put (contexts s) id
               {| context_id := id; context_name := name;
                  nodes := []; morphisms := [] |}) s);
     history := h |}.

Definition setActiveContext (contextId : option string) (w : World)
  : World :=
  {| state := withSelection [] [] (withActiveContextId contextId (state w));
     history := history w |}.

Definition renameContext (contextId name : string) (w : World) : World :=
  let s := state w in
  let h := saveToHistory s (history w) in
  match JS.get (contexts s) contextId with
  | Some context =>
      {| state :=
           withContexts
             (assign (contexts s) contextId
                {| context_id := context_id context;
                   context_name := name;
                   nodes := nodes context;
                   morphisms := morphisms context |}) s;
         history := h |}
  | None => {| state := s; history := h |}
  end.

Definition withNodes (ns : Nodes) (context : ContextData) : ContextData :=
  {| context_id := context_id context;
     context_name := context_name context;
     nodes := ns;
     morphisms := morphisms context |}.

Definition withMorphisms (ms : list Morphism) (context : ContextData)
  : ContextData :=
  {| context_id := context_id context;
     context_name := context_name context;
     nodes := nodes context;
     morphisms := ms |}.

Definition addNode (id contextId : string) (node : DomainNode)
  (position : Position) (w : World) : World :=
  let s := state w in
  let h := saveToHistory s (history w) in
  match JS.get (contexts s) contextId with
  | Some context =>
      {| state :=
           withContexts
             (assign (contexts s) contextId
                (withNodes
                   (put (nodes context) id
                      {| data_node := node; data_position := position |})
                   context)) s;
         history := h |}
  | None => {| state := s; history := h |}
  end.

(** [moveNode] does not save to the history. *)
Definition moveNode (contextId nodeId : string) (position : Position)
  (w : World) : World :=
  let s := state w in
  match JS.get (contexts s) contextId with
  | Some context =>
      match JS.get (nodes context) nodeId with
      | Some data =>
          {| state :=
               withContexts
                 (assign (contexts s) contextId
                    (withNodes
                       (assign (nodes context) nodeId
                          {| data_node := data_node data;
                             data_position := position |})
                       context)) s;
             history := history w |}
      | None => w
      end
  | None => w
  end.

(** [Omit<Morphism, 'id'>] *)
Record NewMorphism := {
  new_sourceId : string;
  new_targetId : string;
  new_name : string;
  new_cardinality : Cardinality
}.

Definition addMorphism (id contextId : string) (morphism : NewMorphism)
  (w : World) : World :=
  let s := state w in
  let h := saveToHistory s (history w) in
  match JS.get (contexts s) contextId with
  | Some context =>
      {| state :=
           withContexts
             (assign (contexts s) contextId
                (withMorphisms
                   (morphisms context
                    ++ [ {| morphism_id := id;
                            sourceId := new_sourceId morphism;
                            targetId := new_targetId morphism;
                            morphism_name := new_name morphism;
                            cardinality := new_cardinality morphism |} ])
                   context)) s;
         history := h |}
  | None => {| state := s; history := h |}
  end.

Definition deleteMorphism (contextId morphismId : string) (w : World)
  : World :=
  let s := state w in
  let h := saveToHistory s (history w) in
  match JS.get (contexts s) contextId with
  | Some context =>
      {| state :=
           withSelection (selectedNodeIds s)
             (filter (fun id => negb (id =? morphismId)%string)
                (selectedEdgeIds s))
             (withContexts
                (assign (contexts s) contextId
                   (withMorphisms
                      (filter
                         (fun m => negb (morphism_id m =? morphismId)%string)
                         (morphisms context))
                      context)) s);
         history := h |}
  | None => {| state := s; history := h |}
  end.

(** [Omit<ContextMap, 'id'>] *)
Record NewContextMap := {
  new_map_name : string;
  new_sourceContextId : string;
  new_targetContextId : string;
  new_pattern : ContextMapPattern;
  new_mappings : list ObjectMapping
}.

Definition addContextMap (id : string) (map : NewContextMap) (w : World)
  : World :=
  let s := state w in
  let h := saveToHistory s (history w) in
  {| state :=
       withContextMaps
         (contextMaps s
          ++ [ {| map_id := id;
                  map_name := new_map_name map;
                  sourceContextId := new_sourceContextId map;
                  targetContextId := new_targetContextId map;
                  pattern := new_pattern map;
                  mappings := new_mappings map |} ]) s;
     history := h |}.

Definition deleteContextMap (mapId : string) (w : World) : World :=
  let s := state w in
  let h := saveToHistory s (history w) in
  {| state :=
       withContextMaps
         (filter (fun m => negb (map_id m =? mapId)%string) (contextMaps s))
         s;
     history := h |}.

(** Fields and variants. *)

(** [Omit<Field, 'id'>] and [Omit<EnumVariant, 'id'>] *)
Record NewField := {
  new_field_name : string;
  new_field_type : string;
  new_field_optional : bool
}.

Record NewVariant := {
  new_variant_name : string;
  new_variant_payload : option string
}.

(** What an action does to the node data it finds at
    [state.contexts[contextId]?.nodes[nodeId]]; without it, nothing. *)
Definition onNode (contextId nodeId : string)
  (f : DomainNode -> DomainNode) (s : DomainState) : DomainState :=
  match JS.get (contexts s) contextId with
  | Some context =>
      match JS.get (nodes context) nodeId with
      | Some data =>
          withContexts
            (assign (contexts s) contextId
               (withNodes
                  (assign (nodes context) nodeId
                     {| data_node := f (data_node data);
                        data_position := data_position data |})
                  context)) s
      | None => s
      end
  | None => s
  end.

(** The fields of an entity or of a value object, changed by [f]; the
    other kinds of node stay as they are. *)
Definition onFields (f : list Field -> list Field) (n : DomainNode)
  : DomainNode :=
  match n with
  | Entity e =>
      Entity {| entity_name := entity_name e;
                entity_fields := f (entity_fields e) |}
  | Value v =>
      Value {| value_name := value_name v;
               value_fields := f (value_fields v) |}
  | _ => n
  end.

Definition onVariants (f : list EnumVariant -> list EnumVariant)
  (n : DomainNode) : DomainNode :=
  match n with
  | Enum e =>
      Enum {| enum_name := enum_name e;
              enum_variants := f (enum_variants e) |}
  | _ => n
  end.

Definition addField (id contextId nodeId : string) (field : NewField)
  (w : World) : World :=
  let s := state w in
  let h := saveToHistory s (history w) in
  {| state :=
       onNode contextId nodeId
         (onFields
            (fun fields =>
               fields ++ [ {| field_id := id;
                              field_name := new_field_name field;
                              field_type := new_field_type field;
                              field_optional := new_field_optional field |} ]))
         s;
     history := h |}.

Definition deleteField (contextId nodeId fieldId : string) (w : World)
  : World :=
  let s := state w in
  let h := saveToHistory s (history w) in
  {| state :=
       onNode contextId nodeId
         (onFields (filter (fun f => negb (field_id f =? fieldId)%string)))
         s;
     history := h |}.

Definition addVariant (id contextId nodeId : string) (variant : NewVariant)
  (w : World) : World :=
  let s := state w in
  let h := saveToHistory s (history w) in
  {| state :=
       onNode contextId nodeId
         (onVariants
            (fun variants =>
               variants
               ++ [ {| variant_id := id;
                       variant_name := new_variant_name variant;
                       variant_payload := new_variant_payload variant |} ]))
         s;
     history := h |}.

Definition deleteVariant (contextId nodeId variantId : string) (w : World)
  : World :=
  let s := state w in
  let h := saveToHistory s (history w) in
  {| state :=
       onNode contextId nodeId
         (onVariants
            (filter (fun v => negb (variant_id v =? variantId)%string)))
         s;
     history := h |}.

(** Selection. *)

Definition setSelectedNodes (nodeIds : list string) (w : World) : World :=
  {| state := withSelection nodeIds (selectedEdgeIds (state w)) (state w);
     history := history w |}.

Definition setSelectedEdges (edgeIds : list string) (w : World) : World :=
  {| state := withSelection (selectedNodeIds (state w)) edgeIds (state w);
     history := history w |}.

Definition clearSelection (w : World) : World :=
  {| state := withSelection [] [] (state w); history := history w |}.

(** History.  [arr.pop()] takes the last element of the array; the state
    [set(previous)] merges into the store has every property of the state,
    so the store becomes [previous]. *)

Definition undo (w : World) : World :=
  match rev (past (history w)) with
  | [] => w
  | previous :: earlier =>
      {| state := previous;
         history := {| past := rev earlier;
                       future := future (history w) ++ [state w] |} |}
  end.

Definition redo (w : World) : World :=
  match rev (future (history w)) with
  | [] => w
  | next :: earlier =>
      {| state := next;
         history := {| past := past (history w) ++ [state w];
                       future := rev earlier |} |}
  end.

Definition canUndo (w : World) : bool := 0 <? length (past (history w)).

Definition canRedo (w : World) : bool := 0 <? length (future (history w)).

Definition initialState : DomainState :=
  {| activeContextId := None;
     contexts := [];
     contextMaps := [];
     selectedNodeIds := [];
     selectedEdgeIds := [];
     validationResult := None;
     isPaletteOpen := true;
     isPropertiesPanelOpen := true |}.

Definition reset (w : World) : World :=
  {| state := initialState; history := {| past := []; future := [] |} |}.

End WithValidationResult.

Arguments activeContextId {ValidationResult}.
Arguments contexts {ValidationResult}.
Arguments contextMaps {ValidationResult}.
Arguments selectedNodeIds {ValidationResult}.
Arguments selectedEdgeIds {ValidationResult}.
Arguments validationResult {ValidationResult}.
Arguments isPaletteOpen {ValidationResult}.
Arguments isPropertiesPanelOpen {ValidationResult}.
Arguments Build_DomainState {ValidationResult}.
Arguments past {ValidationResult}.
Arguments future {ValidationResult}.
Arguments Build_HistoryState {ValidationResult}.
Arguments state {ValidationResult}.
Arguments history {ValidationResult}.
Arguments Build_World {ValidationResult}.
Arguments saveToHistory {ValidationResult}.
Arguments isActive {ValidationResult}.
Arguments deleteContext {ValidationResult}.
Arguments deleteNode {ValidationResult}.

Arguments withContexts {ValidationResult}.
Arguments withActiveContextId {ValidationResult}.
Arguments withContextMaps {ValidationResult}.
Arguments withSelection {ValidationResult}.
Arguments createContext {ValidationResult}.
Arguments setActiveContext {ValidationResult}.
Arguments renameContext {ValidationResult}.
Arguments addNode {ValidationResult}.
Arguments moveNode {ValidationResult}.
Arguments addMorphism {ValidationResult}.
Arguments deleteMorphism {ValidationResult}.
Arguments addContextMap {ValidationResult}.
Arguments deleteContextMap {ValidationResult}.
Arguments onNode {ValidationResult}.
Arguments addField {ValidationResult}.
Arguments deleteField {ValidationResult}.
Arguments addVariant {ValidationResult}.
Arguments deleteVariant {ValidationResult}.
Arguments setSelectedNodes {ValidationResult}.
Arguments setSelectedEdges {ValidationResult}.
Arguments clearSelection {ValidationResult}.
Arguments undo {ValidationResult}.
Arguments redo {ValidationResult}.
Arguments canUndo {ValidationResult}.
Arguments canRedo {ValidationResult}.
Arguments initialState {ValidationResult}.
Arguments reset {ValidationResult}.

End Store.

(** ** Diagnostics as the WASM bridge delivers them ([wasm/types.ts]) *)

Inductive Severity := error | warning | hint.

Record ValidationIssue := {
  severity : Severity;
  code : string;
  message : string;
  issue_context : option string;
  line : option nat;
  column : option nat;
  suggestion : option string
}.

Record ValidationResult := {
  valid : bool;
  error_count : nat;
  warning_count : nat;
  issues : list ValidationIssue
}.

(** ** The name index and the validator

    The validator is part of the Rust core; the sources at hand hold its
    result types only.  This module follows the specification. *)

Module Validator.

(** Modelled from the spec: the bounded context the validator reads, for
    contexts made of objects and morphisms (section 3); a morphism names
    its source and its target. *)
Inductive ObjectKind := EntityKind | ValueObjectKind | EnumKind
                      | AggregateKind.

Record Object := {
  object_name : string;
  object_kind : ObjectKind
}.

Record Arrow := {
  arrow_name : string;
  source : string;
  target : string;
  arrow_cardinality : Cardinality
}.

Record BoundedContext := {
  sketch_name : string;
  objects : list Object;
  arrows : list Arrow
}.

(** Modelled from the spec: the edit (Levenshtein) distance of two
    names. *)
Fixpoint levenshtein (s : string) : string -> nat :=
  fix against (t : string) : nat :=
    match s, t with
    | EmptyString, _ => String.length t
    | _, EmptyString => String.length s
    | String a s', String b t' =>
        Nat.min (Nat.min (S (levenshtein s' t)) (S (against t')))
          (levenshtein s' t' + (if Ascii.eqb a b then 0 else 1))
    end.

(** Modelled from the spec: [allNames()] of the index (section 4.1), the
    names of the objects in insertion order. *)
Definition allNames (c : BoundedContext) : list string :=
  map object_name (objects c).

(** Modelled from the spec: [resolve(name)] (section 4.1). *)
Definition resolve (c : BoundedContext) (n : string) : option Object :=
  find (fun o => (object_name o =? n)%string) (objects c).

(** Modelled from the spec: [duplicatesOf(name)] (section 4.1). *)
Definition duplicatesOf (c : BoundedContext) (n : string) : nat :=
  length (filter (fun o => (object_name o =? n)%string) (objects c)).

(** [ceil(0.3 * len)] *)
Definition thirtyPercent (len : nat) : nat := (3 * len + 9) / 10.

(** Modelled from the spec: the bound [min(3, ceil(0.3 * len(name)))]
    of [nearest], with the [3] its [maxEditDistance]. *)
Definition bound (n : string) (maxEditDistance : nat) : nat :=
  Nat.min maxEditDistance (thirtyPercent (String.length n)).

(** The closest of the candidates, the earlier one on a tie, with its
    distance. *)
Fixpoint closest (n : string) (candidates : list string)
  : option (string * nat) :=
  match candidates with
  | [] => None
  | c :: r =>
      let d := levenshtein n c in
      match closest n r with
      | Some (c', d') => if d' <? d then Some (c', d') else Some (c, d)
      | None => Some (c, d)
      end
  end.

(** Modelled from the spec: [nearest(name, maxEditDistance)] on a list of
    names (section 4.1). *)
Definition nearestIn (names : list string) (n : string)
  (maxEditDistance : nat) : option string :=
  match closest n names with
  | Some (c, d) => if d <=? bound n maxEditDistance then Some c else None
  | None => None
  end.

Definition nearest (c : BoundedContext) (n : string) (maxEditDistance : nat)
  : option string :=
  nearestIn (allNames c) n maxEditDistance.

(** Modelled from the spec: a diagnostic (section 3), its code a letter
    for the severity and a number. *)
Record Label := {
  label_arrow : string;
  label_message : string
}.

Record Suggestion := {
  suggestion_message : string;
  replacement : string
}.

Record Diagnostic := {
  diag_severity : Severity;
  diag_number : nat;
  diag_message : string;
  labels : list Label;
  suggestions : list Suggestion;
  notes : list string
}.

(** An endpoint of a morphism that does not resolve. *)
Record Unresolved := {
  unresolved_name : string;
  unresolved_arrow : string
}.

Definition endpoints (a : Arrow) : list Unresolved :=
  [ {| unresolved_name := source a; unresolved_arrow := arrow_name a |};
    {| unresolved_name := target a; unresolved_arrow := arrow_name a |} ].

Definition isUnresolved (c : BoundedContext) (u : Unresolved) : bool :=
  match resolve c (unresolved_name u) with
  | Some _ => false
  | None => true
  end.

Definition unresolvedEndpoints (c : BoundedContext) : list Unresolved :=
  filter (isUnresolved c) (flat_map endpoints (arrows c)).

Definition sameName (n : string) (u : Unresolved) : bool :=
  (unresolved_name u =? n)%string.

Definition labelOf (c : BoundedContext) (u : Unresolved) : Label :=
  {| label_arrow := unresolved_arrow u;
     label_message := "not found in context '" +++ sketch_name c +++ "'" |}.

(** Modelled from the spec: the diagnostic of an unresolved name
    (section 4.2): the suggestion [did you mean '<X>'?] when [nearest]
    finds a name, and a note listing [allNames()] otherwise. *)
Definition unresolvedDiagnostic (c : BoundedContext) (n : string)
  (ls : list Label) : Diagnostic :=
  {| diag_severity := error;
     diag_number := 1;
     diag_message := "unknown object '" +++ n +++ "' referenced in morphism";
     labels := ls;
     suggestions :=
       match nearest c n 3 with
       | Some x =>
           [ {| suggestion_message := "did you mean '" +++ x +++ "'?";
                replacement := x |} ]
       | None => []
       end;
     notes :=
       match nearest c n 3 with
       | Some _ => []
       | None => [ "available objects: " +++ JS.join ", " (allNames c) ]
       end |}.

(** Modelled from the spec: the grouping law (sections 4.2 and 8).  Three
    or more unresolved endpoints with one name make a single diagnostic,
    at the place of the first, with a label for each; fewer stay apart. *)
Fixpoint grouped (c : BoundedContext) (all : list Unresolved)
  (seen todo : list Unresolved) : list Diagnostic :=
  match todo with
  | [] => []
  | u :: r =>
      let n := unresolved_name u in
      let sharing := filter (sameName n) all in
      (if 3 <=? length sharing then
         if existsb (sameName n) seen then []
         else [ unresolvedDiagnostic c n (map (labelOf c) sharing) ]
       else [ unresolvedDiagnostic c n [ labelOf c u ] ])
      ++ grouped c all (seen ++ [u]) r
  end.

(** Modelled from the spec: the morphism reference pass, codes E0001 to
    E0009 (section 4.2). *)
Definition morphismReferencePass (c : BoundedContext) : list Diagnostic :=
  let us := unresolvedEndpoints c in
  grouped c us [] us.

(** Modelled from the spec: the duplicate names pass, codes E0020 to
    E0029 (section 4.2): one diagnostic for each name that several
    objects share, at its first object. *)
Fixpoint duplicateDiagnostics (c : BoundedContext) (seen : list string)
  (todo : list Object) : list Diagnostic :=
  match todo with
  | [] => []
  | o :: r =>
      let n := object_name o in
      (if (2 <=? duplicatesOf c n)
          && negb (existsb (fun m => (m =? n)%string) seen) then
         [ {| diag_severity := error;
              diag_number := 20;
              diag_message := "duplicate name '" +++ n +++ "'";
              labels := [];
              suggestions := [];
              notes := [] |} ]
       else [])
      ++ duplicateDiagnostics c (seen ++ [n]) r
  end.

Definition duplicateNamesPass (c : BoundedContext) : list Diagnostic :=
  duplicateDiagnostics c [] (objects c).

(** Modelled from the spec: the validator on such a context, its passes
    in their order, none cutting another short (section 4.2).  The other
    passes check equations, aggregates, fields, variants and context
    maps, of which these contexts have none. *)
Definition validate (c : BoundedContext) : list Diagnostic :=
  morphismReferencePass c ++ duplicateNamesPass c.

Definition isError (d : Diagnostic) : bool :=
  match diag_severity d with
  | error => true
  | _ => false
  end.

(** Modelled from the spec: [isOk()] (section 4.2). *)
Definition isOk (ds : list Diagnostic) : bool :=
  negb (existsb isError ds).

(** Modelled from the spec: the result the validator hands to its
    callers (section 6), in the shape of [ValidationResult]: the code is
    the letter of the severity and the number on four digits. *)
Definition digit (d : nat) : string :=
  String (ascii_of_nat (48 + d)) "".

Definition codeText (s : Severity) (n : nat) : string :=
  (match s with error => "E" | warning => "W" | hint => "H" end)
  +++ digit ((n / 1000) mod 10) +++ digit ((n / 100) mod 10)
  +++ digit ((n / 10) mod 10) +++ digit (n mod 10).

Definition toIssue (c : BoundedContext) (d : Diagnostic) : ValidationIssue :=
  {| severity := diag_severity d;
     code := codeText (diag_severity d) (diag_number d);
     message := diag_message d;
     issue_context := Some (sketch_name c);
     line := None;
     column := None;
     suggestion := option_map replacement (hd_error (suggestions d)) |}.

Definition isWarning (d : Diagnostic) : bool :=
  match diag_severity d with
  | warning => true
  | _ => false
  end.

Definition validation (c : BoundedContext) : ValidationResult :=
  let ds := validate c in
  {| valid := isOk ds;
     error_count := length (filter isError ds);
     warning_count := length (filter isWarning ds);
     issues := map (toIssue c) ds |}.

(** A code between [E<lo>] and [E<hi>]. *)
Definition errorCodeIn (lo hi : nat) (code : string) : bool :=
  existsb (fun n => (code =? codeText error n)%string)
    (seq lo (S hi - lo)).

End Validator.

(** ** The parsed model of the WASM bridge ([wasm/types.ts])

    [importModel] guards every array of the parsed model with [|| []],
    [optional] with [|| false] and reads [root] as optional: such a
    property is an [option] here, [None] when it is [undefined]. *)

Module Wasm.

Record FieldInfo := {
  field_name : string;
  type_name : string;
  optional : option bool
}.

Record EntityInfo := {
  entity_name : string;
  entity_fields : option (list FieldInfo)
}.

Record ValueObjectInfo := {
  value_name : string;
  value_fields : option (list FieldInfo)
}.

Record VariantInfo := {
  variant_name : string;
  has_payload : bool
}.

Record EnumInfo := {
  enum_name : string;
  variants : option (list VariantInfo)
}.

Record AggregateInfo := {
  aggregate_name : string;
  root : option string;
  contains : option (list string)
}.

Record MorphismInfo := {
  morphism_name : string;
  source : string;
  target : string
}.

Record ContextInfo := {
  context_name : string;
  entities : option (list EntityInfo);
  value_objects : option (list ValueObjectInfo);
  aggregates : option (list AggregateInfo);
  enums : option (list EnumInfo);
  morphisms : option (list MorphismInfo);
  objects : list string
}.

Record MappingInfo := {
  mapping_source : string;
  mapping_target : string
}.

Record ContextMapInfo := {
  map_name : string;
  source_context : string;
  target_context : string;
  pattern : option string;
  mappings : list MappingInfo
}.

Record WarningInfo := {
  warning_message : string;
  warning_line : option nat;
  warning_column : option nat
}.

Record ParsedModel := {
  contexts : list ContextInfo;
  context_maps : list ContextMapInfo;
  warnings : list WarningInfo
}.

End Wasm.

(** ** [importModel] on a text that is not JSON ([stores/domainStore.ts])

    What [importModel] does once [JSON.parse] has thrown and [wasmParse]
    has returned a model: the conversion of the parsed model and the
    update of the store.  [generateId()] is the supply [ids]: the call
    number [n] of an import returns [ids n].  The names of a parsed
    model are looked up in [nodeIdMap] as own properties. *)

Module ImportModel.

(** [a || []] and [b || false] *)
Definition orEmpty {A : Type} (a : option (list A)) : list A :=
  match a with
  | Some l => l
  | None => []
  end.

Definition orFalse (b : option bool) : bool :=
  match b with
  | Some b => b
  | None => false
  end.

(** [l.map(a => f(generateId(), a))], with the next call number. *)
Fixpoint mapWithId {A B : Type} (ids : nat -> string) (f : string -> A -> B)
  (next : nat) (l : list A) : list B * nat :=
  match l with
  | [] => ([], next)
  | a :: r =>
      let b := f (ids next) a in
      let (bs, next') := mapWithId ids f (S next) r in
      (b :: bs, next')
  end.

Definition toField (id : string) (f : Wasm.FieldInfo) : Field :=
  {| field_id := id;
     field_name := Wasm.field_name f;
     field_type := Wasm.type_name f;
     field_optional := orFalse (Wasm.optional f) |}.

Definition toVariant (id : string) (v : Wasm.VariantInfo) : EnumVariant :=
  {| variant_id := id;
     variant_name := Wasm.variant_name v;
     variant_payload := if Wasm.has_payload v then Some "unknown" else None |}.

(** The locals of the loop over one parsed context: [nodes],
    [nodeIdMap], [x], [y], and the number of the next [generateId()]. *)
Record Canvas := {
  canvas_nodes : Nodes;
  nodeIdMap : list (string * string);
  canvas_x : nat;
  canvas_y : nat;
  canvas_next : nat
}.

(** [nodes[nodeId] = { node, position: { x, y } }; x += 250;
    if (x > 800) { x = 50; y += 200; }], after [nodeIdMap] and the ids
    drawn for the node are settled. *)
Definition place (nodeId : string) (node : DomainNode)
  (map : list (string * string)) (next : nat) (c : Canvas) : Canvas :=
  let nodes :=
    Store.put (canvas_nodes c) nodeId
      {| data_node := node;
         data_position :=
           {| pos_x := canvas_x c; pos_y := canvas_y c |} |} in
  let x := canvas_x c + 250 in
  if 800 <? x then
    {| canvas_nodes := nodes; nodeIdMap := map;
       canvas_x := 50; canvas_y := canvas_y c + 200;
       canvas_next := next |}
  else
    {| canvas_nodes := nodes; nodeIdMap := map;
       canvas_x := x; canvas_y := canvas_y c;
       canvas_next := next |}.

Definition entityStep (ids : nat -> string) (c : Canvas)
  (entity : Wasm.EntityInfo) : Canvas :=
  let nodeId := ids (canvas_next c) in
  let map := Store.put (nodeIdMap c) (Wasm.entity_name entity) nodeId in
  let (fields, next) :=
    mapWithId ids toField (S (canvas_next c))
      (orEmpty (Wasm.entity_fields entity)) in
  place nodeId
    (Entity {| entity_name := Wasm.entity_name entity;
               entity_fields := fields |})
    map next c.

Definition valueStep (ids : nat -> string) (c : Canvas)
  (value : Wasm.ValueObjectInfo) : Canvas :=
  let nodeId := ids (canvas_next c) in
  let map := Store.put (nodeIdMap c) (Wasm.value_name value) nodeId in
  let (fields, next) :=
    mapWithId ids toField (S (canvas_next c))
      (orEmpty (Wasm.value_fields value)) in
  place nodeId
    (Value {| value_name := Wasm.value_name value;
              value_fields := fields |})
    map next c.

Definition enumStep (ids : nat -> string) (c : Canvas)
  (enumType : Wasm.EnumInfo) : Canvas :=
  let nodeId := ids (canvas_next c) in
  let map := Store.put (nodeIdMap c) (Wasm.enum_name enumType) nodeId in
  let (variants, next) :=
    mapWithId ids toVariant (S (canvas_next c))
      (orEmpty (Wasm.variants enumType)) in
  place nodeId
    (Enum {| enum_name := Wasm.enum_name enumType;
             enum_variants := variants |})
    map next c.

(** [nodeIdMap[m] || ''] *)
Definition idOf (map : list (string * string)) (m : string) : string :=
  JS.optOrElse (JS.get map m) "".

(** [agg.root ? nodeIdMap[agg.root] || '' : ''] *)
Definition rootOf (map : list (string * string)) (root : option string)
  : string :=
  match root with
  | Some r => if JS.truthy r then idOf map r else ""
  | None => ""
  end.

Definition aggregateStep (ids : nat -> string) (c : Canvas)
  (agg : Wasm.AggregateInfo) : Canvas :=
  let nodeId := ids (canvas_next c) in
  let map := Store.put (nodeIdMap c) (Wasm.aggregate_name agg) nodeId in
  place nodeId
    (Aggregate
       {| aggregate_name := Wasm.aggregate_name agg;
          rootId := rootOf map (Wasm.root agg);
          memberIds :=
            filter JS.truthy (List.map (idOf map) (orEmpty (Wasm.contains agg)));
          invariants := [] |})
    map (S (canvas_next c)) c.

(** The loop over the parsed morphisms: [morphisms] and the number of
    the next [generateId()]. *)
Definition morphismStep (ids : nat -> string) (map : list (string * string))
  (acc : list Morphism * nat) (morph : Wasm.MorphismInfo)
  : list Morphism * nat :=
  let sourceId := JS.get map (Wasm.source morph) in
  let targetId := JS.get map (Wasm.target morph) in
  match sourceId, targetId with
  | Some s, Some t =>
      if JS.truthy s && JS.truthy t then
        (fst acc
         ++ [ {| morphism_id := ids (snd acc);
                 sourceId := s;
                 targetId := t;
                 morphism_name :=
                   JS.orElse (Wasm.morphism_name morph) "relates to";
                 cardinality := one |} ],
         S (snd acc))
      else acc
  | _, _ => acc
  end.

(** The nodes of one parsed context, after the four loops. *)
Definition drawn (ids : nat -> string) (next : nat) (ctx : Wasm.ContextInfo)
  : Canvas :=
  let c :=
    {| canvas_nodes := []; nodeIdMap := [];
       canvas_x := 50; canvas_y := 50; canvas_next := next |} in
  let c := fold_left (entityStep ids) (orEmpty (Wasm.entities ctx)) c in
  let c := fold_left (valueStep ids) (orEmpty (Wasm.value_objects ctx)) c in
  let c := fold_left (enumStep ids) (orEmpty (Wasm.enums ctx)) c in
  fold_left (aggregateStep ids) (orEmpty (Wasm.aggregates ctx)) c.

(** One turn of the loop over the parsed contexts: the context that is
    stored, under its id, and the number of the next [generateId()].
    [yOffset] is written and never read. *)
Definition convertContext (ids : nat -> string) (next : nat)
  (ctx : Wasm.ContextInfo) : (string * ContextData) * nat :=
  let contextId := ids next in
  let c := drawn ids (S next) ctx in
  let (morphisms, next') :=
    fold_left (morphismStep ids (nodeIdMap c))
      (orEmpty (Wasm.morphisms ctx)) ([], canvas_next c) in
  ((contextId,
    {| context_id := contextId;
       context_name := Wasm.context_name ctx;
       nodes := canvas_nodes c;
       morphisms := morphisms |}),
   next').

Definition contextStep (ids : nat -> string)
  (acc : list (string * ContextData) * nat) (ctx : Wasm.ContextInfo)
  : list (string * ContextData) * nat :=
  let (entry, next) := convertContext ids (snd acc) ctx in
  (Store.put (fst acc) (fst entry) (snd entry), next).

(** [contexts] after the loop over [result.data.contexts]. *)
Definition convert (ids : nat -> string) (data : Wasm.ParsedModel)
  : list (string * ContextData) :=
  fst (fold_left (contextStep ids) (Wasm.contexts data) ([], 0)).

(** The update of the store that ends [importModel]. *)
Definition importParsed {V : Type} (ids : nat -> string)
  (data : Wasm.ParsedModel) (w : Store.World V) : Store.World V :=
  let s := Store.state w in
  let h := Store.saveToHistory s (Store.history w) in
  let contexts := convert ids data in
  let contextIds := JS.keys contexts in
  {| Store.state :=
       Store.withSelection [] []
         (Store.withActiveContextId
            (if 0 <? length contextIds then nth_error contextIds 0 else None)
            (Store.withContextMaps [] (Store.withContexts contexts s)));
     Store.history := h |}.

End ImportModel.

(** ** The Mermaid diagrams ([utils/export/mermaid.ts]) *)

Module Mermaid.

Definition dquote : string := String (ascii_of_nat 34) "".

(** A code unit of the class [[a-zA-Z0-9_]]. *)
Definition isWord (c : ascii) : bool :=
  let n := nat_of_ascii c in
  ((97 <=? n) && (n <=? 122)) || ((65 <=? n) && (n <=? 90))
  || ((48 <=? n) && (n <=? 57)) || (n =? 95).

(** [name.replace(/[^a-zA-Z0-9_]/g, '_')] *)
Definition sanitizeName : string -> string :=
  JS.mapChars (fun c => if isWord c then c else "_"%char).

(** *** The class diagram *)

Definition classField (field : Field) : string :=
  let optional := if field_optional field then "?" else "" in
  "        +" +++ sanitizeName (field_type field) +++ optional +++ " "
  +++ field_name field.

Definition entityClass (entity : EntityNode) : list string :=
  [ "    class " +++ sanitizeName (entity_name entity) +++ " {";
    "        <<Entity>>";
    "        +String id" ]
  ++ map classField (entity_fields entity)
  ++ [ "    }"; "" ].

Definition valueClass (value : ValueNode) : list string :=
  [ "    class " +++ sanitizeName (value_name value) +++ " {";
    "        <<ValueObject>>" ]
  ++ map classField (value_fields value)
  ++ [ "    }"; "" ].

Definition enumClass (enumNode : EnumNode) : list string :=
  [ "    class " +++ sanitizeName (enum_name enumNode) +++ " {";
    "        <<Enumeration>>" ]
  ++ map (fun variant => "        " +++ variant_name variant)
       (enum_variants enumNode)
  ++ [ "    }"; "" ].

Definition aggregateClass (ns : Nodes) (aggregate : AggregateNode)
  : list string :=
  [ "    class " +++ sanitizeName (aggregate_name aggregate)
    +++ "Aggregate {";
    "        <<Aggregate>>" ]
  ++ match nodeAt ns (rootId aggregate) with
     | Some rootNode => [ "        +" +++ sanitizeName (name rootNode)
                          +++ " root" ]
     | None => []
     end
  ++ [ "    }"; "" ].

(** The four passes over [nodeEntries]; each reads the nodes of its
    kind. *)
Definition entityClasses (e : string * NodeData) : list string :=
  match data_node (snd e) with
  | Entity entity => entityClass entity
  | _ => []
  end.

Definition valueClasses (e : string * NodeData) : list string :=
  match data_node (snd e) with
  | Value value => valueClass value
  | _ => []
  end.

Definition enumClasses (e : string * NodeData) : list string :=
  match data_node (snd e) with
  | Enum enumNode => enumClass enumNode
  | _ => []
  end.

Definition aggregateClasses (ns : Nodes) (e : string * NodeData)
  : list string :=
  match data_node (snd e) with
  | Aggregate aggregate => aggregateClass ns aggregate
  | _ => []
  end.

Definition classCardinality (c : Cardinality) : string :=
  match c with
  | many => dquote +++ "*" +++ dquote
  | optional => dquote +++ "0..1" +++ dquote
  | one => dquote +++ "1" +++ dquote
  end.

Definition classRelationship (ns : Nodes) (morphism : Morphism)
  : list string :=
  match nodeAt ns (sourceId morphism), nodeAt ns (targetId morphism) with
  | Some sourceNode, Some targetNode =>
      [ "    " +++ sanitizeName (name sourceNode) +++ " --> "
        +++ classCardinality (cardinality morphism) +++ " "
        +++ sanitizeName (name targetNode) +++ " : "
        +++ morphism_name morphism ]
  | _, _ => []
  end.

Definition contains (aggregate : AggregateNode) (n : DomainNode) : string :=
  "    " +++ sanitizeName (aggregate_name aggregate) +++ "Aggregate *-- "
  +++ sanitizeName (name n).

Definition memberLine (ns : Nodes) (aggregate : AggregateNode)
  (memberId : string) : list string :=
  match nodeAt ns memberId with
  | Some memberNode => [ contains aggregate memberNode ]
  | None => []
  end.

Definition containment (ns : Nodes) (e : string * NodeData) : list string :=
  match data_node (snd e) with
  | Aggregate aggregate =>
      memberLine ns aggregate (rootId aggregate)
      ++ flat_map (memberLine ns aggregate) (memberIds aggregate)
  | _ => []
  end.

(** The array [lines] of [generateMermaidClassDiagram] when it is
    joined. *)
Definition classLines (context : ContextData) : list string :=
  [ "classDiagram"; "    %% Context: " +++ context_name context; "" ]
  ++ flat_map entityClasses (nodes context)
  ++ flat_map valueClasses (nodes context)
  ++ flat_map enumClasses (nodes context)
  ++ flat_map (aggregateClasses (nodes context)) (nodes context)
  ++ flat_map (classRelationship (nodes context)) (morphisms context)
  ++ flat_map (containment (nodes context)) (nodes context).

Definition generateMermaidClassDiagram (context : ContextData) : string :=
  JS.join JS.nl (classLines context).

(** *** The entity-relationship diagram *)

Definition erField (field : Field) : string :=
  let pk :=
    if (JS.toLowerCase (field_name field) =? "id")%string then " PK"
    else "" in
  "        " +++ sanitizeName (field_type field) +++ " " +++ field_name field
  +++ pk.

(** The pass over the entities and the value objects. *)
Definition erEntity (e : string * NodeData) : list string :=
  match data_node (snd e) with
  | Entity node =>
      [ "    " +++ sanitizeName (entity_name node) +++ " {";
        "        uuid id PK" ]
      ++ map erField (entity_fields node)
      ++ [ "    }"; "" ]
  | Value node =>
      [ "    " +++ sanitizeName (value_name node) +++ " {" ]
      ++ map erField (value_fields node)
      ++ [ "    }"; "" ]
  | _ => []
  end.

Definition erCardinality (c : Cardinality) : string :=
  match c with
  | one => "||--||"
  | optional => "||--o|"
  | many => "||--o{"
  end.

Definition erRelationship (ns : Nodes) (morphism : Morphism) : list string :=
  match nodeAt ns (sourceId morphism), nodeAt ns (targetId morphism) with
  | Some sourceNode, Some targetNode =>
      [ "    " +++ sanitizeName (name sourceNode) +++ " "
        +++ erCardinality (cardinality morphism) +++ " "
        +++ sanitizeName (name targetNode) +++ " : " +++ dquote
        +++ morphism_name morphism +++ dquote ]
  | _, _ => []
  end.

(** The array [lines] of [generateMermaidERDiagram] when it is joined. *)
Definition erLines (context : ContextData) : list string :=
  [ "erDiagram"; "    %% Context: " +++ context_name context; "" ]
  ++ flat_map erEntity (nodes context)
  ++ flat_map (erRelationship (nodes context)) (morphisms context).

Definition generateMermaidERDiagram (context : ContextData) : string :=
  JS.join JS.nl (erLines context).

End Mermaid.

(** * Vocabulary of the statements and sample inputs *)

(** ** The store *)

(** What C10 says of a state, a context id and a node id, read on the
    state after [deleteNode]: the context, if there is one, has no
    morphism at the node, and the node is not selected. *)
Definition cleared {V : Type} (contextId nodeId : string)
  (s : Store.DomainState V)
  : Prop :=
  (forall context,
      JS.get (Store.contexts s) contextId = Some context ->
      Forall (fun m => sourceId m <> nodeId /\ targetId m <> nodeId)
        (morphisms context))
  /\ ~ In nodeId (Store.selectedNodeIds s).

(** The empty store with one selected node, which is in no context. *)
Definition strayWorld : Store.World unit :=
  {| Store.state :=
       {| Store.activeContextId := None;
          Store.contexts := [];
          Store.contextMaps := [];
          Store.selectedNodeIds := ["n1"];
          Store.selectedEdgeIds := [];
          Store.validationResult := None;
          Store.isPaletteOpen := true;
          Store.isPropertiesPanelOpen := true |};
     Store.history := {| Store.past := []; Store.future := [] |} |}.

(** ** Order *)

(** [a] comes before [b] in [l]. *)
Definition Precedes {A : Type} (a b : A) (l : list A) : Prop :=
  exists l1 l2 l3, l = l1 ++ a :: l2 ++ b :: l3.

(** ** What the generators make of a node *)

(** What the pass of kind [k] pushes to [lines]: for each entry of that
    kind, in the order of the entries, the code of its node and an empty
    line. *)
Definition pushedBy (context : ContextData) (options : CodeGenOptions)
  (k : Kind) : list string :=
  flat_map (fun e => [ TypeScript.item context options (data_node (snd e));
                       "" ])
    (filter (hasKind k) (nodes context)).

(** The place of a kind in the TypeScript file. *)
Definition rank (k : Kind) : nat :=
  match k with
  | KEnum => 0
  | KValue => 1
  | KEntity => 2
  | KAggregate => 3
  end.

(** The file the Java generator makes of an entry, and the C# one. *)
Definition javaFile (context : ContextData) (options : CodeGenOptions)
  (e : string * NodeData) : GeneratedFile :=
  {| filename := snd (Java.render context options (data_node (snd e)));
     content := fst (Java.render context options (data_node (snd e)));
     file_language := java |}.

Definition csharpFile (context : ContextData) (options : CodeGenOptions)
  (e : string * NodeData) : GeneratedFile :=
  {| filename := snd (CSharp.render context options (data_node (snd e)));
     content := fst (CSharp.render context options (data_node (snd e)));
     file_language := csharp |}.

(** ** Sample contexts *)

Definition at0 (n : DomainNode) : NodeData :=
  {| data_node := n; data_position := {| pos_x := 0; pos_y := 0 |} |}.

Definition customerNode : DomainNode :=
  Entity {| entity_name := "Customer"; entity_fields := [] |}.

Definition statusNode : DomainNode :=
  Enum {| enum_name := "Status";
          enum_variants :=
            [ {| variant_id := "v1"; variant_name := "Open";
                 variant_payload := None |};
              {| variant_id := "v2"; variant_name := "Closed";
                 variant_payload := None |} ] |}.

(** The entity [Customer], declared first, and the enum [Status]. *)
Definition shop : ContextData :=
  {| context_id := "c1";
     context_name := "Shop";
     nodes := [ ("n1", at0 customerNode); ("n2", at0 statusNode) ];
     morphisms := [] |}.

(** All three flags off. *)
Definition bare : CodeGenOptions :=
  {| language := typescript;
     includeComments := false;
     generateInterfaces := false;
     generateClasses := false;
     namespace := None;
     packageName := None |}.

Definition quiet : PartialOptions :=
  {| p_language := None; p_includeComments := Some false;
     p_generateInterfaces := None; p_generateClasses := None;
     p_namespace := None; p_packageName := None |}.

(** [lines] after the header: what the four passes push. *)
Definition itemsOf (context : ContextData) (options : CodeGenOptions)
  : list string :=
  pushedBy context options KEnum
  ++ pushedBy context options KValue
  ++ pushedBy context options KEntity
  ++ pushedBy context options KAggregate.

(** Whether [a] comes before [b] in a list of strings. *)
Fixpoint precedesb (a b : string) (l : list string) : bool :=
  match l with
  | [] => false
  | x :: r =>
      ((x =? a)%string && existsb (fun y => (y =? b)%string) r)
      || precedesb a b r
  end.

(** Two readings of the clock, a second apart. *)
Definition noon : string := "2024-01-01T12:00:00.000Z".
Definition noonAndOne : string := "2024-01-01T12:00:01.000Z".

(** ** Enums *)

(** A variant carries a payload when its [payload] is a string that is
    not empty: this is what [if (variant.payload)] tests. *)
Definition carriesPayload (v : EnumVariant) : Prop :=
  exists p, variant_payload v = Some p /\ p <> "".

(** The enum without its payloads. *)
Definition erasePayloads (node : EnumNode) : EnumNode :=
  {| enum_name := enum_name node;
     enum_variants :=
       map (fun v => {| variant_id := variant_id v;
                        variant_name := variant_name v;
                        variant_payload := None |}) (enum_variants node) |}.

(** The output names the type of every payload of the enum. *)
Definition namesPayloads (out : string) (node : EnumNode) : Prop :=
  forall v p,
    In v (enum_variants node) -> variant_payload v = Some p -> p <> "" ->
    JS.includes out p = true.

(** The enum [Shape]: a [Circle] with a [Radius], and a [Square]. *)
Definition shape : EnumNode :=
  {| enum_name := "Shape";
     enum_variants :=
       [ {| variant_id := "v1"; variant_name := "Circle";
            variant_payload := Some "Radius" |};
         {| variant_id := "v2"; variant_name := "Square";
            variant_payload := None |} ] |}.

(** ** Value objects *)

(** The conjunction the generated [equals] returns: [true] when there is
    nothing to compare. *)
Definition conjunction (comparisons : list string) : string :=
  match comparisons with
  | [] => "true"
  | _ => JS.join " && " comparisons
  end.

(** The identity an entity is given, in each of the three languages. *)
Definition typescriptId : string := "  readonly id: string;".
Definition javaId : string := "    private final UUID id;".
Definition csharpId : string :=
  "    public Guid Id { get; init; } = Guid.NewGuid();".

Definition moneyNode : ValueNode :=
  {| value_name := "Money";
     value_fields :=
       [ {| field_id := "f1"; field_name := "amount";
            field_type := "number"; field_optional := false |};
         {| field_id := "f2"; field_name := "currency";
            field_type := "string"; field_optional := false |} ] |}.

(** ** Aggregates *)

(** The lines [block], one after the other, somewhere in [lines]. *)
Definition Within {A : Type} (block lines : list A) : Prop :=
  exists before after, lines = before ++ block ++ after.

(** The output has an operation named by [verb] and the member,
    whatever the case of the letters. *)
Definition hasOperation (out verb member : string) : Prop :=
  JS.includes (JS.toLowerCase out) (verb +++ JS.toLowerCase member) = true.

Definition orderNode : DomainNode :=
  Entity {| entity_name := "Order"; entity_fields := [] |}.

Definition lineItemNode : DomainNode :=
  Entity {| entity_name := "LineItem"; entity_fields := [] |}.

Definition orderAggregate : AggregateNode :=
  {| aggregate_name := "Order";
     rootId := "n1";
     memberIds := [ "n2" ];
     invariants := [] |}.

(** [Order], [LineItem], and the aggregate of [Order] with its items. *)
Definition orders : ContextData :=
  {| context_id := "c2";
     context_name := "Orders";
     nodes := [ ("n1", at0 orderNode); ("n2", at0 lineItemNode);
                ("n3", at0 (Aggregate orderAggregate)) ];
     morphisms := [] |}.

(** ** The validator *)

(** The context [Commerce]: the entities [Customer] and [Order], and the
    morphism [placedBy] from [Order] to a misspelt [Custommer]. *)
Definition commerce (c : Cardinality) : Validator.BoundedContext :=
  {| Validator.sketch_name := "Commerce";
     Validator.objects :=
       [ {| Validator.object_name := "Customer";
            Validator.object_kind := Validator.EntityKind |};
         {| Validator.object_name := "Order";
            Validator.object_kind := Validator.EntityKind |} ];
     Validator.arrows :=
       [ {| Validator.arrow_name := "placedBy";
            Validator.source := "Order";
            Validator.target := "Custommer";
            Validator.arrow_cardinality := c |} ] |}.

(** ** The history of the store *)

(** The history holds at most [MAX_HISTORY] states, past and future
    together. *)
Definition bounded {V : Type} (w : Store.World V) : Prop :=
  length (Store.past (Store.history w))
  + length (Store.future (Store.history w)) <= Store.MAX_HISTORY.

(** The active context, if there is one, is a context of the state. *)
Definition activeValid {V : Type} (s : Store.DomainState V) : Prop :=
  match Store.activeContextId s with
  | Some a => exists context, JS.get (Store.contexts s) a = Some context
  | None => True
  end.

(** The store as it starts, with an empty history. *)
Definition freshWorld : Store.World unit :=
  {| Store.state := Store.initialState;
     Store.history := {| Store.past := []; Store.future := [] |} |}.

(** The store after a context [Sales] is created in [freshWorld]. *)
Definition salesWorld : Store.World unit :=
  Store.createContext "c1" "Sales" freshWorld.

(** The actions that save the state to the history before they change
    it, and those that do not. *)
Definition savingActions {V : Type} (id contextId nodeId otherId name : string)
  (node : DomainNode) (position : Position) (morphism : Store.NewMorphism)
  (map : Store.NewContextMap) (field : Store.NewField)
  (variant : Store.NewVariant) : list (Store.World V -> Store.World V) :=
  [ Store.createContext id name;
    Store.deleteContext contextId;
    Store.renameContext contextId name;
    Store.addNode id contextId node position;
    Store.deleteNode contextId nodeId;
    Store.addField id contextId nodeId field;
    Store.deleteField contextId nodeId otherId;
    Store.addVariant id contextId nodeId variant;
    Store.deleteVariant contextId nodeId otherId;
    Store.addMorphism id contextId morphism;
    Store.deleteMorphism contextId otherId;
    Store.addContextMap id map;
    Store.deleteContextMap otherId ].

Definition silentActions {V : Type} (contextId nodeId : string)
  (active : option string) (ids : list string) (position : Position)
  : list (Store.World V -> Store.World V) :=
  [ Store.moveNode contextId nodeId position;
    Store.setActiveContext active;
    Store.setSelectedNodes ids;
    Store.setSelectedEdges ids;
    Store.clearSelection ].

(** Sample arguments. *)
Definition origin : Position := {| pos_x := 0; pos_y := 0 |}.

Definition sampleMorphism : Store.NewMorphism :=
  {| Store.new_sourceId := "n1"; Store.new_targetId := "n2";
     Store.new_name := "placedBy"; Store.new_cardinality := one |}.

Definition sampleMap : Store.NewContextMap :=
  {| Store.new_map_name := "Sales to Billing";
     Store.new_sourceContextId := "c1";
     Store.new_targetContextId := "c2";
     Store.new_pattern := CustomerSupplier;
     Store.new_mappings := [] |}.

Definition sampleField : Store.NewField :=
  {| Store.new_field_name := "email"; Store.new_field_type := "string";
     Store.new_field_optional := false |}.

Definition sampleVariant : Store.NewVariant :=
  {| Store.new_variant_name := "Open"; Store.new_variant_payload := None |}.

(** The contexts and nodes an action may be aimed at. *)
Definition guardedActions {V : Type} (id contextId nodeId otherId name : string)
  (node : DomainNode) (position : Position) (morphism : Store.NewMorphism)
  (field : Store.NewField) (variant : Store.NewVariant)
  : list (Store.World V -> Store.World V) :=
  [ Store.renameContext contextId name;
    Store.addNode id contextId node position;
    Store.deleteNode contextId nodeId;
    Store.addField id contextId nodeId field;
    Store.deleteField contextId nodeId otherId;
    Store.addVariant id contextId nodeId variant;
    Store.deleteVariant contextId nodeId otherId;
    Store.addMorphism id contextId morphism;
    Store.deleteMorphism contextId otherId ].

(** The fields of a node that has fields, and the variants of an enum. *)
Definition fieldsOf (n : DomainNode) : list Field :=
  match n with
  | Entity e => entity_fields e
  | Value v => value_fields v
  | _ => []
  end.

Definition variantsOf (n : DomainNode) : list EnumVariant :=
  match n with
  | Enum e => enum_variants e
  | _ => []
  end.

(** The store with the context [Sales] and, in it, the entity
    [Customer]. *)
Definition customerWorld : Store.World unit :=
  Store.addNode "n1" "c1" customerNode origin salesWorld.

(** ** Files *)

(** The name of the file of a node, with the extension of the language. *)
Definition fileNameOf (extension : string) (n : DomainNode) : string :=
  match n with
  | Aggregate a => aggregate_name a +++ "Aggregate" +++ extension
  | _ => name n +++ extension
  end.

(** White space at the head of a string, at its end, and anywhere. *)
Definition headSpace (s : string) : bool :=
  match s with
  | String c _ => JS.isWhiteSpace c
  | EmptyString => false
  end.

Fixpoint lastSpace (s : string) : bool :=
  match s with
  | EmptyString => false
  | String c EmptyString => JS.isWhiteSpace c
  | String _ r => lastSpace r
  end.

Fixpoint anySpace (s : string) : bool :=
  match s with
  | EmptyString => false
  | String c r => JS.isWhiteSpace c || anySpace r
  end.

(** ** What the generators read *)

(** The partial options with another [language]. *)
Definition withLanguage (l : option TargetLanguage) (p : PartialOptions)
  : PartialOptions :=
  {| p_language := l;
     p_includeComments := p_includeComments p;
     p_generateInterfaces := p_generateInterfaces p;
     p_generateClasses := p_generateClasses p;
     p_namespace := p_namespace p;
     p_packageName := p_packageName p |}.

(** The node map without the positions. *)
Definition modelOf (ns : Nodes) : list (string * DomainNode) :=
  map (fun e => (fst e, data_node (snd e))) ns.

(** Two contexts with the same name, the same morphisms and the same
    nodes under the same ids in the same order: they may differ in their
    own id and in the positions of the nodes. *)
Definition sameModel (c1 c2 : ContextData) : Prop :=
  context_name c1 = context_name c2
  /\ morphisms c1 = morphisms c2
  /\ modelOf (nodes c1) = modelOf (nodes c2).

(** ** Downloads ([codegen/index.ts]) *)

(** What [downloadGeneratedFiles] hands to the browser: the text of the
    [Blob] and the [download] name of the link it clicks. *)
Record Download := {
  blob : string;
  download : string
}.

(** [files.map(f => `// ============ ${f.filename} ============\n\n${f.content}`).join('\n\n')] *)
Definition combined (files : list GeneratedFile) : string :=
  JS.join (JS.nl +++ JS.nl)
    (map (fun f => "// ============ " +++ filename f +++ " ============"
                   +++ JS.nl +++ JS.nl +++ content f) files).

(** With no file at all [files[0].language] throws a [TypeError]: there is
    no download then. *)
Definition downloadGeneratedFiles (files : list GeneratedFile)
  : option Download :=
  match files with
  | [ file ] => Some {| blob := content file; download := filename file |}
  | [] => None
  | first :: _ =>
      Some {| blob := combined files;
              download :=
                "generated-code."
                +++ match file_language first with
                    | java => "java"
                    | csharp => "cs"
                    | typescript => "txt"
                    end |}
  end.

(** The aggregate without the member [nodeId]. *)
Definition withoutMember (nodeId : string) (node : AggregateNode)
  : AggregateNode :=
  {| aggregate_name := aggregate_name node;
     rootId := rootId node;
     memberIds :=
       filter (fun id => negb (id =? nodeId)%string) (memberIds node);
     invariants := invariants node |}.

(** The target of the morphism resolves. *)
Definition targetResolves (ns : Nodes) (m : Morphism) : bool :=
  match findEntry ns (targetId m) with
  | Some _ => true
  | None => false
  end.

(** ** The import *)

(** [id] is the key of a node of [ns]. *)
Definition hasNode (ns : Nodes) (id : string) : bool :=
  match JS.get ns id with
  | Some _ => true
  | None => false
  end.

(** What a node refers to is in [ns]: the members of an aggregate, and
    its root unless it is the empty string. *)
Definition nodeLinked (ns : Nodes) (n : DomainNode) : bool :=
  match n with
  | Aggregate a =>
      ((rootId a =? "")%string || hasNode ns (rootId a))
      && forallb (hasNode ns) (memberIds a)
  | _ => true
  end.

Definition morphismLinked (ns : Nodes) (m : Morphism) : bool :=
  hasNode ns (sourceId m) && hasNode ns (targetId m).

(** No node and no morphism of the context refers to a node that the
    context does not have. *)
Definition linked (c : ContextData) : bool :=
  forallb (fun e => nodeLinked (nodes c) (data_node (snd e))) (nodes c)
  && forallb (morphismLinked (nodes c)) (morphisms c).

(** The names a parsed context declares, in the order of the import. *)
Definition declared (ctx : Wasm.ContextInfo) : list string :=
  map Wasm.entity_name (ImportModel.orEmpty (Wasm.entities ctx))
  ++ map Wasm.value_name (ImportModel.orEmpty (Wasm.value_objects ctx))
  ++ map Wasm.enum_name (ImportModel.orEmpty (Wasm.enums ctx))
  ++ map Wasm.aggregate_name (ImportModel.orEmpty (Wasm.aggregates ctx)).

(** The kinds of these names. *)
Definition declaredKinds (ctx : Wasm.ContextInfo) : list Kind :=
  map (fun _ => KEntity) (ImportModel.orEmpty (Wasm.entities ctx))
  ++ map (fun _ => KValue) (ImportModel.orEmpty (Wasm.value_objects ctx))
  ++ map (fun _ => KEnum) (ImportModel.orEmpty (Wasm.enums ctx))
  ++ map (fun _ => KAggregate) (ImportModel.orEmpty (Wasm.aggregates ctx)).

(** The place of the node number [i] of an import: four in a row. *)
Definition grid (i : nat) : Position :=
  {| pos_x := 50 + 250 * (i mod 4); pos_y := 50 + 200 * (i / 4) |}.

(** The stored context [e] holds the nodes that [ctx] declares, in
    order and on the grid, under the name of [ctx]. *)
Definition imports (ctx : Wasm.ContextInfo) (e : string * ContextData)
  : Prop :=
  context_id (snd e) = fst e
  /\ context_name (snd e) = Wasm.context_name ctx
  /\ map (fun n => name (data_node (snd n))) (nodes (snd e)) = declared ctx
  /\ map (fun n => kind (data_node (snd n))) (nodes (snd e))
     = declaredKinds ctx
  /\ map (fun n => data_position (snd n)) (nodes (snd e))
     = map grid (seq 0 (length (declared ctx))).

(** Both ends of the parsed morphism are declared. *)
Definition joinsDeclared (ctx : Wasm.ContextInfo) (m : Wasm.MorphismInfo)
  : bool :=
  existsb (String.eqb (Wasm.source m)) (declared ctx)
  && existsb (String.eqb (Wasm.target m)) (declared ctx).

(** A supply of ids: the text of [n] is [n] times the letter [i]. *)
Fixpoint tally (n : nat) : string :=
  match n with
  | 0 => "#"
  | S n => String "i" (tally n)
  end.

(** A parsed model: a customer with an address, an aggregate around the
    customer, and a morphism to an object that is not declared. *)
Definition parsedShop : Wasm.ParsedModel :=
  {| Wasm.contexts :=
       [ {| Wasm.context_name := "Shop";
            Wasm.entities :=
              Some [ {| Wasm.entity_name := "Customer";
                        Wasm.entity_fields :=
                          Some [ {| Wasm.field_name := "email";
                                    Wasm.type_name := "String";
                                    Wasm.optional := None |} ] |} ];
            Wasm.value_objects :=
              Some [ {| Wasm.value_name := "Address";
                        Wasm.value_fields := None |} ];
            Wasm.aggregates :=
              Some [ {| Wasm.aggregate_name := "Customers";
                        Wasm.root := Some "Customer";
                        Wasm.contains := Some [ "Address"; "Invoice" ] |} ];
            Wasm.enums := None;
            Wasm.morphisms :=
              Some [ {| Wasm.morphism_name := "";
                        Wasm.source := "Customer";
                        Wasm.target := "Address" |};
                     {| Wasm.morphism_name := "pays";
                        Wasm.source := "Customer";
                        Wasm.target := "Invoice" |} ];
            Wasm.objects := [] |} ];
     Wasm.context_maps := [];
     Wasm.warnings := [] |}.

(** What [nodeIdMap] names is a node, and every node is linked. *)
Definition settled (c : ImportModel.Canvas) : Prop :=
  (forall nm id, JS.get (ImportModel.nodeIdMap c) nm = Some id ->
                 JS.truthy id = true ->
                 hasNode (ImportModel.canvas_nodes c) id = true)
  /\ (forall e, In e (ImportModel.canvas_nodes c) ->
                nodeLinked (ImportModel.canvas_nodes c) (data_node (snd e))
                = true).

(** What a node refers to is the empty string or a value of [m]. *)
Definition refersTo (m : list (string * string)) (n : DomainNode) : Prop :=
  match n with
  | Aggregate a =>
      (rootId a = "" \/ exists r, JS.get m r = Some (rootId a))
      /\ Forall (fun id => JS.truthy id = true
                           /\ exists r, JS.get m r = Some id)
           (memberIds a)
  | _ => True
  end.

(** One turn of one of the four loops that draw the nodes. *)
Definition Placed (ids : nat -> string) (nm : string) (k : Kind)
  (c c' : ImportModel.Canvas) : Prop :=
  exists node next,
    c' = ImportModel.place (ids (ImportModel.canvas_next c)) node
           (Store.put (ImportModel.nodeIdMap c) nm
              (ids (ImportModel.canvas_next c)))
           next c
    /\ ImportModel.canvas_next c < next
    /\ name node = nm
    /\ kind node = k
    /\ refersTo (Store.put (ImportModel.nodeIdMap c) nm
                   (ids (ImportModel.canvas_next c))) node.

(** No two calls of [generateId()] return the same id, and none returns
    the empty string. *)
Definition distinct (ids : nat -> string) : Prop :=
  forall i j, ids i = ids j -> i = j.

Definition nonEmpty (ids : nat -> string) : Prop :=
  forall n, ids n <> "".

(** The node of [ns] under [id] bears the name [nm]. *)
Definition nodeNamed (ns : Nodes) (id nm : string) : Prop :=
  exists d, JS.get ns id = Some d /\ name (data_node d) = nm.

(** The locals of the loop once the objects [names], of the kinds
    [kinds], are drawn. *)
Definition laid (ids : nat -> string) (names : list string)
  (kinds : list Kind) (c : ImportModel.Canvas) : Prop :=
  (forall key, In key (JS.keys (ImportModel.canvas_nodes c)) ->
               exists j, j < ImportModel.canvas_next c /\ key = ids j)
  /\ map (fun n => name (data_node (snd n))) (ImportModel.canvas_nodes c)
     = names
  /\ map (fun n => kind (data_node (snd n))) (ImportModel.canvas_nodes c)
     = kinds
  /\ map (fun n => data_position (snd n)) (ImportModel.canvas_nodes c)
     = map grid (seq 0 (length (ImportModel.canvas_nodes c)))
  /\ {| pos_x := ImportModel.canvas_x c; pos_y := ImportModel.canvas_y c |}
     = grid (length (ImportModel.canvas_nodes c))
  /\ (forall nm, In nm names
                 <-> exists id, JS.get (ImportModel.nodeIdMap c) nm = Some id)
  /\ (forall nm id, JS.get (ImportModel.nodeIdMap c) nm = Some id ->
                    (exists j, j < ImportModel.canvas_next c /\ id = ids j)
                    /\ nodeNamed (ImportModel.canvas_nodes c) id nm).

(** The stored morphism [m] is the parsed morphism [morph] between
    nodes of [ns]. *)
Definition morphismOf (ns : Nodes) (morph : Wasm.MorphismInfo) (m : Morphism)
  : Prop :=
  morphism_name m = JS.orElse (Wasm.morphism_name morph) "relates to"
  /\ cardinality m = one
  /\ nodeNamed ns (sourceId m) (Wasm.source morph)
  /\ nodeNamed ns (targetId m) (Wasm.target morph).

(** The stored context [e] holds the morphisms of [ctx] that join
    declared objects, in order, and no other. *)
Definition importsMorphisms (ctx : Wasm.ContextInfo)
  (e : string * ContextData) : Prop :=
  Forall2 (morphismOf (nodes (snd e)))
    (filter (joinsDeclared ctx) (ImportModel.orEmpty (Wasm.morphisms ctx)))
    (morphisms (snd e)).

(** The names of the files that a generator with the extension
    [extension] makes of the objects that a parsed context declares. *)
Definition generatedNames (extension : string) (ctx : Wasm.ContextInfo)
  : list string :=
  map (fun e => Wasm.entity_name e +++ extension)
    (ImportModel.orEmpty (Wasm.entities ctx))
  ++ map (fun v => Wasm.value_name v +++ extension)
       (ImportModel.orEmpty (Wasm.value_objects ctx))
  ++ map (fun e => Wasm.enum_name e +++ extension)
       (ImportModel.orEmpty (Wasm.enums ctx))
  ++ map (fun a => Wasm.aggregate_name a +++ "Aggregate" +++ extension)
       (ImportModel.orEmpty (Wasm.aggregates ctx)).

(** The Java and the C# files of the stored context [e] are those of
    the objects that [ctx] declares. *)
Definition generates (options : CodeGenOptions) (ctx : Wasm.ContextInfo)
  (e : string * ContextData) : Prop :=
  map filename (result (Java.generateJava (snd e) options))
  = generatedNames ".java" ctx
  /\ map filename (result (CSharp.generateCSharp (snd e) options))
     = generatedNames ".cs" ctx.

(** The name of the file of a node called [nm] of the kind [k]. *)
Definition fileNameAs (extension : string) (p : string * Kind) : string :=
  match snd p with
  | KAggregate => fst p +++ "Aggregate" +++ extension
  | _ => fst p +++ extension
  end.

(** ** The diagrams *)

(** Every code unit of [s] is a letter, a digit or an underscore. *)
Fixpoint allWord (s : string) : bool :=
  match s with
  | EmptyString => true
  | String c r => Mermaid.isWord c && allWord r
  end.

(** The lines an aggregate has a right to in a class diagram: one for
    its root, if it is a node, and one for every member. *)
Definition linksOf (ns : Nodes) (e : string * NodeData) : nat :=
  match data_node (snd e) with
  | Aggregate a =>
      (if hasNode ns (rootId a) then 1 else 0) + length (memberIds a)
  | _ => 0
  end.

(** The line of the entity-relationship diagram, and of the class
    diagram, for a parsed morphism. *)
Definition erLineOf (morph : Wasm.MorphismInfo) : string :=
  "    " +++ Mermaid.sanitizeName (Wasm.source morph) +++ " ||--|| "
  +++ Mermaid.sanitizeName (Wasm.target morph) +++ " : " +++ Mermaid.dquote
  +++ JS.orElse (Wasm.morphism_name morph) "relates to" +++ Mermaid.dquote.

Definition classLineOf (morph : Wasm.MorphismInfo) : string :=
  "    " +++ Mermaid.sanitizeName (Wasm.source morph) +++ " --> "
  +++ Mermaid.dquote +++ "1" +++ Mermaid.dquote +++ " "
  +++ Mermaid.sanitizeName (Wasm.target morph) +++ " : "
  +++ JS.orElse (Wasm.morphism_name morph) "relates to".

(** The diagrams of the stored context [e] draw the morphisms of [ctx]
    that join declared objects, one to one. *)
Definition draws (ctx : Wasm.ContextInfo) (e : string * ContextData)
  : Prop :=
  flat_map (Mermaid.erRelationship (nodes (snd e))) (morphisms (snd e))
  = map erLineOf
      (filter (joinsDeclared ctx) (ImportModel.orEmpty (Wasm.morphisms ctx)))
  /\ flat_map (Mermaid.classRelationship (nodes (snd e)))
       (morphisms (snd e))
     = map classLineOf
         (filter (joinsDeclared ctx)
            (ImportModel.orEmpty (Wasm.morphisms ctx))).

(** * Properties *)

(** ** Records in property order *)

Section Records.

Context {A : Type}.

Lemma get_remove_same (o : list (string * A)) (k : string) :
  JS.get (JS.remove o k) k = None.
Proof.
  induction o as [|[k' a] o IH]; simpl; [reflexivity|].
  destruct (String.eqb_spec k' k) as [E|E]; simpl; [exact IH|].
  apply String.eqb_neq in E. rewrite E. exact IH.
Qed.

Lemma get_remove_other (o : list (string * A)) (k k' : string) :
  k' <> k -> JS.get (JS.remove o k) k' = JS.get o k'.
Proof.
  intros N. induction o as [|[k0 a] o IH]; simpl; [reflexivity|].
  destruct (String.eqb_spec k0 k) as [E|E]; simpl.
  - subst k0. destruct (String.eqb_spec k k') as [E'|_]; [congruence|exact IH].
  - rewrite IH. reflexivity.
Qed.

Lemma keys_remove (o : list (string * A)) (k : string) :
  JS.keys (JS.remove o k)
  = filter (fun k' => negb (k' =? k)%string) (JS.keys o).
Proof.
  unfold JS.keys, JS.remove.
  induction o as [|[k0 a] o IH]; simpl; [reflexivity|].
  destruct (negb (k0 =? k)%string); simpl; rewrite IH; reflexivity.
Qed.

Lemma get_assign_same (o : list (string * A)) (k : string) (a v : A) :
  JS.get o k = Some a -> JS.get (Store.assign o k v) k = Some v.
Proof.
  induction o as [|[k0 a0] o IH]; simpl; [discriminate|].
  destruct (String.eqb_spec k0 k) as [E|E]; simpl.
  - intros _. subst k0. rewrite String.eqb_refl. reflexivity.
  - apply String.eqb_neq in E. rewrite E. exact IH.
Qed.

Lemma get_assign_other (o : list (string * A)) (k k' : string) (v : A) :
  k' <> k -> JS.get (Store.assign o k v) k' = JS.get o k'.
Proof.
  intros N. induction o as [|[k0 a0] o IH]; simpl; [reflexivity|].
  destruct (String.eqb_spec k0 k) as [E|E]; simpl.
  - subst k0. destruct (String.eqb_spec k k') as [E'|_]; [congruence|].
    reflexivity.
  - rewrite IH. reflexivity.
Qed.

Lemma keys_assign (o : list (string * A)) (k : string) (v : A) :
  JS.keys (Store.assign o k v) = JS.keys o.
Proof.
  unfold JS.keys.
  induction o as [|[k0 a0] o IH]; simpl; [reflexivity|].
  destruct (k0 =? k)%string; simpl; [reflexivity|].
  rewrite IH. reflexivity.
Qed.

End Records.

(** ** The store *)

Section StoreProperties.

Context {V : Type}.

Lemma keepsClearOf_spec (contextId : string) (m : ContextMap) :
  Store.keepsClearOf contextId m = true
  <-> sourceContextId m <> contextId /\ targetContextId m <> contextId.
Proof.
  unfold Store.keepsClearOf.
  rewrite andb_true_iff, !negb_true_iff, !String.eqb_neq. reflexivity.
Qed.

Lemma untouched_spec (nodeId : string) (m : Morphism) :
  Store.untouched nodeId m = true
  <-> sourceId m <> nodeId /\ targetId m <> nodeId.
Proof.
  unfold Store.untouched.
  rewrite andb_true_iff, !negb_true_iff, !String.eqb_neq. reflexivity.
Qed.

(** C6.  After [deleteContext(contextId)], whatever the state and the id,
    no context map of the state has the deleted context as its source or
    as its target. *)
Theorem deleteContext_leaves_no_context_map
  (w : Store.World V) (contextId : string) :
  Forall (fun m => sourceContextId m <> contextId
                   /\ targetContextId m <> contextId)
    (Store.contextMaps (Store.state (Store.deleteContext contextId w))).
Proof.
  unfold Store.deleteContext. simpl.
  apply Forall_forall. intros m H.
  apply filter_In in H. destruct H as [_ H].
  apply keepsClearOf_spec. exact H.
Qed.

(** The context maps that stay are those that do not mention the deleted
    context, and the context itself is gone. *)
Lemma deleteContext_keeps_other_context_maps
  (w : Store.World V) (contextId : string) (m : ContextMap) :
  In m (Store.contextMaps (Store.state w)) ->
  sourceContextId m <> contextId -> targetContextId m <> contextId ->
  In m (Store.contextMaps (Store.state (Store.deleteContext contextId w))).
Proof.
  intros H Hs Ht. unfold Store.deleteContext. simpl.
  apply filter_In. split; [exact H|].
  apply keepsClearOf_spec. split; assumption.
Qed.

Lemma deleteContext_removes_context
  (w : Store.World V) (contextId : string) :
  JS.get (Store.contexts (Store.state (Store.deleteContext contextId w)))
    contextId = None.
Proof. unfold Store.deleteContext. simpl. apply get_remove_same. Qed.

End StoreProperties.

(** C10, as stated, fails: [deleteNode] on a context id the state does
    not have leaves the node selected. *)
Lemma deleteNode_missing_context_keeps_selection :
  ~ cleared "c1" "n1" (Store.state (Store.deleteNode "c1" "n1" strayWorld)).
Proof.
  intros [_ H]. apply H. simpl. left. reflexivity.
Qed.

Section DeleteNode.

Context {V : Type}.

(** C10, amended.  When the state has the context, [deleteNode] leaves it
    without the node and without a morphism from or to the node, the node
    is no longer selected, the other nodes of the context are as they
    were and in their order, its morphisms are those it had that neither
    leave nor reach the node, and the other contexts are as they were.
    When the state has no such context, [deleteNode] leaves the state as
    it is. *)
Theorem deleteNode_in_context
  (w : Store.World V) (contextId nodeId : string) :
  let s' := Store.state (Store.deleteNode contextId nodeId w) in
  match JS.get (Store.contexts (Store.state w)) contextId with
  | Some context =>
      exists context',
        JS.get (Store.contexts s') contextId = Some context'
        /\ cleared contextId nodeId s'
        /\ JS.get (nodes context') nodeId = None
        /\ (forall k, k <> nodeId ->
                      JS.get (nodes context') k = JS.get (nodes context) k)
        /\ JS.keys (nodes context')
           = filter (fun k => negb (k =? nodeId)%string)
               (JS.keys (nodes context))
        /\ (forall m, In m (morphisms context')
                      <-> In m (morphisms context)
                          /\ sourceId m <> nodeId /\ targetId m <> nodeId)
        /\ morphisms context'
           = filter (fun m => negb (sourceId m =? nodeId)%string
                              && negb (targetId m =? nodeId)%string)
               (morphisms context)
        /\ (forall k, k <> contextId ->
                      JS.get (Store.contexts s') k
                      = JS.get (Store.contexts (Store.state w)) k)
  | None => s' = Store.state w
  end.
Proof.
  unfold Store.deleteNode.
  destruct (JS.get (Store.contexts (Store.state w)) contextId)
    as [context|] eqn:Hget; simpl; [|reflexivity].
  exists (Store.withoutNode nodeId context).
  assert (Hnew : JS.get (Store.assign (Store.contexts (Store.state w))
                           contextId (Store.withoutNode nodeId context))
                   contextId
                 = Some (Store.withoutNode nodeId context))
    by (eapply get_assign_same; eassumption).
  split; [exact Hnew|].
  split.
  { split.
    - simpl. intros c Hc. rewrite Hnew in Hc. injection Hc as <-.
      simpl. apply Forall_forall. intros m Hm.
      apply filter_In in Hm. apply untouched_spec. apply Hm.
    - simpl. intros Hin. apply filter_In in Hin.
      destruct Hin as [_ Hin]. rewrite String.eqb_refl in Hin.
      discriminate. }
  split; [apply get_remove_same|].
  split; [intros k Hk; apply get_remove_other; exact Hk|].
  split; [apply keys_remove|].
  split.
  { intros m. simpl. rewrite filter_In, untouched_spec. reflexivity. }
  split; [reflexivity|].
  intros k Hk. apply get_assign_other. exact Hk.
Qed.

End DeleteNode.


(** ** Loops over the entries of a context *)

Section Loops.

Context {A B : Type}.

Lemma forEach_context (l : list B) (callback : Loop A -> B -> Loop A)
  (s : Loop A) :
  (forall s e, loop_context (callback s e) = loop_context s) ->
  loop_context (forEach l callback s) = loop_context s.
Proof.
  intros H. unfold forEach. revert s.
  induction l as [|e l IH]; intros s; simpl; [reflexivity|].
  rewrite IH. apply H.
Qed.

(** A callback that only pushes makes the loop append what it pushes for
    each entry, in the order of the entries. *)
Lemma forEach_pushes (l : list B) (callback : Loop A -> B -> Loop A)
  (pushed : ContextData -> B -> list A) (s : Loop A) :
  (forall s e,
      callback s e
      = mkLoop (loop_context s) (loop_out s ++ pushed (loop_context s) e)) ->
  forEach l callback s
  = mkLoop (loop_context s)
      (loop_out s ++ flat_map (pushed (loop_context s)) l).
Proof.
  intros H. unfold forEach. revert s.
  induction l as [|e l IH]; intros s; simpl.
  - rewrite app_nil_r. destruct s; reflexivity.
  - rewrite IH, H. simpl. rewrite <- app_assoc. reflexivity.
Qed.

End Loops.

Lemma push_context {A : Type} (a : A) (s : Loop A) :
  loop_context (push a s) = loop_context s.
Proof. reflexivity. Qed.

(** ** Truthiness of what the generators build *)

Lemma truthy_cons (c : ascii) (s : string) : JS.truthy (String c s) = true.
Proof. reflexivity. Qed.

Lemma truthy_append_r (a : string) (c : ascii) (b : string) :
  JS.truthy (a +++ String c b) = true.
Proof. destruct a; reflexivity. Qed.

Lemma truthy_join_cons (sep a : string) (r : list string) :
  JS.truthy a = true -> JS.truthy (JS.join sep (a :: r)) = true.
Proof. destruct a; [discriminate|]. destruct r; reflexivity. Qed.

Lemma orElse_truthy (a b : string) : JS.truthy a = true -> JS.orElse a b = a.
Proof. unfold JS.orElse. intros ->. reflexivity. Qed.

(** ** The generators leave the context alone *)

Lemma passes_context (context : ContextData) (options : CodeGenOptions)
  (now : string) :
  loop_context (TypeScript.passes context options now) = context.
Proof.
  unfold TypeScript.passes.
  repeat (rewrite forEach_context;
          [| intros s e;
             unfold TypeScript.enumPass, TypeScript.valuePass,
               TypeScript.entityPass, TypeScript.aggregatePass;
             destruct (data_node (snd e)); reflexivity ]).
  reflexivity.
Qed.

Lemma java_callback_context (options : CodeGenOptions)
  (s : Loop GeneratedFile) (e : string * NodeData) :
  loop_context (Java.callback options s e) = loop_context s.
Proof.
  unfold Java.callback.
  destruct (Java.render (loop_context s) options (data_node (snd e)))
    as [c f].
  destruct (JS.truthy c && JS.truthy f); reflexivity.
Qed.

Lemma csharp_callback_context (options : CodeGenOptions)
  (s : Loop GeneratedFile) (e : string * NodeData) :
  loop_context (CSharp.callback options s e) = loop_context s.
Proof.
  unfold CSharp.callback.
  destruct (CSharp.render (loop_context s) options (data_node (snd e)))
    as [c f].
  destruct (JS.truthy c && JS.truthy f); reflexivity.
Qed.

Lemma generateTypeScript_context (context : ContextData)
  (options : CodeGenOptions) (now : string) :
  contextAfter (TypeScript.generateTypeScript context options now) = context.
Proof. apply passes_context. Qed.

Lemma generateJava_context (context : ContextData)
  (options : CodeGenOptions) :
  contextAfter (Java.generateJava context options) = context.
Proof.
  unfold Java.generateJava, contextAfter. simpl.
  rewrite forEach_context; [reflexivity|].
  apply java_callback_context.
Qed.

Lemma generateCSharp_context (context : ContextData)
  (options : CodeGenOptions) :
  contextAfter (CSharp.generateCSharp context options) = context.
Proof.
  unfold CSharp.generateCSharp, contextAfter. simpl.
  rewrite forEach_context; [reflexivity|].
  apply csharp_callback_context.
Qed.


(** ** What the loops of the generators push *)

Lemma Kind_eqb_spec (a b : Kind) : Kind_eqb a b = true <-> a = b.
Proof. destruct a, b; simpl; split; intros H; congruence. Qed.

Lemma flat_map_filter_ext {A B : Type} (p : A -> bool) (f g : A -> list B)
  (l : list A) :
  (forall a, p a = true -> f a = g a) ->
  flat_map f (filter p l) = flat_map g (filter p l).
Proof.
  intros H. induction l as [|a l IH]; simpl; [reflexivity|].
  destruct (p a) eqn:E; simpl; [|exact IH].
  rewrite IH, (H a E). reflexivity.
Qed.

(** [lines], when the four passes are done: the header, then the enums,
    the value objects, the entities and the aggregates. *)
Lemma passes_out (context : ContextData) (options : CodeGenOptions)
  (now : string) :
  loop_out (TypeScript.passes context options now)
  = TypeScript.fileHeader context options now
    ++ pushedBy context options KEnum
    ++ pushedBy context options KValue
    ++ pushedBy context options KEntity
    ++ pushedBy context options KAggregate.
Proof.
  unfold TypeScript.passes.
  rewrite (forEach_pushes _ (TypeScript.enumPass options)
             (fun _ e => match data_node (snd e) with
                         | Enum n => [TypeScript.generateEnum n options; ""]
                         | _ => []
                         end));
    [| intros s e; unfold TypeScript.enumPass;
       destruct (data_node (snd e)); unfold push; simpl;
       rewrite <- ?app_assoc, ?app_nil_r; destruct s; reflexivity ].
  rewrite (forEach_pushes _ (TypeScript.valuePass options)
             (fun _ e => match data_node (snd e) with
                         | Value n =>
                             [TypeScript.generateValueObject n options; ""]
                         | _ => []
                         end));
    [| intros s e; unfold TypeScript.valuePass;
       destruct (data_node (snd e)); unfold push; simpl;
       rewrite <- ?app_assoc, ?app_nil_r; destruct s; reflexivity ].
  rewrite (forEach_pushes _ (TypeScript.entityPass options)
             (fun c e => match data_node (snd e) with
                         | Entity n =>
                             [TypeScript.generateEntity n (morphisms c)
                                (nodes c) options; ""]
                         | _ => []
                         end));
    [| intros s e; unfold TypeScript.entityPass;
       destruct (data_node (snd e)); unfold push; simpl;
       rewrite <- ?app_assoc, ?app_nil_r; destruct s; reflexivity ].
  rewrite (forEach_pushes _ (TypeScript.aggregatePass options)
             (fun c e => match data_node (snd e) with
                         | Aggregate n =>
                             [TypeScript.generateAggregate n (nodes c)
                                options; ""]
                         | _ => []
                         end));
    [| intros s e; unfold TypeScript.aggregatePass;
       destruct (data_node (snd e)); unfold push; simpl;
       rewrite <- ?app_assoc, ?app_nil_r; destruct s; reflexivity ].
  simpl. rewrite <- !app_assoc. unfold pushedBy.
  f_equal. f_equal; [|f_equal; [|f_equal]];
    apply flat_map_filter_ext; intros [k d] H; unfold hasKind in H;
    apply Kind_eqb_spec in H; simpl in *;
    destruct (data_node d); simpl in H; try discriminate; reflexivity.
Qed.

Lemma java_render_truthy (context : ContextData) (options : CodeGenOptions)
  (n : DomainNode) :
  JS.truthy (fst (Java.render context options n))
  && JS.truthy (snd (Java.render context options n)) = true.
Proof.
  apply andb_true_intro.
  destruct n; unfold Java.render; cbn [fst snd];
    (split; [|apply truthy_append_r]);
    unfold Java.generateEntity, Java.generateEntityLines,
      Java.generateValueObject, Java.generateValueObjectLines,
      Java.valueHeadLines, Java.generateEnum, Java.generateEnumLines,
      Java.generateAggregate, Java.generateAggregateLines,
      Java.aggregateHeadLines;
    cbn [app]; apply truthy_join_cons; reflexivity.
Qed.

Lemma csharp_render_truthy (context : ContextData) (options : CodeGenOptions)
  (n : DomainNode) :
  JS.truthy (fst (CSharp.render context options n))
  && JS.truthy (snd (CSharp.render context options n)) = true.
Proof.
  apply andb_true_intro.
  destruct n; unfold CSharp.render; cbn [fst snd];
    (split; [|apply truthy_append_r]);
    unfold CSharp.generateEntity, CSharp.generateEntityLines,
      CSharp.generateValueObject, CSharp.generateValueObjectLines,
      CSharp.generateEnum, CSharp.generateEnumLines,
      CSharp.generateAggregate, CSharp.generateAggregateLines,
      CSharp.aggregateHeadLines;
    cbn [app]; apply truthy_join_cons; reflexivity.
Qed.

Lemma flat_map_singleton {A B : Type} (f : A -> B) (l : list A) :
  flat_map (fun a => [f a]) l = map f l.
Proof.
  induction l as [|a l IH]; simpl; [reflexivity|].
  rewrite IH. reflexivity.
Qed.

(** Every node makes a file: the content and the file name the [switch]
    yields are never empty. *)
Lemma generateJava_files (context : ContextData) (options : CodeGenOptions) :
  result (Java.generateJava context options)
  = map (javaFile context options) (nodes context).
Proof.
  unfold Java.generateJava, result. simpl.
  rewrite (forEach_pushes _ (Java.callback options)
             (fun c e => [javaFile c options e])).
  - simpl. f_equal. apply flat_map_singleton.
  - intros s e. unfold Java.callback, javaFile.
    pose proof (java_render_truthy (loop_context s) options
                  (data_node (snd e))) as H.
    destruct (Java.render (loop_context s) options (data_node (snd e)))
      as [c f].
    simpl in *. rewrite H. reflexivity.
Qed.

Lemma generateCSharp_files (context : ContextData)
  (options : CodeGenOptions) :
  result (CSharp.generateCSharp context options)
  = map (csharpFile context options) (nodes context).
Proof.
  unfold CSharp.generateCSharp, result. simpl.
  rewrite (forEach_pushes _ (CSharp.callback options)
             (fun c e => [csharpFile c options e])).
  - simpl. f_equal. apply flat_map_singleton.
  - intros s e. unfold CSharp.callback, csharpFile.
    pose proof (csharp_render_truthy (loop_context s) options
                  (data_node (snd e))) as H.
    destruct (CSharp.render (loop_context s) options (data_node (snd e)))
      as [c f].
    simpl in *. rewrite H. reflexivity.
Qed.

(** ** Order in a list *)

Section Order.

Context {A B : Type}.

Lemma Precedes_map (f : A -> B) (a b : A) (l : list A) :
  Precedes a b l -> Precedes (f a) (f b) (map f l).
Proof.
  intros (l1 & l2 & l3 & ->).
  exists (map f l1), (map f l2), (map f l3).
  rewrite map_app. simpl. rewrite map_app. reflexivity.
Qed.

Lemma Precedes_filter (p : A -> bool) (a b : A) (l : list A) :
  p a = true -> p b = true -> Precedes a b l -> Precedes a b (filter p l).
Proof.
  intros Ha Hb (l1 & l2 & l3 & ->).
  exists (filter p l1), (filter p l2), (filter p l3).
  rewrite filter_app. simpl. rewrite Ha, filter_app. simpl. rewrite Hb.
  reflexivity.
Qed.

Lemma Precedes_pairs (g : A -> B) (x : B) (a b : A) (l : list A) :
  Precedes a b l ->
  Precedes (g a) (g b) (flat_map (fun e => [g e; x]) l).
Proof.
  intros (l1 & l2 & l3 & ->).
  exists (flat_map (fun e => [g e; x]) l1),
    (x :: flat_map (fun e => [g e; x]) l2),
    (x :: flat_map (fun e => [g e; x]) l3).
  rewrite flat_map_app. simpl. rewrite flat_map_app. reflexivity.
Qed.

Lemma In_pairs (g : A -> B) (x : B) (a : A) (l : list A) :
  In a l -> In (g a) (flat_map (fun e => [g e; x]) l).
Proof.
  intros H. apply in_flat_map. exists a. split; [exact H|]. left. reflexivity.
Qed.

Lemma Precedes_app_l (a b : A) (l r : list A) :
  Precedes a b l -> Precedes a b (l ++ r).
Proof.
  intros (l1 & l2 & l3 & ->). exists l1, l2, (l3 ++ r).
  repeat (rewrite <- app_assoc; simpl). reflexivity.
Qed.

Lemma Precedes_app_r (a b : A) (l r : list A) :
  Precedes a b r -> Precedes a b (l ++ r).
Proof.
  intros (l1 & l2 & l3 & ->). exists (l ++ l1), l2, l3.
  rewrite <- app_assoc. reflexivity.
Qed.

Lemma Precedes_across (a b : A) (l r : list A) :
  In a l -> In b r -> Precedes a b (l ++ r).
Proof.
  intros Ha Hb.
  apply in_split in Ha. destruct Ha as (l1 & l2 & ->).
  apply in_split in Hb. destruct Hb as (r1 & r2 & ->).
  exists l1, (l2 ++ r1), r2.
  repeat (rewrite <- app_assoc; simpl). reflexivity.
Qed.

Lemma Precedes_In (a b : A) (l : list A) :
  Precedes a b l -> In a l /\ In b l.
Proof.
  intros (l1 & l2 & l3 & ->). split.
  - apply in_or_app. right. left. reflexivity.
  - apply in_or_app. right. right. apply in_or_app. right. left.
    reflexivity.
Qed.

End Order.

Lemma precedesb_complete (a b : string) (l : list string) :
  Precedes a b l -> precedesb a b l = true.
Proof.
  intros (l1 & l2 & l3 & ->).
  induction l1 as [|x l1 IH]; simpl.
  - rewrite String.eqb_refl. simpl.
    apply orb_true_iff. left.
    apply existsb_exists. exists b. split; [|apply String.eqb_refl].
    apply in_or_app. right. left. reflexivity.
  - rewrite IH. apply orb_true_r.
Qed.

(** ** C2: the order of the generated items *)

Lemma pushedBy_order (context : ContextData) (options : CodeGenOptions)
  (a b : string * NodeData) :
  Precedes a b (nodes context) ->
  kind (data_node (snd a)) = kind (data_node (snd b)) ->
  Precedes (TypeScript.item context options (data_node (snd a)))
    (TypeScript.item context options (data_node (snd b)))
    (pushedBy context options (kind (data_node (snd a)))).
Proof.
  intros H E. unfold pushedBy.
  apply (Precedes_pairs
           (fun e => TypeScript.item context options (data_node (snd e)))).
  apply Precedes_filter; [| |exact H]; unfold hasKind.
  - apply Kind_eqb_spec. reflexivity.
  - apply Kind_eqb_spec. symmetry. exact E.
Qed.

Lemma pushedBy_In (context : ContextData) (options : CodeGenOptions)
  (a : string * NodeData) :
  In a (nodes context) ->
  In (TypeScript.item context options (data_node (snd a)))
    (pushedBy context options (kind (data_node (snd a)))).
Proof.
  intros H. unfold pushedBy.
  apply (In_pairs
           (fun e => TypeScript.item context options (data_node (snd e)))).
  apply filter_In. split; [exact H|].
  unfold hasKind. apply Kind_eqb_spec. reflexivity.
Qed.

Lemma itemsOf_same_kind (context : ContextData) (options : CodeGenOptions)
  (a b : string * NodeData) :
  Precedes a b (nodes context) ->
  kind (data_node (snd a)) = kind (data_node (snd b)) ->
  Precedes (TypeScript.item context options (data_node (snd a)))
    (TypeScript.item context options (data_node (snd b)))
    (itemsOf context options).
Proof.
  intros H E. pose proof (pushedBy_order context options a b H E) as P.
  unfold itemsOf.
  destruct (kind (data_node (snd a))).
  - apply Precedes_app_r, Precedes_app_r, Precedes_app_l. exact P.
  - apply Precedes_app_r, Precedes_app_l. exact P.
  - apply Precedes_app_l. exact P.
  - apply Precedes_app_r, Precedes_app_r, Precedes_app_r. exact P.
Qed.

Ltac find_in :=
  first [ assumption
        | apply in_or_app; left; assumption
        | apply in_or_app; right; find_in ].

Ltac find_across :=
  first [ apply Precedes_across; [assumption | find_in]
        | apply Precedes_app_r; find_across ].

Lemma itemsOf_by_rank (context : ContextData) (options : CodeGenOptions)
  (a b : string * NodeData) :
  In a (nodes context) -> In b (nodes context) ->
  rank (kind (data_node (snd a))) < rank (kind (data_node (snd b))) ->
  Precedes (TypeScript.item context options (data_node (snd a)))
    (TypeScript.item context options (data_node (snd b)))
    (itemsOf context options).
Proof.
  intros Ha Hb R.
  pose proof (pushedBy_In context options a Ha) as Pa.
  pose proof (pushedBy_In context options b Hb) as Pb.
  unfold itemsOf.
  destruct (kind (data_node (snd a))), (kind (data_node (snd b)));
    simpl in R; try lia; find_across.
Qed.

(** C2, as stated, fails for the TypeScript generator: in [shop] the
    entity [Customer] is declared before the enum [Status], and in the
    lines of the generated file the code of [Customer] does not come before
    the code of [Status]. *)
Lemma typescript_puts_the_enum_first :
  Precedes ("n1", at0 customerNode) ("n2", at0 statusNode) (nodes shop)
  /\ ~ Precedes
         (TypeScript.item shop (defaultOptions typescript None) customerNode)
         (TypeScript.item shop (defaultOptions typescript None) statusNode)
         (loop_out (TypeScript.passes shop (defaultOptions typescript None)
                      noon)).
Proof.
  split.
  - exists [], [], []. reflexivity.
  - intros H. apply precedesb_complete in H. vm_compute in H.
    discriminate H.
Qed.

(** C2, amended.  The Java and the C# generator return one file for each
    node, in the order of the entries of the node map: the file of a node
    declared before another comes before the file of the other.  The
    TypeScript generator orders the lines of its file by kind first, enums,
    then value objects, then entities, then aggregates: of two nodes of one
    kind the code of the one declared first comes first, and of two nodes
    of different kinds the code of the one whose kind comes first, whatever
    the order of their declarations. *)
Theorem generated_items_order
  (context : ContextData) (options : CodeGenOptions) (now : string)
  (a b : string * NodeData) :
  (Precedes a b (nodes context) ->
   Precedes (javaFile context options a) (javaFile context options b)
     (result (Java.generateJava context options))
   /\ Precedes (csharpFile context options a) (csharpFile context options b)
        (result (CSharp.generateCSharp context options))
   /\ (kind (data_node (snd a)) = kind (data_node (snd b)) ->
       Precedes (TypeScript.item context options (data_node (snd a)))
         (TypeScript.item context options (data_node (snd b)))
         (loop_out (TypeScript.passes context options now))))
  /\ (In a (nodes context) -> In b (nodes context) ->
      rank (kind (data_node (snd a))) < rank (kind (data_node (snd b))) ->
      Precedes (TypeScript.item context options (data_node (snd a)))
        (TypeScript.item context options (data_node (snd b)))
        (loop_out (TypeScript.passes context options now))).
Proof.
  split.
  - intros H. split; [|split].
    + rewrite generateJava_files. apply Precedes_map. exact H.
    + rewrite generateCSharp_files. apply Precedes_map. exact H.
    + intros E. rewrite passes_out. apply Precedes_app_r.
      apply itemsOf_same_kind; assumption.
  - intros Ha Hb R. rewrite passes_out. apply Precedes_app_r.
    apply itemsOf_by_rank; assumption.
Qed.

(** C2 at [shop]: the Java file of [Customer] comes before the file of
    [Status], and in the TypeScript lines the code of [Status] comes before
    the code of [Customer]. *)
Lemma generated_items_order_shop :
  Precedes ("n1", at0 customerNode) ("n2", at0 statusNode) (nodes shop)
  /\ Precedes (javaFile shop bare ("n1", at0 customerNode))
       (javaFile shop bare ("n2", at0 statusNode))
       (result (Java.generateJava shop bare))
  /\ Precedes (TypeScript.item shop bare statusNode)
       (TypeScript.item shop bare customerNode)
       (loop_out (TypeScript.passes shop bare noon)).
Proof.
  assert (P : Precedes ("n1", at0 customerNode) ("n2", at0 statusNode)
                (nodes shop)) by (exists [], [], []; reflexivity).
  split; [exact P|]. split.
  - apply (generated_items_order shop bare noon
             ("n1", at0 customerNode) ("n2", at0 statusNode)).
    exact P.
  - apply (generated_items_order shop bare noon
             ("n2", at0 statusNode) ("n1", at0 customerNode)).
    + simpl. right. left. reflexivity.
    + simpl. left. reflexivity.
    + simpl. lia.
Defined.

(** ** C1: what the output depends on *)

(** The TypeScript file with the default options carries the reading of
    the clock. *)
Example shop_typescript_default :
  map content (result (generateCode shop typescript None noon))
  = [ JS.join JS.nl
        [ "/**";
          " * Generated by SketchDDD";
          " * Context: Shop";
          " * Generated at: 2024-01-01T12:00:00.000Z";
          " */";
          "";
          "/**";
          " * Enum: Status";
          " */";
          "export enum Status {";
          "  Open = 'Open',";
          "  Closed = 'Closed'";
          "}";
          "";
          "/**";
          " * Entity: Customer";
          " * An entity with a unique identity";
          " */";
          "export interface Customer {";
          "  readonly id: string;";
          "}";
          "";
          "export class CustomerImpl implements Customer {";
          "  readonly id: string;";
          "";
          "  constructor(data: Omit<Customer, 'id'> & { id?: string }) {";
          "    this.id = data.id ?? crypto.randomUUID();";
          "  }";
          "}" ] ].
Proof. vm_compute. reflexivity. Qed.

(** C1, as stated, fails: two runs of the TypeScript generator on [shop]
    with the default options, a second apart, differ in the content of
    the file. *)
Lemma typescript_default_output_differs_with_the_clock :
  map content (result (generateCode shop typescript None noon))
  <> map content (result (generateCode shop typescript None noonAndOne)).
Proof. vm_compute. discriminate. Qed.

Lemma generateTypeScript_without_comments (context : ContextData)
  (options : CodeGenOptions) (now1 now2 : string) :
  includeComments options = false ->
  TypeScript.generateTypeScript context options now1
  = TypeScript.generateTypeScript context options now2.
Proof.
  intros H. unfold TypeScript.generateTypeScript, TypeScript.passes,
    TypeScript.fileHeader.
  rewrite H. reflexivity.
Qed.

(** C1, amended.  Generating twice from the same context with the same
    language and options gives the same files whatever the two readings of
    the clock, for Java, for C#, and for TypeScript when [includeComments]
    is off.  With [includeComments] on, which is the default, the
    TypeScript file depends on the clock, and on it through the header
    only: its content is the trimmed join of the header, which holds the
    reading, and of the lines of the items, which do not depend on it. *)
Theorem generateCode_twice
  (context : ContextData) (lang : TargetLanguage)
  (partial : option PartialOptions) (options : CodeGenOptions)
  (now1 now2 : string) :
  ((lang = typescript ->
    includeComments (defaultOptions lang partial) = false) ->
   generateCode context lang partial now1
   = generateCode context lang partial now2)
  /\ result (TypeScript.generateTypeScript context options now1)
     = {| filename := JS.removeWhiteSpace (context_name context) +++ ".ts";
          content :=
            JS.trim (JS.join JS.nl
                       (TypeScript.fileHeader context options now1
                        ++ itemsOf context options));
          file_language := typescript |}.
Proof.
  split.
  - intros H. unfold generateCode. destruct lang; [|reflexivity..].
    rewrite (generateTypeScript_without_comments context _ now1 now2);
      [reflexivity|].
    apply H. reflexivity.
  - unfold TypeScript.generateTypeScript, result. cbn [fst].
    rewrite passes_context, passes_out. reflexivity.
Qed.

(** C1 at [shop], for TypeScript without comments. *)
Lemma generateCode_twice_shop :
  (typescript = typescript ->
   includeComments (defaultOptions typescript (Some quiet)) = false)
  /\ generateCode shop typescript (Some quiet) noon
     = generateCode shop typescript (Some quiet) noonAndOne.
Proof.
  split.
  - intros _. reflexivity.
  - apply (generateCode_twice shop typescript (Some quiet) bare noon
             noonAndOne).
    intros _. reflexivity.
Defined.

(** ** Arrays mapped with the index *)

Section Mapi.

Context {A B : Type}.

Lemma mapiFrom_length (k : nat) (f : A -> nat -> B) (l : list A) :
  length (JS.mapiFrom k f l) = length l.
Proof.
  revert k. induction l as [|a l IH]; intros k; simpl; [reflexivity|].
  rewrite IH. reflexivity.
Qed.

Lemma mapiFrom_nth (k : nat) (f : A -> nat -> B) (l : list A) (i : nat)
  (a : A) :
  nth_error l i = Some a ->
  nth_error (JS.mapiFrom k f l) i = Some (f a (k + i)).
Proof.
  revert k i. induction l as [|x l IH]; intros k i H.
  - destruct i; discriminate H.
  - destruct i as [|i]; simpl in *.
    + injection H as ->. rewrite Nat.add_0_r. reflexivity.
    + rewrite (IH (S k) i H). f_equal. f_equal. lia.
Qed.

Lemma mapiFrom_In (k : nat) (f : A -> nat -> B) (l : list A) (b : B) :
  In b (JS.mapiFrom k f l) -> exists a i, In a l /\ b = f a i.
Proof.
  revert k. induction l as [|x l IH]; intros k H; simpl in H; [contradiction|].
  destruct H as [H|H].
  - exists x, k. split; [left; reflexivity|]. symmetry. exact H.
  - destruct (IH _ H) as (a & i & Ha & E).
    exists a, i. split; [right; exact Ha|exact E].
Qed.

Lemma mapiFrom_ext (k : nat) (f g : A -> nat -> B) (l : list A) :
  (forall a i, In a l -> f a i = g a i) ->
  JS.mapiFrom k f l = JS.mapiFrom k g l.
Proof.
  revert k. induction l as [|x l IH]; intros k H; simpl; [reflexivity|].
  rewrite (H x k), IH.
  - reflexivity.
  - intros a i Ha. apply H. right. exact Ha.
  - left. reflexivity.
Qed.

Lemma mapiFrom_map {C : Type} (k : nat) (f : A -> nat -> B) (h : C -> A)
  (l : list C) :
  JS.mapiFrom k f (map h l) = JS.mapiFrom k (fun c i => f (h c) i) l.
Proof.
  revert k. induction l as [|x l IH]; intros k; simpl; [reflexivity|].
  rewrite IH. reflexivity.
Qed.

Lemma mapi_length (f : A -> nat -> B) (l : list A) :
  length (JS.mapi f l) = length l.
Proof. apply mapiFrom_length. Qed.

Lemma mapi_nth (f : A -> nat -> B) (l : list A) (i : nat) (a : A) :
  nth_error l i = Some a -> nth_error (JS.mapi f l) i = Some (f a i).
Proof. intros H. apply (mapiFrom_nth 0 f l i a H). Qed.

Lemma mapi_In (f : A -> nat -> B) (l : list A) (b : B) :
  In b (JS.mapi f l) -> exists a i, In a l /\ b = f a i.
Proof. apply mapiFrom_In. Qed.

End Mapi.

(** ** C4: enums in TypeScript *)

Lemma truthy_spec (s : string) : JS.truthy s = true <-> s <> "".
Proof.
  unfold JS.truthy. rewrite negb_true_iff. apply String.eqb_neq.
Qed.

Lemma truthyOpt_spec (v : EnumVariant) :
  JS.truthyOpt (variant_payload v) = true <-> carriesPayload v.
Proof.
  unfold carriesPayload, JS.truthyOpt.
  destruct (variant_payload v) as [p|]; split.
  - intros H. exists p. split; [reflexivity|]. apply truthy_spec. exact H.
  - intros (q & E & N). injection E as <-. apply truthy_spec. exact N.
  - discriminate.
  - intros (q & E & _). discriminate E.
Qed.

Lemma hasPayloads_spec (node : EnumNode) :
  TypeScript.hasPayloads node = true
  <-> exists v, In v (enum_variants node) /\ carriesPayload v.
Proof.
  unfold TypeScript.hasPayloads. rewrite existsb_exists.
  split; intros (v & H & P); exists v; (split; [exact H|]);
    apply truthyOpt_spec; exact P.
Qed.

Lemma hasPayloads_none (node : EnumNode) :
  TypeScript.hasPayloads node = false
  <-> forall v, In v (enum_variants node) -> ~ carriesPayload v.
Proof.
  split.
  - intros H v Hv P.
    assert (T : TypeScript.hasPayloads node = true)
      by (apply hasPayloads_spec; exists v; split; assumption).
    congruence.
  - intros H. destruct (TypeScript.hasPayloads node) eqn:E; [|reflexivity].
    apply hasPayloads_spec in E. destruct E as (v & Hv & P).
    destruct (H v Hv P).
Qed.

Lemma unionCase_with_payload (n : nat) (v : EnumVariant) (i : nat)
  (p : string) :
  variant_payload v = Some p -> p <> "" ->
  TypeScript.unionCase n v i
  = "  | { type: '" +++ variant_name v +++ "'; value: "
    +++ TypeScript.mapTypeToTS p +++ " }"
    +++ (if i =? n - 1 then ";" else "").
Proof.
  intros E N. unfold TypeScript.unionCase. rewrite E.
  apply truthy_spec in N. rewrite N. reflexivity.
Qed.

Lemma unionCase_without_payload (n : nat) (v : EnumVariant) (i : nat) :
  ~ carriesPayload v ->
  TypeScript.unionCase n v i
  = "  | { type: '" +++ variant_name v +++ "' }"
    +++ (if i =? n - 1 then ";" else "").
Proof.
  intros N. unfold TypeScript.unionCase.
  destruct (variant_payload v) as [p|] eqn:E; [|reflexivity].
  destruct (JS.truthy p) eqn:T; [|reflexivity].
  destruct N. exists p. split; [exact E|]. apply truthy_spec. exact T.
Qed.

Lemma enumCommentLines_neither (node : EnumNode) (options : CodeGenOptions)
  (l : string) :
  In l (TypeScript.enumCommentLines node options) ->
  l <> "export type " +++ enum_name node +++ " ="
  /\ l <> "export enum " +++ enum_name node +++ " {".
Proof.
  unfold TypeScript.enumCommentLines.
  destruct (includeComments options); simpl; [|contradiction].
  intros [<-|[<-|[<-|[]]]]; split; discriminate.
Qed.


(** ** C3: enums in Java and in C# *)

Example shape_java :
  Java.generateEnum shape (defaultOptions java None)
  = JS.join JS.nl
      [ "package com.example.domain;";
        "";
        "/**";
        " * Enum: Shape";
        " */";
        "public enum Shape {";
        "    CIRCLE,";
        "    SQUARE;";
        "}" ].
Proof. vm_compute. reflexivity. Qed.

Example shape_csharp :
  CSharp.generateEnum shape (defaultOptions csharp None)
  = JS.join JS.nl
      [ "namespace Domain;";
        "";
        "/// <summary>";
        "/// Enum: Shape";
        "/// </summary>";
        "public enum Shape";
        "{";
        "    Circle,";
        "    Square";
        "}" ].
Proof. vm_compute. reflexivity. Qed.


Lemma java_enum_erased (node : EnumNode) (options : CodeGenOptions) :
  Java.generateEnumLines (erasePayloads node) options
  = Java.generateEnumLines node options.
Proof.
  unfold Java.generateEnumLines, erasePayloads. cbn [enum_name enum_variants].
  rewrite length_map. unfold JS.mapi. rewrite mapiFrom_map. reflexivity.
Qed.

Lemma csharp_enum_erased (node : EnumNode) (options : CodeGenOptions) :
  CSharp.generateEnumLines (erasePayloads node) options
  = CSharp.generateEnumLines node options.
Proof.
  unfold CSharp.generateEnumLines, erasePayloads.
  cbn [enum_name enum_variants].
  rewrite length_map. unfold JS.mapi. rewrite mapiFrom_map. reflexivity.
Qed.


(** ** Strings that are a concatenation *)

Lemma substring_all (s : string) : substring 0 (String.length s) s = s.
Proof. induction s as [|c s IH]; simpl; [reflexivity|]. rewrite IH. reflexivity. Qed.

(** A concatenation that is [c] cuts [c] in two. *)
Lemma append_eq_cut (a b c : string) :
  a +++ b = c ->
  exists k, k <= String.length c
            /\ a = substring 0 k c
            /\ b = substring k (String.length c - k) c.
Proof.
  revert c. induction a as [|x a IH]; intros c H; simpl in H.
  - exists 0. subst b. split; [lia|]. split.
    + destruct c; reflexivity.
    + rewrite Nat.sub_0_r. symmetry. apply substring_all.
  - destruct c as [|y c]; [discriminate H|].
    injection H as -> H. destruct (IH c H) as (k & Hk & Ea & Eb).
    exists (S k). simpl. split; [lia|]. split.
    + rewrite <- Ea. reflexivity.
    + exact Eb.
Qed.

(** Cuts a known string at each of its positions. *)
Ltac cut_cases H :=
  apply append_eq_cut in H;
  let k := fresh "k" in
  let Hk := fresh "Hk" in
  let Ea := fresh "Ea" in
  let Eb := fresh "Eb" in
  destruct H as (k & Hk & Ea & Eb);
  cbn [String.length] in Hk;
  repeat (destruct k as [|k];
          [ cbn in Ea, Eb; try discriminate Eb
          | try (exfalso; cbn in Hk; lia) ]).

Lemma String_tail (a b : ascii) (s t : string) :
  String a s = String b t -> s = t.
Proof. intros H. injection H as _ H. exact H. Qed.

(** ** C7: value objects *)

(** A member line is the identity line only for a field called [id]. *)
Lemma typescript_id_line (n opt ts : string) :
  opt = "" \/ opt = "?" ->
  "  readonly " +++ n +++ opt +++ ": " +++ ts +++ ";" = typescriptId ->
  n = "id".
Proof.
  intros Hopt H. unfold typescriptId in H. cbn in H.
  do 11 (apply String_tail in H).
  cut_cases H; destruct Hopt; subst opt; cbn in Eb; try discriminate Eb.
  exact Ea.
Qed.

Lemma java_id_line (jt n : string) :
  "    private final " +++ jt +++ " " +++ n +++ ";" = javaId -> n = "id".
Proof.
  intros H. unfold javaId in H. cbn in H.
  do 18 (apply String_tail in H).
  cut_cases H.
  apply String_tail in Eb. clear Ea Hk.
  cut_cases Eb. exact Ea.
Qed.

(** Takes a membership in the lines of a generator apart. *)
Ltac lines_cases :=
  repeat match goal with
    | H : In _ (_ ++ _) |- _ => apply in_app_or in H; destruct H as [H|H]
    | H : In _ (map _ _) |- _ =>
        apply in_map_iff in H; destruct H as (? & H & ?)
    | H : In _ (flat_map _ _) |- _ =>
        apply in_flat_map in H; destruct H as (? & ? & H)
    | H : In _ (if ?b then _ else _) |- _ => destruct b
    | H : In _ (_ :: _) |- _ => destruct H as [H|H]
    | H : In _ [] |- _ => destruct H
    end.

Lemma typescript_value_id (node : ValueNode) (options : CodeGenOptions) :
  In typescriptId (TypeScript.generateValueObjectLines node options) ->
  exists f, In f (value_fields node) /\ field_name f = "id".
Proof.
  unfold TypeScript.generateValueObjectLines, TypeScript.valueCommentLines,
    TypeScript.valueInterfaceLines, TypeScript.valueClassLines.
  intros H. lines_cases; try discriminate H.
  - match goal with F : In ?f (value_fields node) |- _ =>
      exists f; split; [exact F|] end.
    unfold TypeScript.fieldLine in H.
    apply typescript_id_line in H; [exact H|].
    destruct (field_optional _); [right|left]; reflexivity.
  - match goal with F : In ?f (value_fields node) |- _ =>
      exists f; split; [exact F|] end.
    unfold TypeScript.classFieldLine in H.
    apply (typescript_id_line _ "") in H; [exact H|].
    left. reflexivity.
Qed.

Lemma java_value_id (node : ValueNode) (options : CodeGenOptions) :
  In javaId (Java.generateValueObjectLines node options) ->
  exists f, In f (value_fields node) /\ field_name f = "id".
Proof.
  unfold Java.generateValueObjectLines, Java.valueHeadLines,
    Java.valueConstructorLines, Java.valueEqualsLines, Java.valueHashLines.
  intros H. lines_cases; try discriminate H.
  - match goal with F : In ?f (value_fields node) |- _ =>
      exists f; split; [exact F|] end.
    unfold Java.finalFieldLine in H.
    apply java_id_line in H. exact H.
  - unfold Java.getterLines in H. lines_cases; discriminate H.
Qed.

Lemma csharp_value_id (node : ValueNode) (options : CodeGenOptions) :
  ~ In csharpId (CSharp.generateValueObjectLines node options).
Proof.
  unfold CSharp.generateValueObjectLines, CSharp.valueCommentLines,
    CSharp.recordLine.
  intros H. lines_cases; discriminate H.
Qed.

(** An entity, for comparison, is given its identity in every language. *)
Lemma entity_is_given_an_identity (node : EntityNode) (ms : list Morphism)
  (ns : Nodes) (options : CodeGenOptions) :
  (generateInterfaces options = true ->
   In typescriptId (TypeScript.generateEntityLines node ms ns options))
  /\ In javaId (Java.generateEntityLines node options)
  /\ In csharpId (CSharp.generateEntityLines node options).
Proof.
  split; [|split].
  - intros H. unfold TypeScript.generateEntityLines. rewrite H.
    apply in_or_app. right. apply in_or_app. left.
    right. left. reflexivity.
  - unfold Java.generateEntityLines.
    do 2 (apply in_or_app; right). apply in_or_app. left.
    right. right. left. reflexivity.
  - unfold CSharp.generateEntityLines.
    do 2 (apply in_or_app; right). apply in_or_app. left.
    right. right. left. reflexivity.
Qed.

Lemma orElse_conjunction {A : Type} (cmp : A -> string) (l : list A) :
  (forall a, JS.truthy (cmp a) = true) ->
  JS.orElse (JS.join " && " (map cmp l)) "true" = conjunction (map cmp l).
Proof.
  intros H. destruct l as [|a l]; [reflexivity|].
  apply orElse_truthy. cbn [map]. apply truthy_join_cons. apply H.
Qed.

Lemma typescript_equalsCondition (node : ValueNode) :
  TypeScript.equalsCondition node
  = conjunction
      (map (fun f => "this." +++ field_name f +++ " === other."
                     +++ field_name f) (value_fields node)).
Proof.
  unfold TypeScript.equalsCondition.
  apply (orElse_conjunction TypeScript.comparison). reflexivity.
Qed.

Lemma java_equalsCondition (node : ValueNode) :
  Java.equalsCondition node
  = conjunction
      (map (fun f => "Objects.equals(" +++ field_name f +++ ", that."
                     +++ field_name f +++ ")") (value_fields node)).
Proof.
  unfold Java.equalsCondition.
  apply (orElse_conjunction Java.comparison). reflexivity.
Qed.



(** ** C8: aggregates *)

Section Blocks.

Context {A : Type}.

Lemma Within_app_l (block l r : list A) :
  Within block l -> Within block (l ++ r).
Proof.
  intros (b & a & ->). exists b, (a ++ r).
  rewrite <- !app_assoc. reflexivity.
Qed.

Lemma Within_app_r (block l r : list A) :
  Within block r -> Within block (l ++ r).
Proof.
  intros (b & a & ->). exists (l ++ b), a.
  rewrite <- !app_assoc. reflexivity.
Qed.

Lemma Within_refl (block : list A) : Within block block.
Proof. exists [], []. rewrite app_nil_r. reflexivity. Qed.

Lemma Within_flat_map {B : Type} (f : B -> list A) (block : list A)
  (b : B) (l : list B) :
  In b l -> Within block (f b) -> Within block (flat_map f l).
Proof.
  intros H W. apply in_split in H. destruct H as (l1 & l2 & ->).
  rewrite flat_map_app. apply Within_app_r. simpl.
  apply Within_app_l. exact W.
Qed.

Lemma Within_In (a : A) (l : list A) : Within [a] l -> In a l.
Proof.
  intros (b & r & ->). apply in_or_app. right. left. reflexivity.
Qed.

End Blocks.

(** With every member id resolved, a loop over the member ids is a loop
    over the member nodes. *)
Lemma java_forMembers (node : AggregateNode) (ns : Nodes)
  (members : list DomainNode) (f : DomainNode -> list string) :
  Forall2 (fun id m => nodeAt ns id = Some m) (memberIds node) members ->
  Java.forMembers node ns f = flat_map f members.
Proof.
  unfold Java.forMembers. intros H.
  induction H as [|id m ids ms E _ IH]; simpl; [reflexivity|].
  rewrite E, IH. reflexivity.
Qed.

Lemma csharp_forMembers (node : AggregateNode) (ns : Nodes)
  (members : list DomainNode) (f : DomainNode -> list string) :
  Forall2 (fun id m => nodeAt ns id = Some m) (memberIds node) members ->
  CSharp.forMembers node ns f = flat_map f members.
Proof.
  unfold CSharp.forMembers. intros H.
  induction H as [|id m ids ms E _ IH]; simpl; [reflexivity|].
  rewrite E, IH. reflexivity.
Qed.

Lemma typescript_memberNodes (node : AggregateNode) (ns : Nodes)
  (members : list DomainNode) :
  Forall2 (fun id m => nodeAt ns id = Some m) (memberIds node) members ->
  TypeScript.memberNodes node ns = members.
Proof.
  unfold TypeScript.memberNodes. intros H.
  induction H as [|id m ids ms E _ IH]; simpl; [reflexivity|].
  rewrite E, IH. reflexivity.
Qed.

Example orders_typescript :
  TypeScript.generateAggregate orderAggregate (nodes orders)
    (defaultOptions typescript None)
  = JS.join JS.nl
      [ "/**";
        " * Aggregate: Order";
        " * Root Entity: Order";
        " */";
        "export interface OrderAggregate {";
        "  root: Order;";
        "  lineitems: LineItem[];";
        "}" ].
Proof. vm_compute. reflexivity. Qed.

Example orders_java :
  Java.generateAggregate orderAggregate (nodes orders)
    (defaultOptions java None)
  = JS.join JS.nl
      [ "package com.example.domain;";
        "";
        "import java.util.List;";
        "import java.util.ArrayList;";
        "";
        "/**";
        " * Aggregate: Order";
        " * Root Entity: Order";
        " */";
        "public class OrderAggregate {";
        "";
        "    private final Order root;";
        "    private final List<LineItem> lineitems;";
        "";
        "    public OrderAggregate(Order root) {";
        "        this.root = root;";
        "        this.lineitems = new ArrayList<>();";
        "    }";
        "";
        "    public Order getRoot() {";
        "        return root;";
        "    }";
        "";
        "    public List<LineItem> getLineItems() {";
        "        return new ArrayList<>(lineitems);";
        "    }";
        "";
        "    public void addLineItem(LineItem item) {";
        "        this.lineitems.add(item);";
        "    }";
        "}" ].
Proof. vm_compute. reflexivity. Qed.




(** ** C5: the nearest name and the misspelt target *)

Lemma thirtyPercent_is_the_ceiling (len : nat) :
  3 * len <= 10 * Validator.thirtyPercent len
  /\ 10 * Validator.thirtyPercent len < 3 * len + 10.
Proof.
  unfold Validator.thirtyPercent.
  pose proof (Nat.div_mod (3 * len + 9) 10 ltac:(lia)) as D.
  pose proof (Nat.mod_upper_bound (3 * len + 9) 10 ltac:(lia)) as M.
  lia.
Qed.

(** [closest] returns a candidate with its distance: the candidates before
    it are farther, those after it are not nearer. *)
Lemma closest_first (n : string) (names : list string) (c : string)
  (d : nat) :
  Validator.closest n names = Some (c, d)
  <-> d = Validator.levenshtein n c
      /\ exists l1 l2,
          names = l1 ++ c :: l2
          /\ (forall x, In x l1 -> d < Validator.levenshtein n x)
          /\ (forall x, In x l2 -> d <= Validator.levenshtein n x).
Proof.
  split.
  - revert c d. induction names as [|x names IH]; intros c d H; simpl in H;
      [discriminate H|].
    destruct (Validator.closest n names) as [[c' d']|] eqn:E.
    + destruct (IH c' d' eq_refl) as (Ed & l1 & l2 & En & H1 & H2).
      destruct (d' <? Validator.levenshtein n x) eqn:L.
      * injection H as <- <-. apply Nat.ltb_lt in L.
        split; [exact Ed|]. exists (x :: l1), l2.
        split; [rewrite En; reflexivity|]. split; [|exact H2].
        intros y [<-|Hy]; [exact L|apply H1; exact Hy].
      * injection H as <- <-. apply Nat.ltb_ge in L.
        split; [reflexivity|]. exists [], names.
        split; [reflexivity|]. split; [intros y []|].
        intros y Hy. rewrite En in Hy. apply in_app_or in Hy.
        destruct Hy as [Hy|[<-|Hy]].
        -- specialize (H1 y Hy). lia.
        -- lia.
        -- specialize (H2 y Hy). lia.
    + injection H as <- <-. split; [reflexivity|]. exists [], names.
      split; [reflexivity|]. split; [intros y []|].
      destruct names; [intros y []|simpl in E].
      destruct (Validator.closest n names) as [[c' d']|];
        [destruct (d' <? _)|]; discriminate E.
  - intros (-> & l1 & l2 & -> & H1 & H2).
    induction l1 as [|x l1 IH]; simpl.
    + destruct (Validator.closest n l2) as [[c' d']|] eqn:E; [|reflexivity].
      destruct (d' <? Validator.levenshtein n c) eqn:L; [|reflexivity].
      apply Nat.ltb_lt in L. exfalso.
      assert (In c' l2 /\ d' = Validator.levenshtein n c') as [Hin ->].
      { clear - E. revert c' d' E.
        induction l2 as [|y l2 IH]; intros c' d' E; simpl in E;
          [discriminate E|].
        destruct (Validator.closest n l2) as [[c2 d2]|].
        - destruct (d2 <? Validator.levenshtein n y).
          + injection E as <- <-. destruct (IH c2 d2 eq_refl) as [I D].
            split; [right; exact I|exact D].
          + injection E as <- <-. split; [left|]; reflexivity.
        - injection E as <- <-. split; [left|]; reflexivity. }
      specialize (H2 c' Hin). lia.
    + rewrite IH; [|intros y Hy; apply H1; right; exact Hy].
      assert (L : (Validator.levenshtein n c <? Validator.levenshtein n x)
                  = true)
        by (apply Nat.ltb_lt; apply H1; left; reflexivity).
      rewrite L. reflexivity.
Qed.

(** C5.  In the context [Commerce], with the entities [Customer] and
    [Order] and the morphism [placedBy: Order -> Custommer], validation
    gives one diagnostic and no more: an error, its code between E0001 and
    E0009, its message naming [Custommer], its suggestion [Customer].  In
    general [nearest] returns a name if and only if the name is the first
    of the names at the least Levenshtein distance and this distance is at
    most [min(3, ceil(0.3 * len(name)))]. *)
Theorem misspelt_target_is_reported_with_the_nearest_name :
  (forall c,
      exists d i,
        Validator.validate (commerce c) = [d]
        /\ issues (Validator.validation (commerce c)) = [i]
        /\ valid (Validator.validation (commerce c)) = false
        /\ error_count (Validator.validation (commerce c)) = 1
        /\ severity i = error
        /\ Validator.errorCodeIn 1 9 (code i) = true
        /\ JS.includes (message i) "Custommer" = true
        /\ suggestion i = Some "Customer"
        /\ Validator.suggestions d
           = [ {| Validator.suggestion_message := "did you mean 'Customer'?";
                  Validator.replacement := "Customer" |} ]
        /\ Validator.levenshtein "Custommer" "Customer" = 1)
  /\ (forall names n c,
         Validator.nearestIn names n 3 = Some c
         <-> exists l1 l2,
             names = l1 ++ c :: l2
             /\ (forall x, In x l1 ->
                           Validator.levenshtein n c
                           < Validator.levenshtein n x)
             /\ (forall x, In x l2 ->
                           Validator.levenshtein n c
                           <= Validator.levenshtein n x)
             /\ Validator.levenshtein n c
                <= Nat.min 3 (Validator.thirtyPercent (String.length n)))
  /\ (forall len,
         3 * len <= 10 * Validator.thirtyPercent len
         /\ 10 * Validator.thirtyPercent len < 3 * len + 10).
Proof.
  split; [|split].
  - intros c. eexists. eexists.
    split; [vm_compute; reflexivity|].
    split; [vm_compute; reflexivity|].
    repeat split; vm_compute; reflexivity.
  - intros names n c. unfold Validator.nearestIn, Validator.bound. split.
    + destruct (Validator.closest n names) as [[c' d]|] eqn:E;
        [|discriminate].
      destruct (d <=? Nat.min 3 _) eqn:L; [|discriminate].
      intros H. injection H as <-. apply Nat.leb_le in L.
      apply closest_first in E. destruct E as (-> & l1 & l2 & En & H1 & H2).
      exists l1, l2. repeat split; assumption.
    + intros (l1 & l2 & En & H1 & H2 & L).
      assert (E : Validator.closest n names
                  = Some (c, Validator.levenshtein n c)).
      { apply closest_first. split; [reflexivity|].
        exists l1, l2. repeat split; assumption. }
      rewrite E. apply Nat.leb_le in L. rewrite L. reflexivity.
  - apply thirtyPercent_is_the_ceiling.
Qed.

(** C5 at [Customer], [Order] and the name [Custommer]. *)
Lemma nearest_of_custommer :
  Validator.nearestIn [ "Customer"; "Order" ] "Custommer" 3 = Some "Customer"
  /\ exists l1 l2,
      [ "Customer"; "Order" ] = l1 ++ "Customer" :: l2
      /\ (forall x, In x l1 ->
                    Validator.levenshtein "Custommer" "Customer"
                    < Validator.levenshtein "Custommer" x)
      /\ (forall x, In x l2 ->
                    Validator.levenshtein "Custommer" "Customer"
                    <= Validator.levenshtein "Custommer" x)
      /\ Validator.levenshtein "Custommer" "Customer"
         <= Nat.min 3 (Validator.thirtyPercent (String.length "Custommer")).
Proof.
  assert (E : Validator.nearestIn [ "Customer"; "Order" ] "Custommer" 3
              = Some "Customer") by (vm_compute; reflexivity).
  split; [exact E|].
  apply (proj1 (proj1 (proj2
           misspelt_target_is_reported_with_the_nearest_name)
           [ "Customer"; "Order" ] "Custommer" "Customer")).
  exact E.
Defined.

(** * Further properties of the store *)

(** ** Undo and redo *)

Section History.

Context {V : Type}.

Lemma saveToHistory_past (s : Store.DomainState V)
  (h : Store.HistoryState V) :
  exists l,
    Store.past (Store.saveToHistory s h) = l ++ [s]
    /\ Store.future (Store.saveToHistory s h) = []
    /\ length l <= length (Store.past h)
    /\ (length (Store.past h) <= Store.MAX_HISTORY ->
        length l + 1 <= Store.MAX_HISTORY).
Proof.
  unfold Store.saveToHistory. simpl.
  destruct (Store.MAX_HISTORY <? length (Store.past h ++ [s])) eqn:E.
  - apply Nat.ltb_lt in E. rewrite length_app in E. simpl in E.
    destruct (Store.past h) as [|x r] eqn:P.
    + unfold Store.MAX_HISTORY in E. simpl in E. lia.
    + exists r. simpl. repeat split; lia.
  - apply Nat.ltb_ge in E. rewrite length_app in E. simpl in E.
    exists (Store.past h). repeat split; lia.
Qed.

Lemma undo_last (s : Store.DomainState V) (l f : list (Store.DomainState V))
  (p : Store.DomainState V) :
  Store.undo {| Store.state := s;
                Store.history := {| Store.past := l ++ [p];
                                    Store.future := f |} |}
  = {| Store.state := p;
       Store.history := {| Store.past := l; Store.future := f ++ [s] |} |}.
Proof.
  unfold Store.undo. simpl. rewrite rev_unit, rev_involutive. reflexivity.
Qed.

Lemma redo_last (s : Store.DomainState V) (l f : list (Store.DomainState V))
  (n : Store.DomainState V) :
  Store.redo {| Store.state := s;
                Store.history := {| Store.past := l;
                                    Store.future := f ++ [n] |} |}
  = {| Store.state := n;
       Store.history := {| Store.past := l ++ [s]; Store.future := f |} |}.
Proof.
  unfold Store.redo. simpl. rewrite rev_unit, rev_involutive. reflexivity.
Qed.

Lemma nonempty_last {A : Type} (l : list A) :
  (0 <? length l) = true -> exists r x, l = r ++ [x].
Proof.
  intros H. destruct (exists_last (l := l)) as (r & x & E).
  - intros ->. discriminate H.
  - exists r, x. exact E.
Qed.

(** X1.  [redo] undoes [undo] and [undo] undoes [redo], on the whole store
    and its history; with nothing to undo, or to redo, they do nothing. *)
Theorem undo_and_redo_are_inverse (w : Store.World V) :
  (Store.canUndo w = true -> Store.redo (Store.undo w) = w)
  /\ (Store.canRedo w = true -> Store.undo (Store.redo w) = w)
  /\ (Store.canUndo w = false -> Store.undo w = w)
  /\ (Store.canRedo w = false -> Store.redo w = w).
Proof.
  destruct w as [s [p f]]. unfold Store.canUndo, Store.canRedo. simpl.
  split; [|split; [|split]].
  - intros H. apply nonempty_last in H. destruct H as (r & x & ->).
    rewrite undo_last, redo_last. reflexivity.
  - intros H. apply nonempty_last in H. destruct H as (r & x & ->).
    rewrite redo_last, undo_last. reflexivity.
  - intros H. destruct p; [reflexivity|discriminate H].
  - intros H. destruct f; [reflexivity|discriminate H].
Qed.

Lemma undo_after_save (w' : Store.World V) (s : Store.DomainState V)
  (h : Store.HistoryState V) :
  Store.history w' = Store.saveToHistory s h ->
  Store.canUndo w' = true
  /\ Store.canRedo w' = false
  /\ Store.state (Store.undo w') = s.
Proof.
  intros H. destruct (saveToHistory_past s h) as (l & P & F & _).
  destruct w' as [s' [p f]]. simpl in H. rewrite <- H in P, F.
  simpl in P, F. subst p f. unfold Store.canUndo, Store.canRedo. simpl.
  rewrite length_app. simpl. split; [apply Nat.ltb_lt; lia|].
  split; [reflexivity|]. rewrite undo_last. reflexivity.
Qed.

Lemma silentActions_keep_history (contextId nodeId : string)
  (active : option string) (ids : list string) (position : Position)
  (w : Store.World V) :
  Forall (fun act : Store.World V -> Store.World V =>
            Store.history (act w) = Store.history w)
    (silentActions contextId nodeId active ids position).
Proof.
  unfold silentActions. repeat constructor.
  unfold Store.moveNode.
  destruct (JS.get (Store.contexts (Store.state w)) contextId)
    as [c|]; [|reflexivity].
  destruct (JS.get (nodes c) nodeId); reflexivity.
Qed.

(** Every action of [savingActions] saves the state it starts from. *)
Lemma savingActions_save (id contextId nodeId otherId name : string)
  (node : DomainNode) (position : Position) (morphism : Store.NewMorphism)
  (map : Store.NewContextMap) (field : Store.NewField)
  (variant : Store.NewVariant) (w : Store.World V) :
  Forall (fun act : Store.World V -> Store.World V =>
            Store.history (act w)
            = Store.saveToHistory (Store.state w) (Store.history w))
    (savingActions id contextId nodeId otherId name node position morphism
       map field variant).
Proof.
  unfold savingActions.
  repeat constructor;
    unfold Store.renameContext, Store.addNode, Store.deleteNode,
      Store.addMorphism, Store.deleteMorphism;
    destruct (JS.get (Store.contexts (Store.state w)) contextId);
    reflexivity.
Qed.



End History.


(** ** More on records in property order *)

Section MoreRecords.

Context {A : Type}.

Lemma remove_fresh (o : list (string * A)) (k : string) :
  JS.get o k = None -> JS.remove o k = o.
Proof.
  unfold JS.remove. induction o as [|[k' a] o IH]; simpl; [reflexivity|].
  destruct (k' =? k)%string; [discriminate|]. simpl.
  intros H. rewrite (IH H). reflexivity.
Qed.

Lemma remove_last (o : list (string * A)) (k : string) (v : A) :
  JS.remove (o ++ [(k, v)]) k = JS.remove o k.
Proof.
  unfold JS.remove. rewrite filter_app. simpl.
  rewrite String.eqb_refl. simpl. apply app_nil_r.
Qed.

Lemma put_fresh (o : list (string * A)) (k : string) (v : A) :
  JS.get o k = None -> Store.put o k v = o ++ [(k, v)].
Proof. unfold Store.put. intros ->. reflexivity. Qed.

Lemma get_last (o : list (string * A)) (k : string) (v : A) :
  JS.get o k = None -> JS.get (o ++ [(k, v)]) k = Some v.
Proof.
  induction o as [|[k' a] o IH]; simpl.
  - rewrite String.eqb_refl. reflexivity.
  - destruct (k' =? k)%string; [discriminate|exact IH].
Qed.

Lemma get_app_other (o : list (string * A)) (k k' : string) (v : A) :
  k' <> k -> JS.get (o ++ [(k, v)]) k' = JS.get o k'.
Proof.
  intros N. induction o as [|[k0 a] o IH]; simpl.
  - destruct (String.eqb_spec k k'); [congruence|reflexivity].
  - rewrite IH. reflexivity.
Qed.

Lemma get_put_same (o : list (string * A)) (k : string) (v : A) :
  JS.get (Store.put o k v) k = Some v.
Proof.
  unfold Store.put. destruct (JS.get o k) eqn:E.
  - eapply get_assign_same. exact E.
  - apply get_last. exact E.
Qed.

Lemma get_put_other (o : list (string * A)) (k k' : string) (v : A) :
  k' <> k -> JS.get (Store.put o k v) k' = JS.get o k'.
Proof.
  intros N. unfold Store.put. destruct (JS.get o k).
  - apply get_assign_other. exact N.
  - apply get_app_other. exact N.
Qed.

Lemma assign_assign (o : list (string * A)) (k : string) (v1 v2 : A) :
  Store.assign (Store.assign o k v1) k v2 = Store.assign o k v2.
Proof.
  induction o as [|[k' a] o IH]; simpl; [reflexivity|].
  destruct (k' =? k)%string eqn:E; simpl; rewrite E; [reflexivity|].
  rewrite IH. reflexivity.
Qed.

Lemma assign_same_value (o : list (string * A)) (k : string) (v : A) :
  JS.get o k = Some v -> Store.assign o k v = o.
Proof.
  induction o as [|[k' a] o IH]; simpl; [reflexivity|].
  destruct (k' =? k)%string.
  - intros H. injection H as ->. reflexivity.
  - intros H. rewrite (IH H). reflexivity.
Qed.

Lemma assign_missing (o : list (string * A)) (k : string) (v : A) :
  JS.get o k = None -> Store.assign o k v = o.
Proof.
  induction o as [|[k' a] o IH]; simpl; [reflexivity|].
  destruct (k' =? k)%string; [discriminate|].
  intros H. rewrite (IH H). reflexivity.
Qed.

Lemma get_assign_some (o : list (string * A)) (k a : string) (v : A) :
  (exists c, JS.get o a = Some c) ->
  exists c, JS.get (Store.assign o k v) a = Some c.
Proof.
  intros [c H]. destruct (String.eqb_spec a k) as [->|N].
  - exists v. eapply get_assign_same. exact H.
  - exists c. rewrite get_assign_other; assumption.
Qed.

Lemma get_first_key (o : list (string * A)) (k : string) :
  nth_error (JS.keys o) 0 = Some k -> exists v, JS.get o k = Some v.
Proof.
  destruct o as [|[k' v] o]; simpl; [discriminate|].
  intros H. injection H as ->. exists v. rewrite String.eqb_refl.
  reflexivity.
Qed.

Lemma first_key_of_remove (o : list (string * A)) (k a : string) :
  nth_error (JS.keys (JS.remove o k)) 0 = Some a -> a <> k.
Proof.
  intros H E. subst a. apply get_first_key in H. destruct H as [v H].
  rewrite get_remove_same in H. discriminate H.
Qed.

End MoreRecords.

Lemma filter_all {A : Type} (p : A -> bool) (l : list A) :
  Forall (fun a => p a = true) l -> filter p l = l.
Proof.
  induction 1 as [|a l H _ IH]; simpl; [reflexivity|].
  rewrite H, IH. reflexivity.
Qed.

Lemma filter_app_last {A : Type} (p : A -> bool) (l : list A) (a : A) :
  p a = false -> Forall (fun a => p a = true) l -> filter p (l ++ [a]) = l.
Proof.
  intros Ha Hl. rewrite filter_app. simpl. rewrite Ha, app_nil_r.
  apply filter_all. exact Hl.
Qed.

(** ** The active context *)

Section Active.

Context {V : Type}.

Lemma activeValid_keys (s s' : Store.DomainState V) :
  Store.activeContextId s' = Store.activeContextId s ->
  (forall a, (exists c, JS.get (Store.contexts s) a = Some c) ->
             exists c, JS.get (Store.contexts s') a = Some c) ->
  activeValid s -> activeValid s'.
Proof.
  unfold activeValid. intros -> H.
  destruct (Store.activeContextId s); [apply H|trivial].
Qed.

Ltac keeps_active Hv :=
  repeat match goal with
    | |- context [match JS.get ?o ?k with _ => _ end] =>
        destruct (JS.get o k) eqn:?
    end;
  first
    [ exact Hv
    | match type of Hv with
      | activeValid ?s => apply (activeValid_keys s)
      end;
      [ reflexivity
      | intros a Ha; simpl;
        first [ apply get_assign_some; exact Ha | exact Ha ]
      | exact Hv ] ].


End Active.


(** ** What is added can be deleted *)

Lemma ContextData_eta (c : ContextData) :
  {| context_id := context_id c; context_name := context_name c;
     nodes := nodes c; morphisms := morphisms c |} = c.
Proof. destruct c; reflexivity. Qed.

Lemma NodeData_eta (d : NodeData) :
  {| data_node := data_node d; data_position := data_position d |} = d.
Proof. destruct d; reflexivity. Qed.

Lemma first_or_none {A : Type} (l : list A) :
  (if 0 <? length l then nth_error l 0 else None) = nth_error l 0.
Proof. destruct l; reflexivity. Qed.

Section RoundTrips.

Context {V : Type}.

Lemma withContexts_same (s : Store.DomainState V) :
  Store.withContexts (Store.contexts s) s = s.
Proof. destruct s; reflexivity. Qed.

(** X5.  A context created under a new id is found under this id, empty,
    and is the active context.  Deleting it again gives back the contexts
    as they were, in their order, and makes the first of them the active
    context, or none if there is none: the context that was active before
    is not remembered. *)
Theorem createContext_then_deleteContext (id name : string)
  (w : Store.World V) :
  JS.get (Store.contexts (Store.state w)) id = None ->
  let created := Store.createContext id name w in
  let deleted := Store.deleteContext id created in
  JS.get (Store.contexts (Store.state created)) id
  = Some {| context_id := id; context_name := name;
            nodes := []; morphisms := [] |}
  /\ Store.activeContextId (Store.state created) = Some id
  /\ JS.keys (Store.contexts (Store.state created))
     = JS.keys (Store.contexts (Store.state w)) ++ [ id ]
  /\ Store.contexts (Store.state deleted) = Store.contexts (Store.state w)
  /\ Store.activeContextId (Store.state deleted)
     = nth_error (JS.keys (Store.contexts (Store.state w))) 0.
Proof.
  intros H created deleted. subst created deleted.
  unfold Store.deleteContext, Store.createContext, Store.isActive,
    Store.withContexts, Store.withActiveContextId.
  cbn [Store.state Store.history Store.contexts Store.activeContextId].
  rewrite (put_fresh _ _ _ H), remove_last, (remove_fresh _ _ H).
  rewrite String.eqb_refl, first_or_none.
  split; [apply get_last; exact H|]. split; [reflexivity|].
  split; [unfold JS.keys; rewrite map_app; reflexivity|].
  split; reflexivity.
Qed.


(** X7.  A node added under a new id, which no morphism mentions and
    which is not selected, is found under this id; deleting it again gives
    back the state as it was. *)
Theorem addNode_then_deleteNode (id contextId : string) (node : DomainNode)
  (position : Position) (context : ContextData) (w : Store.World V) :
  JS.get (Store.contexts (Store.state w)) contextId = Some context ->
  JS.get (nodes context) id = None ->
  Forall (fun m => sourceId m <> id /\ targetId m <> id)
    (morphisms context) ->
  ~ In id (Store.selectedNodeIds (Store.state w)) ->
  let added := Store.addNode id contextId node position w in
  (exists context',
      JS.get (Store.contexts (Store.state added)) contextId = Some context'
      /\ JS.get (nodes context') id
         = Some {| data_node := node; data_position := position |}
      /\ JS.keys (nodes context') = JS.keys (nodes context) ++ [ id ]
      /\ morphisms context' = morphisms context)
  /\ Store.state (Store.deleteNode contextId id added) = Store.state w.
Proof.
  intros Hc Hn Hm Hs added. subst added.
  unfold Store.addNode. rewrite Hc. split.
  - eexists. simpl. split; [eapply get_assign_same; exact Hc|].
    simpl. rewrite (put_fresh _ _ _ Hn).
    split; [apply get_last; exact Hn|].
    split; [unfold JS.keys; rewrite map_app; reflexivity|reflexivity].
  - unfold Store.deleteNode. simpl.
    rewrite (get_assign_same _ _ context _ Hc). simpl.
    rewrite assign_assign. unfold Store.withoutNode. simpl.
    rewrite (put_fresh _ _ _ Hn), remove_last, (remove_fresh _ _ Hn).
    rewrite (filter_all _ (morphisms context)).
    + rewrite ContextData_eta, (assign_same_value _ _ _ Hc).
      rewrite (filter_all _ (Store.selectedNodeIds (Store.state w))).
      * destruct (Store.state w); reflexivity.
      * apply Forall_forall. intros x Hx. apply negb_true_iff.
        apply String.eqb_neq. intros ->. apply Hs. exact Hx.
    + eapply Forall_impl; [|exact Hm]. intros m Hu.
      apply untouched_spec. exact Hu.
Qed.

(** X8.  A morphism added under a new id is the last morphism of its
    context, and deleting it again gives back the state as it was; the
    same holds of a context map. *)
Theorem addMorphism_then_deleteMorphism (id contextId : string)
  (morphism : Store.NewMorphism) (map : Store.NewContextMap)
  (context : ContextData) (w : Store.World V) :
  JS.get (Store.contexts (Store.state w)) contextId = Some context ->
  Forall (fun m => morphism_id m <> id) (morphisms context) ->
  ~ In id (Store.selectedEdgeIds (Store.state w)) ->
  Forall (fun m => map_id m <> id) (Store.contextMaps (Store.state w)) ->
  let added := Store.addMorphism id contextId morphism w in
  (exists context',
      JS.get (Store.contexts (Store.state added)) contextId = Some context'
      /\ morphisms context'
         = morphisms context
           ++ [ {| morphism_id := id;
                   sourceId := Store.new_sourceId morphism;
                   targetId := Store.new_targetId morphism;
                   morphism_name := Store.new_name morphism;
                   cardinality := Store.new_cardinality morphism |} ]
      /\ nodes context' = nodes context)
  /\ Store.state (Store.deleteMorphism contextId id added) = Store.state w
  /\ Store.state (Store.deleteContextMap id (Store.addContextMap id map w))
     = Store.state w.
Proof.
  intros Hc Hm Hs Hk added. subst added.
  unfold Store.addMorphism. rewrite Hc. split; [|split].
  - eexists. simpl. split; [eapply get_assign_same; exact Hc|].
    split; reflexivity.
  - unfold Store.deleteMorphism. simpl.
    rewrite (get_assign_same _ _ context _ Hc). simpl.
    rewrite assign_assign. unfold Store.withMorphisms. simpl.
    rewrite filter_app_last.
    + rewrite ContextData_eta, (assign_same_value _ _ _ Hc).
      rewrite (filter_all _ (Store.selectedEdgeIds (Store.state w))).
      * destruct (Store.state w); reflexivity.
      * apply Forall_forall. intros x Hx. apply negb_true_iff.
        apply String.eqb_neq. intros ->. apply Hs. exact Hx.
    + simpl. rewrite String.eqb_refl. reflexivity.
    + eapply Forall_impl; [|exact Hm]. intros m Hu. simpl in *.
      apply negb_true_iff. apply String.eqb_neq. exact Hu.
  - unfold Store.deleteContextMap, Store.addContextMap. simpl.
    rewrite filter_app_last.
    + destruct (Store.state w); reflexivity.
    + simpl. rewrite String.eqb_refl. reflexivity.
    + eapply Forall_impl; [|exact Hk]. intros m Hu. simpl in *.
      apply negb_true_iff. apply String.eqb_neq. exact Hu.
Qed.

Lemma onNode_twice (contextId nodeId : string)
  (f g : DomainNode -> DomainNode) (s : Store.DomainState V) :
  (forall context data,
      JS.get (Store.contexts s) contextId = Some context ->
      JS.get (nodes context) nodeId = Some data ->
      g (f (data_node data)) = data_node data) ->
  Store.onNode contextId nodeId g (Store.onNode contextId nodeId f s) = s.
Proof.
  intros H. unfold Store.onNode at 2.
  destruct (JS.get (Store.contexts s) contextId) as [c|] eqn:Hc.
  - destruct (JS.get (nodes c) nodeId) as [d|] eqn:Hd.
    + unfold Store.onNode. simpl.
      rewrite (get_assign_same _ _ c _ Hc). simpl.
      rewrite (get_assign_same _ _ d _ Hd). simpl.
      rewrite !assign_assign, (H c d eq_refl Hd), NodeData_eta.
      rewrite (assign_same_value _ _ _ Hd).
      unfold Store.withNodes. simpl.
      rewrite ContextData_eta, (assign_same_value _ _ _ Hc).
      destruct s; reflexivity.
    + unfold Store.onNode. rewrite Hc, Hd. reflexivity.
  - unfold Store.onNode. rewrite Hc. reflexivity.
Qed.

(** X9.  A field added under a new id to an entity or a value object and
    deleted again, and a variant added under a new id to an enum and
    deleted again, give back the state as it was; this is so too when the
    context or the node is missing, or the node is of another kind, for
    then neither action changes the state. *)
Theorem addField_then_deleteField (id contextId nodeId : string)
  (field : Store.NewField) (variant : Store.NewVariant)
  (w : Store.World V) :
  (forall context data,
      JS.get (Store.contexts (Store.state w)) contextId = Some context ->
      JS.get (nodes context) nodeId = Some data ->
      Forall (fun f => field_id f <> id) (fieldsOf (data_node data))
      /\ Forall (fun v => variant_id v <> id)
           (variantsOf (data_node data))) ->
  Store.state
    (Store.deleteField contextId nodeId id
       (Store.addField id contextId nodeId field w))
  = Store.state w
  /\ Store.state
       (Store.deleteVariant contextId nodeId id
          (Store.addVariant id contextId nodeId variant w))
     = Store.state w.
Proof.
  intros H. unfold Store.deleteField, Store.addField, Store.deleteVariant,
    Store.addVariant. simpl.
  split; apply onNode_twice; intros c d Hc Hd;
    destruct (H c d Hc Hd) as [Hf Hv];
    destruct (data_node d) as [e|v|e|a]; simpl in *; try reflexivity.
  - rewrite filter_app_last.
    + destruct e; reflexivity.
    + simpl. rewrite String.eqb_refl. reflexivity.
    + eapply Forall_impl; [|exact Hf]. intros f Hu. simpl in *.
      apply negb_true_iff. apply String.eqb_neq. exact Hu.
  - rewrite filter_app_last.
    + destruct v; reflexivity.
    + simpl. rewrite String.eqb_refl. reflexivity.
    + eapply Forall_impl; [|exact Hf]. intros f Hu. simpl in *.
      apply negb_true_iff. apply String.eqb_neq. exact Hu.
  - rewrite filter_app_last.
    + destruct e; reflexivity.
    + simpl. rewrite String.eqb_refl. reflexivity.
    + eapply Forall_impl; [|exact Hv]. intros f Hu. simpl in *.
      apply negb_true_iff. apply String.eqb_neq. exact Hu.
Qed.

End RoundTrips.

(** X5 at the store as it starts. *)
Lemma createContext_then_deleteContext_fresh :
  JS.get (Store.contexts (Store.state freshWorld)) "c1" = None
  /\ Store.contexts
       (Store.state
          (Store.deleteContext "c1"
             (Store.createContext "c1" "Sales" freshWorld)))
     = Store.contexts (Store.state freshWorld).
Proof.
  split; [reflexivity|].
  apply (createContext_then_deleteContext "c1" "Sales" freshWorld).
  reflexivity.
Defined.


(** X7 at the store with the empty context [Sales]. *)
Lemma addNode_then_deleteNode_sales :
  JS.get (Store.contexts (Store.state salesWorld)) "c1"
  = Some {| context_id := "c1"; context_name := "Sales";
            nodes := []; morphisms := [] |}
  /\ Store.state
       (Store.deleteNode "c1" "n1"
          (Store.addNode "n1" "c1" customerNode origin salesWorld))
     = Store.state salesWorld.
Proof.
  split; [reflexivity|].
  apply (addNode_then_deleteNode "n1" "c1" customerNode origin
           {| context_id := "c1"; context_name := "Sales";
              nodes := []; morphisms := [] |} salesWorld).
  - reflexivity.
  - reflexivity.
  - constructor.
  - simpl. intros [].
Defined.

(** X8 at the store with the empty context [Sales]. *)
Lemma addMorphism_then_deleteMorphism_sales :
  JS.get (Store.contexts (Store.state salesWorld)) "c1"
  = Some {| context_id := "c1"; context_name := "Sales";
            nodes := []; morphisms := [] |}
  /\ Store.state
       (Store.deleteMorphism "c1" "m1"
          (Store.addMorphism "m1" "c1" sampleMorphism salesWorld))
     = Store.state salesWorld.
Proof.
  split; [reflexivity|].
  apply (addMorphism_then_deleteMorphism "m1" "c1" sampleMorphism sampleMap
           {| context_id := "c1"; context_name := "Sales";
              nodes := []; morphisms := [] |} salesWorld).
  - reflexivity.
  - constructor.
  - simpl. intros [].
  - constructor.
Defined.

(** X9 at the entity [Customer] of [customerWorld]. *)
Lemma addField_then_deleteField_customer :
  JS.get (Store.contexts (Store.state customerWorld)) "c1"
  = Some {| context_id := "c1"; context_name := "Sales";
            nodes := [ ("n1", {| data_node := customerNode;
                                 data_position := origin |}) ];
            morphisms := [] |}
  /\ Store.state
       (Store.deleteField "c1" "n1" "f1"
          (Store.addField "f1" "c1" "n1" sampleField customerWorld))
     = Store.state customerWorld.
Proof.
  split; [reflexivity|].
  apply (addField_then_deleteField "f1" "c1" "n1" sampleField sampleVariant
           customerWorld).
  intros context data Hc Hd. simpl in Hc. injection Hc as <-.
  simpl in Hd. injection Hd as <-. simpl. split; constructor.
Defined.

(** * Further properties of the generators *)

(** ** The files *)

(** X10.  The Java and the C# generator make exactly one file of every
    node, none is left out and none is empty: the files are as many as the
    nodes, they are named after the nodes in their order, [N.java] or
    [NAggregate.java] ([.cs]), and carry the language of the generator.  A
    context without nodes gives no file. *)
Theorem one_file_for_every_node (context : ContextData)
  (options : CodeGenOptions) :
  length (result (Java.generateJava context options))
  = length (nodes context)
  /\ map filename (result (Java.generateJava context options))
     = map (fun e => fileNameOf ".java" (data_node (snd e))) (nodes context)
  /\ Forall (fun f => file_language f = java /\ content f <> "")
       (result (Java.generateJava context options))
  /\ length (result (CSharp.generateCSharp context options))
     = length (nodes context)
  /\ map filename (result (CSharp.generateCSharp context options))
     = map (fun e => fileNameOf ".cs" (data_node (snd e))) (nodes context)
  /\ Forall (fun f => file_language f = csharp /\ content f <> "")
       (result (CSharp.generateCSharp context options))
  /\ (nodes context = [] ->
      result (Java.generateJava context options) = []
      /\ result (CSharp.generateCSharp context options) = []).
Proof.
  rewrite generateJava_files, generateCSharp_files.
  rewrite !length_map, !map_map.
  split; [reflexivity|]. split.
  { apply map_ext. intros [k d]. unfold javaFile. simpl.
    destruct (data_node d); reflexivity. }
  split.
  { apply Forall_forall. intros f H. apply in_map_iff in H.
    destruct H as (e & <- & _). split; [reflexivity|].
    unfold javaFile. cbn [content].
    pose proof (java_render_truthy context options (data_node (snd e)))
      as T.
    apply andb_true_iff in T. destruct T as [T _].
    apply truthy_spec. exact T. }
  split; [reflexivity|]. split.
  { apply map_ext. intros [k d]. unfold csharpFile. simpl.
    destruct (data_node d); reflexivity. }
  split.
  { apply Forall_forall. intros f H. apply in_map_iff in H.
    destruct H as (e & <- & _). split; [reflexivity|].
    unfold csharpFile. cbn [content].
    pose proof (csharp_render_truthy context options (data_node (snd e)))
      as T.
    apply andb_true_iff in T. destruct T as [T _].
    apply truthy_spec. exact T. }
  intros ->. split; reflexivity.
Qed.

(** ** Trimming *)

Lemma trimStart_head (s : string) : headSpace (JS.trimStart s) = false.
Proof.
  induction s as [|c s IH]; simpl; [reflexivity|].
  destruct (JS.isWhiteSpace c) eqn:E; [exact IH|]. simpl. exact E.
Qed.

Lemma trimEnd_last (s : string) : lastSpace (JS.trimEnd s) = false.
Proof.
  induction s as [|c s IH]; simpl; [reflexivity|].
  destruct (JS.isWhiteSpace c) eqn:E; simpl.
  - destruct (JS.trimEnd s) as [|c' r] eqn:T; simpl; [reflexivity|].
    exact IH.
  - destruct (JS.trimEnd s) as [|c' r] eqn:T; simpl; [exact E|].
    exact IH.
Qed.

Lemma trimEnd_head (s : string) :
  headSpace s = false -> headSpace (JS.trimEnd s) = false.
Proof.
  destruct s as [|c s]; simpl; [reflexivity|].
  intros E. rewrite E. simpl. exact E.
Qed.

Lemma trimStart_clean (s : string) :
  headSpace s = false -> JS.trimStart s = s.
Proof.
  destruct s as [|c s]; simpl; [reflexivity|]. intros ->. reflexivity.
Qed.

Lemma trimEnd_clean (s : string) :
  lastSpace s = false -> JS.trimEnd s = s.
Proof.
  induction s as [|c s IH]; simpl; [reflexivity|].
  destruct s as [|c' r].
  - intros ->. reflexivity.
  - intros H. rewrite (IH H).
    destruct (JS.isWhiteSpace c); reflexivity.
Qed.

Lemma removeWhiteSpace_clean (s : string) :
  anySpace (JS.removeWhiteSpace s) = false.
Proof.
  induction s as [|c s IH]; simpl; [reflexivity|].
  destruct (JS.isWhiteSpace c) eqn:E; [exact IH|].
  simpl. rewrite E, IH. reflexivity.
Qed.

Lemma anySpace_append (a b : string) :
  anySpace (a +++ b) = anySpace a || anySpace b.
Proof.
  induction a as [|c a IH]; simpl; [reflexivity|].
  rewrite IH, orb_assoc. reflexivity.
Qed.

(** X11.  For TypeScript [generateCode] returns one file.  Its name is
    the name of the context without its white space, followed by [.ts],
    and has no white space in it; its content neither begins nor ends with
    white space, so that trimming it again changes nothing. *)
Theorem typescript_file_is_trimmed (context : ContextData)
  (partial : option PartialOptions) (now : string) :
  exists file,
    result (generateCode context typescript partial now) = [ file ]
    /\ file_language file = typescript
    /\ filename file = JS.removeWhiteSpace (context_name context) +++ ".ts"
    /\ anySpace (filename file) = false
    /\ headSpace (content file) = false
    /\ lastSpace (content file) = false
    /\ JS.trim (content file) = content file.
Proof.
  unfold generateCode.
  destruct (TypeScript.generateTypeScript context
              (defaultOptions typescript partial) now) as [file c] eqn:E.
  exists file. unfold TypeScript.generateTypeScript in E.
  injection E as <- _. cbn [result fst filename content file_language].
  rewrite passes_context.
  split; [reflexivity|]. split; [reflexivity|]. split; [reflexivity|].
  split; [rewrite anySpace_append, removeWhiteSpace_clean; reflexivity|].
  assert (H : headSpace
                (JS.trim
                   (JS.join JS.nl
                      (loop_out
                         (TypeScript.passes context
                            (defaultOptions typescript partial) now))))
              = false)
    by (apply trimEnd_head, trimStart_head).
  assert (L : lastSpace
                (JS.trim
                   (JS.join JS.nl
                      (loop_out
                         (TypeScript.passes context
                            (defaultOptions typescript partial) now))))
              = false)
    by apply trimEnd_last.
  split; [exact H|]. split; [exact L|].
  unfold JS.trim at 1. rewrite (trimStart_clean _ H).
  apply trimEnd_clean. exact L.
Qed.

(** ** The type tables *)

Lemma get_In {A : Type} (o : list (string * A)) (k : string) (v : A) :
  JS.get o k = Some v -> In (k, v) o.
Proof.
  induction o as [|[k' a] o IH]; simpl; [discriminate|].
  destruct (String.eqb_spec k' k) as [->|N].
  - intros H. injection H as ->. left. reflexivity.
  - intros H. right. apply IH. exact H.
Qed.

Lemma get_keys {A B : Type} (o : list (string * A)) (o' : list (string * B))
  (k : string) :
  JS.keys o = JS.keys o' -> (JS.get o k = None <-> JS.get o' k = None).
Proof.
  revert o'. induction o as [|[k1 a] o IH]; intros [|[k2 b] o'] E;
    try discriminate E; simpl; [split; reflexivity|].
  simpl in E. injection E as <- E.
  destruct (k1 =? k)%string; [split; discriminate|].
  apply IH. exact E.
Qed.

Ltac table_cases H :=
  apply get_In in H; simpl in H;
  repeat (destruct H as [H|H]; [injection H as <- <-; reflexivity|]);
  destruct H.


(** ** The options the generators read *)

Lemma forEach_ext {A B : Type} (l : list B) (f g : Loop A -> B -> Loop A)
  (s : Loop A) :
  (forall s e, f s e = g s e) -> forEach l f s = forEach l g s.
Proof.
  intros H. unfold forEach. revert s.
  induction l as [|e l IH]; intros s; simpl; [reflexivity|].
  rewrite H. apply IH.
Qed.

Lemma typescript_options (context : ContextData) (o1 o2 : CodeGenOptions)
  (now : string) :
  includeComments o1 = includeComments o2 ->
  generateInterfaces o1 = generateInterfaces o2 ->
  generateClasses o1 = generateClasses o2 ->
  TypeScript.generateTypeScript context o1 now
  = TypeScript.generateTypeScript context o2 now.
Proof.
  intros Hc Hi Hk.
  assert (P : TypeScript.passes context o1 now
              = TypeScript.passes context o2 now).
  { unfold TypeScript.passes, TypeScript.fileHeader. rewrite Hc.
    rewrite (forEach_ext _ (TypeScript.enumPass o1) (TypeScript.enumPass o2)).
    2:{ intros s e. unfold TypeScript.enumPass, TypeScript.generateEnum,
          TypeScript.generateEnumLines, TypeScript.enumCommentLines.
        rewrite Hc. reflexivity. }
    rewrite (forEach_ext _ (TypeScript.valuePass o1)
               (TypeScript.valuePass o2)).
    2:{ intros s e. unfold TypeScript.valuePass,
          TypeScript.generateValueObject,
          TypeScript.generateValueObjectLines, TypeScript.valueCommentLines,
          TypeScript.valueInterfaceLines, TypeScript.valueClassLines.
        rewrite Hc, Hi, Hk. reflexivity. }
    rewrite (forEach_ext _ (TypeScript.entityPass o1)
               (TypeScript.entityPass o2)).
    2:{ intros s e. unfold TypeScript.entityPass, TypeScript.generateEntity,
          TypeScript.generateEntityLines.
        rewrite Hc, Hi, Hk. reflexivity. }
    apply forEach_ext.
    intros s e. unfold TypeScript.aggregatePass,
      TypeScript.generateAggregate, TypeScript.generateAggregateLines,
      TypeScript.aggregateCommentLines.
    rewrite Hc. reflexivity. }
  unfold TypeScript.generateTypeScript. rewrite P. reflexivity.
Qed.

Lemma java_options (context : ContextData) (o1 o2 : CodeGenOptions) :
  includeComments o1 = includeComments o2 ->
  Java.package o1 = Java.package o2 ->
  Java.generateJava context o1 = Java.generateJava context o2.
Proof.
  intros Hc Hp. unfold Java.generateJava.
  rewrite (forEach_ext _ (Java.callback o1) (Java.callback o2));
    [reflexivity|].
  intros s e. unfold Java.callback, Java.render.
  destruct (data_node (snd e));
    unfold Java.generateEntity, Java.generateEntityLines,
      Java.generateValueObject, Java.generateValueObjectLines,
      Java.valueHeadLines, Java.generateEnum, Java.generateEnumLines,
      Java.generateAggregate, Java.generateAggregateLines,
      Java.aggregateHeadLines;
    rewrite Hc, Hp; reflexivity.
Qed.

Lemma csharp_options (context : ContextData) (o1 o2 : CodeGenOptions) :
  includeComments o1 = includeComments o2 ->
  CSharp.namespaceOf o1 = CSharp.namespaceOf o2 ->
  CSharp.generateCSharp context o1 = CSharp.generateCSharp context o2.
Proof.
  intros Hc Hp. unfold CSharp.generateCSharp.
  rewrite (forEach_ext _ (CSharp.callback o1) (CSharp.callback o2));
    [reflexivity|].
  intros s e. unfold CSharp.callback, CSharp.render.
  destruct (data_node (snd e));
    unfold CSharp.generateEntity, CSharp.generateEntityLines,
      CSharp.generateValueObject, CSharp.generateValueObjectLines,
      CSharp.valueCommentLines, CSharp.generateEnum,
      CSharp.generateEnumLines, CSharp.generateAggregate,
      CSharp.generateAggregateLines, CSharp.aggregateHeadLines;
    rewrite Hc, Hp; reflexivity.
Qed.

(** X13.  Each generator reads the options it has a use for and no other.
    The TypeScript generator reads the three flags; the Java generator
    reads [includeComments] and the package name, and the C# generator
    [includeComments] and the namespace, where a name that is missing or
    empty stands for the default name.  None reads [language]: a
    [language] among the options of [generateCode] changes nothing. *)
Theorem generators_read_their_own_options (context : ContextData)
  (o1 o2 : CodeGenOptions) (lang : TargetLanguage)
  (partial : PartialOptions) (l : option TargetLanguage) (now : string) :
  (includeComments o1 = includeComments o2 ->
   generateInterfaces o1 = generateInterfaces o2 ->
   generateClasses o1 = generateClasses o2 ->
   TypeScript.generateTypeScript context o1 now
   = TypeScript.generateTypeScript context o2 now)
  /\ (includeComments o1 = includeComments o2 ->
      JS.optOrElse (packageName o1) "com.example.domain"
      = JS.optOrElse (packageName o2) "com.example.domain" ->
      Java.generateJava context o1 = Java.generateJava context o2)
  /\ (includeComments o1 = includeComments o2 ->
      JS.optOrElse (namespace o1) "Domain"
      = JS.optOrElse (namespace o2) "Domain" ->
      CSharp.generateCSharp context o1 = CSharp.generateCSharp context o2)
  /\ generateCode context lang (Some (withLanguage l partial)) now
     = generateCode context lang (Some partial) now.
Proof.
  split; [apply typescript_options|].
  split; [apply java_options|].
  split; [apply csharp_options|].
  unfold generateCode. destruct lang.
  - rewrite (typescript_options context
               (defaultOptions typescript (Some (withLanguage l partial)))
               (defaultOptions typescript (Some partial)) now);
      reflexivity.
  - apply java_options; reflexivity.
  - apply csharp_options; reflexivity.
Qed.

(** X13 for an empty package name, which gives what no package name
    gives. *)
Lemma empty_package_name_is_the_default :
  includeComments
    (defaultOptions java
       (Some {| p_language := None; p_includeComments := None;
                p_generateInterfaces := None; p_generateClasses := None;
                p_namespace := None; p_packageName := Some (Some "") |}))
  = includeComments (defaultOptions java None)
  /\ Java.generateJava shop
       (defaultOptions java
          (Some {| p_language := None; p_includeComments := None;
                   p_generateInterfaces := None; p_generateClasses := None;
                   p_namespace := None; p_packageName := Some (Some "") |}))
     = Java.generateJava shop (defaultOptions java None).
Proof.
  split; [reflexivity|].
  apply (generators_read_their_own_options shop
           (defaultOptions java
              (Some {| p_language := None; p_includeComments := None;
                       p_generateInterfaces := None;
                       p_generateClasses := None;
                       p_namespace := None;
                       p_packageName := Some (Some "") |}))
           (defaultOptions java None) java noOptions None noon);
    reflexivity.
Defined.

(** ** Positions *)

Lemma findEntry_get (ns : Nodes) (k : string) : findEntry ns k = JS.get ns k.
Proof.
  unfold findEntry. induction ns as [|[k' d] ns IH]; simpl; [reflexivity|].
  destruct (k' =? k)%string; [reflexivity|exact IH].
Qed.

Lemma get_modelOf (ns : Nodes) (k : string) :
  JS.get (modelOf ns) k = option_map data_node (JS.get ns k).
Proof.
  unfold modelOf. induction ns as [|[k' d] ns IH]; simpl; [reflexivity|].
  destruct (k' =? k)%string; [reflexivity|exact IH].
Qed.

Lemma nodeAt_modelOf (ns1 ns2 : Nodes) (k : string) :
  modelOf ns1 = modelOf ns2 -> nodeAt ns1 k = nodeAt ns2 k.
Proof.
  intros H. unfold nodeAt. rewrite <- !get_modelOf, H. reflexivity.
Qed.

Lemma map_node_modelOf (ns : Nodes) :
  map (fun e => data_node (snd e)) ns = map snd (modelOf ns).
Proof. unfold modelOf. rewrite map_map. reflexivity. Qed.

Lemma flat_map_nodes {B : Type} (g : DomainNode -> list B)
  (p : DomainNode -> bool) (ns : Nodes) :
  flat_map (fun e => g (data_node (snd e)))
    (filter (fun e => p (data_node (snd e))) ns)
  = flat_map g (filter p (map snd (modelOf ns))).
Proof.
  rewrite <- map_node_modelOf.
  induction ns as [|e ns IH]; simpl; [reflexivity|].
  destruct (p (data_node (snd e))); simpl; rewrite IH; reflexivity.
Qed.

Lemma filter_true_all {A : Type} (l : list A) :
  filter (fun _ => true) l = l.
Proof.
  induction l as [|a l IH]; simpl; [reflexivity|].
  rewrite IH. reflexivity.
Qed.

Lemma typescript_entity_model (node : EntityNode) (ms : list Morphism)
  (ns1 ns2 : Nodes) (options : CodeGenOptions) :
  modelOf ns1 = modelOf ns2 ->
  TypeScript.generateEntity node ms ns1 options
  = TypeScript.generateEntity node ms ns2 options.
Proof.
  intros H.
  assert (N : forall k, option_map data_node (findEntry ns1 k)
                        = option_map data_node (findEntry ns2 k))
    by (intros k; rewrite !findEntry_get, <- !get_modelOf, H; reflexivity).
  assert (L : forall m, TypeScript.leaves node ns1 m
                        = TypeScript.leaves node ns2 m).
  { intros m. unfold TypeScript.leaves. specialize (N (sourceId m)).
    destruct (findEntry ns1 (sourceId m)), (findEntry ns2 (sourceId m));
      simpl in N; try discriminate N; [|reflexivity].
    injection N as ->. reflexivity. }
  assert (R : forall m, TypeScript.relationshipLine ns1 m
                        = TypeScript.relationshipLine ns2 m).
  { intros m. unfold TypeScript.relationshipLine. specialize (N (targetId m)).
    destruct (findEntry ns1 (targetId m)), (findEntry ns2 (targetId m));
      simpl in N; try discriminate N; [|reflexivity].
    injection N as ->. reflexivity. }
  unfold TypeScript.generateEntity, TypeScript.generateEntityLines.
  rewrite (filter_ext _ _ L), (flat_map_ext _ _ R). reflexivity.
Qed.

Lemma aggregate_model (node : AggregateNode) (ns1 ns2 : Nodes)
  (options : CodeGenOptions) :
  modelOf ns1 = modelOf ns2 ->
  TypeScript.generateAggregate node ns1 options
  = TypeScript.generateAggregate node ns2 options
  /\ Java.generateAggregate node ns1 options
     = Java.generateAggregate node ns2 options
  /\ CSharp.generateAggregate node ns1 options
     = CSharp.generateAggregate node ns2 options.
Proof.
  intros H.
  assert (N : forall k, nodeAt ns1 k = nodeAt ns2 k)
    by (intros k; apply nodeAt_modelOf; exact H).
  assert (FJ : forall f, Java.forMembers node ns1 f
                         = Java.forMembers node ns2 f).
  { intros f. unfold Java.forMembers. apply flat_map_ext.
    intros id. rewrite N. reflexivity. }
  assert (FC : forall f, CSharp.forMembers node ns1 f
                         = CSharp.forMembers node ns2 f).
  { intros f. unfold CSharp.forMembers. apply flat_map_ext.
    intros id. rewrite N. reflexivity. }
  assert (M : TypeScript.memberNodes node ns1
              = TypeScript.memberNodes node ns2).
  { unfold TypeScript.memberNodes. apply flat_map_ext.
    intros id. rewrite N. reflexivity. }
  split; [|split].
  - unfold TypeScript.generateAggregate, TypeScript.generateAggregateLines,
      TypeScript.aggregateCommentLines, TypeScript.aggregateBodyLines.
    rewrite M, N. reflexivity.
  - unfold Java.generateAggregate, Java.generateAggregateLines,
      Java.aggregateHeadLines, Java.aggregateFieldLines,
      Java.aggregateConstructorLines, Java.aggregateMethodLines.
    rewrite !FJ, N. reflexivity.
  - unfold CSharp.generateAggregate, CSharp.generateAggregateLines,
      CSharp.aggregateHeadLines.
    rewrite !FC, N. reflexivity.
Qed.

Lemma itemsOf_model (c1 c2 : ContextData) (options : CodeGenOptions) :
  sameModel c1 c2 -> itemsOf c1 options = itemsOf c2 options.
Proof.
  intros (Hn & Hm & Hs).
  assert (I : forall n, TypeScript.item c1 options n
                        = TypeScript.item c2 options n).
  { intros [e|v|e|a]; simpl; try reflexivity.
    - rewrite Hm. apply typescript_entity_model. exact Hs.
    - apply aggregate_model. exact Hs. }
  assert (P : forall k, pushedBy c1 options k = pushedBy c2 options k).
  { intros k. unfold pushedBy, hasKind.
    rewrite (flat_map_nodes (fun n => [TypeScript.item c1 options n; ""])
               (fun n => Kind_eqb (kind n) k)).
    rewrite (flat_map_nodes (fun n => [TypeScript.item c2 options n; ""])
               (fun n => Kind_eqb (kind n) k)).
    rewrite Hs. apply flat_map_ext. intros n. rewrite I. reflexivity. }
  unfold itemsOf. rewrite !P. reflexivity.
Qed.

Lemma files_model (c1 c2 : ContextData) (options : CodeGenOptions) :
  sameModel c1 c2 ->
  map (javaFile c1 options) (nodes c1) = map (javaFile c2 options) (nodes c2)
  /\ map (csharpFile c1 options) (nodes c1)
     = map (csharpFile c2 options) (nodes c2).
Proof.
  intros (Hn & Hm & Hs).
  assert (J : forall n, Java.render c1 options n = Java.render c2 options n).
  { intros [e|v|e|a]; simpl; try reflexivity.
    f_equal. apply aggregate_model. exact Hs. }
  assert (C : forall n, CSharp.render c1 options n
                        = CSharp.render c2 options n).
  { intros [e|v|e|a]; simpl; try reflexivity.
    f_equal. apply aggregate_model. exact Hs. }
  split.
  - pose proof (flat_map_nodes
                  (fun n => [ {| filename := snd (Java.render c1 options n);
                                 content := fst (Java.render c1 options n);
                                 file_language := java |} ])
                  (fun _ => true) (nodes c1)) as F1.
    pose proof (flat_map_nodes
                  (fun n => [ {| filename := snd (Java.render c2 options n);
                                 content := fst (Java.render c2 options n);
                                 file_language := java |} ])
                  (fun _ => true) (nodes c2)) as F2.
    rewrite !filter_true_all in F1, F2.
    rewrite <- (flat_map_singleton (javaFile c1 options)),
      <- (flat_map_singleton (javaFile c2 options)).
    unfold javaFile. rewrite F1, F2, Hs.
    apply flat_map_ext. intros n. rewrite J. reflexivity.
  - pose proof (flat_map_nodes
                  (fun n => [ {| filename := snd (CSharp.render c1 options n);
                                 content := fst (CSharp.render c1 options n);
                                 file_language := csharp |} ])
                  (fun _ => true) (nodes c1)) as F1.
    pose proof (flat_map_nodes
                  (fun n => [ {| filename := snd (CSharp.render c2 options n);
                                 content := fst (CSharp.render c2 options n);
                                 file_language := csharp |} ])
                  (fun _ => true) (nodes c2)) as F2.
    rewrite !filter_true_all in F1, F2.
    rewrite <- (flat_map_singleton (csharpFile c1 options)),
      <- (flat_map_singleton (csharpFile c2 options)).
    unfold csharpFile. rewrite F1, F2, Hs.
    apply flat_map_ext. intros n. rewrite C. reflexivity.
Qed.

Lemma generateTypeScript_result (context : ContextData)
  (options : CodeGenOptions) (now : string) :
  result (TypeScript.generateTypeScript context options now)
  = {| filename := JS.removeWhiteSpace (context_name context) +++ ".ts";
       content :=
         JS.trim (JS.join JS.nl
                    (TypeScript.fileHeader context options now
                     ++ itemsOf context options));
       file_language := typescript |}.
Proof.
  unfold TypeScript.generateTypeScript, result. cbn [fst].
  rewrite passes_context, passes_out. reflexivity.
Qed.

Lemma generateCode_result (context : ContextData) (lang : TargetLanguage)
  (partial : option PartialOptions) (now : string) :
  result (generateCode context lang partial now)
  = match lang with
    | typescript =>
        [ result (TypeScript.generateTypeScript context
                    (defaultOptions typescript partial) now) ]
    | java =>
        map (javaFile context (defaultOptions java partial)) (nodes context)
    | csharp =>
        map (csharpFile context (defaultOptions csharp partial))
          (nodes context)
    end.
Proof.
  unfold generateCode. destruct lang.
  - destruct (TypeScript.generateTypeScript context
                (defaultOptions typescript partial) now); reflexivity.
  - apply generateJava_files.
  - apply generateCSharp_files.
Qed.

Lemma result_model (c1 c2 : ContextData) (lang : TargetLanguage)
  (partial : option PartialOptions) (now : string) :
  sameModel c1 c2 ->
  result (generateCode c1 lang partial now)
  = result (generateCode c2 lang partial now).
Proof.
  intros H. rewrite !generateCode_result. destruct lang.
  - rewrite !generateTypeScript_result.
    rewrite (itemsOf_model c1 c2 _ H).
    destruct H as (Hn & _ & _).
    unfold TypeScript.fileHeader. rewrite Hn. reflexivity.
  - apply files_model. exact H.
  - apply files_model. exact H.
Qed.

(** X14.  The generated code depends on the name of the context, on its
    morphisms and on its nodes under their ids, in their order, and on
    nothing else of the context: two contexts that differ in their own id
    or in the positions of their nodes give the same files, in every
    language. *)
Theorem generated_code_ignores_positions (c1 c2 : ContextData)
  (lang : TargetLanguage) (partial : option PartialOptions) (now : string) :
  sameModel c1 c2 ->
  result (generateCode c1 lang partial now)
  = result (generateCode c2 lang partial now).
Proof.
  intros H. rewrite !generateCode_result. destruct lang.
  - rewrite !generateTypeScript_result, (itemsOf_model c1 c2 _ H).
    destruct H as (Hn & _ & _).
    unfold TypeScript.fileHeader. rewrite Hn. reflexivity.
  - apply files_model. exact H.
  - apply files_model. exact H.
Qed.

Lemma modelOf_assign (ns : Nodes) (k : string) (d : NodeData)
  (position : Position) :
  JS.get ns k = Some d ->
  modelOf (Store.assign ns k {| data_node := data_node d;
                                data_position := position |})
  = modelOf ns.
Proof.
  unfold modelOf. induction ns as [|[k' a] ns IH]; simpl; [reflexivity|].
  destruct (k' =? k)%string.
  - intros H. injection H as ->. reflexivity.
  - intros H. simpl. rewrite (IH H). reflexivity.
Qed.

(** X15.  Moving a node changes no generated code: the context a node was
    moved in gives the same files as before, in every language; the other
    contexts and the history are as they were, and the node is at its new
    position. *)
Theorem moving_a_node_changes_no_code {V : Type} (w : Store.World V)
  (contextId nodeId : string) (position : Position) (context : ContextData)
  (lang : TargetLanguage) (partial : option PartialOptions) (now : string) :
  JS.get (Store.contexts (Store.state w)) contextId = Some context ->
  let moved := Store.moveNode contextId nodeId position w in
  exists context',
    JS.get (Store.contexts (Store.state moved)) contextId = Some context'
    /\ result (generateCode context' lang partial now)
       = result (generateCode context lang partial now)
    /\ (forall data,
           JS.get (nodes context) nodeId = Some data ->
           JS.get (nodes context') nodeId
           = Some {| data_node := data_node data;
                     data_position := position |})
    /\ (forall k, k <> contextId ->
                  JS.get (Store.contexts (Store.state moved)) k
                  = JS.get (Store.contexts (Store.state w)) k)
    /\ Store.history moved = Store.history w.
Proof.
  intros Hc moved. subst moved. unfold Store.moveNode. rewrite Hc.
  destruct (JS.get (nodes context) nodeId) as [d|] eqn:Hd.
  - eexists. simpl.
    split; [eapply get_assign_same; exact Hc|].
    split.
    { apply result_model. unfold sameModel, Store.withNodes. simpl.
      split; [reflexivity|]. split; [reflexivity|].
      apply modelOf_assign. exact Hd. }
    split.
    { intros data E. injection E as <-. simpl.
      eapply get_assign_same. exact Hd. }
    split; [|reflexivity].
    intros k N. apply get_assign_other. exact N.
  - exists context. split; [exact Hc|]. split; [reflexivity|].
    split; [discriminate|]. split; reflexivity.
Qed.

(** X14 at [shop] and [shop] with its nodes elsewhere and another id. *)
Lemma generated_code_ignores_positions_shop :
  sameModel shop
    {| context_id := "c7";
       context_name := "Shop";
       nodes :=
         [ ("n1", {| data_node := customerNode;
                     data_position := {| pos_x := 200; pos_y := 50 |} |});
           ("n2", {| data_node := statusNode;
                     data_position := {| pos_x := 450; pos_y := 50 |} |}) ];
       morphisms := [] |}
  /\ result (generateCode shop java None noon)
     = result
         (generateCode
            {| context_id := "c7";
               context_name := "Shop";
               nodes :=
                 [ ("n1", {| data_node := customerNode;
                             data_position :=
                               {| pos_x := 200; pos_y := 50 |} |});
                   ("n2", {| data_node := statusNode;
                             data_position :=
                               {| pos_x := 450; pos_y := 50 |} |}) ];
               morphisms := [] |} java None noon).
Proof.
  assert (S : sameModel shop
                {| context_id := "c7";
                   context_name := "Shop";
                   nodes :=
                     [ ("n1", {| data_node := customerNode;
                                 data_position :=
                                   {| pos_x := 200; pos_y := 50 |} |});
                       ("n2", {| data_node := statusNode;
                                 data_position :=
                                   {| pos_x := 450; pos_y := 50 |} |}) ];
                   morphisms := [] |})
    by (repeat split).
  split; [exact S|].
  apply (generated_code_ignores_positions _ _ java None noon S).
Defined.

(** X15 at the entity [Customer] of [customerWorld]. *)
Lemma moving_a_node_changes_no_code_customer :
  JS.get (Store.contexts (Store.state customerWorld)) "c1"
  = Some {| context_id := "c1"; context_name := "Sales";
            nodes := [ ("n1", {| data_node := customerNode;
                                 data_position := origin |}) ];
            morphisms := [] |}
  /\ Store.history
       (Store.moveNode "c1" "n1" {| pos_x := 300; pos_y := 200 |}
          customerWorld)
     = Store.history customerWorld.
Proof.
  split; [reflexivity|].
  destruct (moving_a_node_changes_no_code customerWorld "c1" "n1"
              {| pos_x := 300; pos_y := 200 |}
              {| context_id := "c1"; context_name := "Sales";
                 nodes := [ ("n1", {| data_node := customerNode;
                                      data_position := origin |}) ];
                 morphisms := [] |} java None noon eq_refl)
    as (c & _ & _ & _ & _ & H).
  exact H.
Defined.

(** ** Aggregates and relationships with missing nodes *)

Lemma forMembers_none {B : Type} (ids : list string) (ns : Nodes)
  (f : DomainNode -> list B) :
  (forall id, In id ids -> nodeAt ns id = None) ->
  flat_map (fun id => match nodeAt ns id with
                      | Some m => f m
                      | None => []
                      end) ids = [].
Proof.
  induction ids as [|id ids IH]; intros H; simpl; [reflexivity|].
  rewrite (H id (or_introl eq_refl)). simpl.
  apply IH. intros x Hx. apply H. right. exact Hx.
Qed.

(** X16.  An aggregate whose root and whose members do not resolve is
    generated all the same, as an empty shell: a TypeScript interface
    without members, a Java class without fields whose constructor takes
    no argument, a C# class without members (with an empty line in it when
    the aggregate has member ids). *)
Theorem aggregate_of_missing_nodes (node : AggregateNode) (ns : Nodes)
  (options : CodeGenOptions) :
  nodeAt ns (rootId node) = None ->
  (forall id, In id (memberIds node) -> nodeAt ns id = None) ->
  TypeScript.generateAggregateLines node ns options
  = TypeScript.aggregateCommentLines node ns options
    ++ [ "export interface " +++ aggregate_name node +++ "Aggregate {";
         "}" ]
  /\ Java.generateAggregateLines node ns options
     = Java.aggregateHeadLines node ns options
       ++ [ "public class " +++ aggregate_name node +++ "Aggregate {";
            "";
            "";
            "    public " +++ aggregate_name node +++ "Aggregate() {";
            "    }";
            "";
            "}" ]
  /\ CSharp.generateAggregateLines node ns options
     = CSharp.aggregateHeadLines node ns options
       ++ [ "public class " +++ aggregate_name node +++ "Aggregate";
            "{" ]
       ++ (match memberIds node with [] => [] | _ => [ "" ] end)
       ++ [ "}" ].
Proof.
  intros Hr Hm.
  assert (F : forall (B : Type) (f : DomainNode -> list B),
             flat_map (fun id => match nodeAt ns id with
                                 | Some m => f m
                                 | None => []
                                 end) (memberIds node) = [])
    by (intros B f; apply forMembers_none; exact Hm).
  split; [|split].
  - unfold TypeScript.generateAggregateLines, TypeScript.aggregateBodyLines,
      TypeScript.memberNodes.
    rewrite Hr, F. reflexivity.
  - unfold Java.generateAggregateLines, Java.aggregateFieldLines,
      Java.aggregateConstructorLines, Java.aggregateMethodLines,
      Java.forMembers.
    rewrite Hr, !F. reflexivity.
  - unfold CSharp.generateAggregateLines, CSharp.forMembers.
    rewrite Hr, !F. destruct (memberIds node); reflexivity.
Qed.

(** X16 at an aggregate in a context without nodes. *)
Lemma aggregate_of_missing_nodes_orders :
  nodeAt [] (rootId orderAggregate) = None
  /\ TypeScript.generateAggregateLines orderAggregate [] bare
     = [ "export interface OrderAggregate {"; "}" ].
Proof.
  split; [reflexivity|].
  apply (aggregate_of_missing_nodes orderAggregate [] bare).
  - reflexivity.
  - intros id _. reflexivity.
Defined.

Lemma relationshipLine_dangling (ns : Nodes) (ms : list Morphism)
  (p : Morphism -> bool) :
  flat_map (TypeScript.relationshipLine ns) (filter p ms)
  = flat_map (TypeScript.relationshipLine ns)
      (filter p (filter (targetResolves ns) ms)).
Proof.
  induction ms as [|m ms IH]; simpl; [reflexivity|].
  unfold targetResolves at 1.
  destruct (findEntry ns (targetId m)) as [d|] eqn:E; simpl.
  - destruct (p m); simpl; rewrite IH; reflexivity.
  - destruct (p m); simpl; [|exact IH].
    unfold TypeScript.relationshipLine at 1. rewrite E. exact IH.
Qed.

(** X17.  The relationships of an entity in TypeScript.  A morphism that
    leaves the entity and whose target resolves is a member of the
    interface: [m: T] for cardinality one, [m?: T | null] for optional,
    [m: T[]] for many.  A morphism whose target does not resolve is left
    out without a trace.  The class has no member for a relationship:
    without the interface the morphisms have no part in the code. *)
Theorem typescript_relationships (node : EntityNode) (ms : list Morphism)
  (ns : Nodes) (options : CodeGenOptions) :
  (generateInterfaces options = true ->
   forall m source target,
     In m ms ->
     findEntry ns (sourceId m) = Some source ->
     name (data_node source) = entity_name node ->
     findEntry ns (targetId m) = Some target ->
     In (match cardinality m with
         | one =>
             "  " +++ morphism_name m +++ ": "
             +++ name (data_node target) +++ ";"
         | optional =>
             "  " +++ morphism_name m +++ "?: "
             +++ name (data_node target) +++ " | null;"
         | many =>
             "  " +++ morphism_name m +++ ": "
             +++ name (data_node target) +++ "[];"
         end)
       (TypeScript.generateEntityLines node ms ns options))
  /\ TypeScript.generateEntityLines node ms ns options
     = TypeScript.generateEntityLines node
         (filter (targetResolves ns) ms) ns options
  /\ (generateInterfaces options = false ->
      TypeScript.generateEntityLines node ms ns options
      = TypeScript.generateEntityLines node [] [] options).
Proof.
  split; [|split].
  - intros Hi m source target Hm Hs Hn Ht.
    unfold TypeScript.generateEntityLines. rewrite Hi.
    apply in_or_app. right. apply in_or_app. left.
    apply in_or_app. right. apply in_or_app. right.
    apply in_or_app. left.
    apply in_flat_map. exists m. split.
    + apply filter_In. split; [exact Hm|].
      unfold TypeScript.leaves. rewrite Hs, Hn, String.eqb_refl.
      apply orb_true_r.
    + unfold TypeScript.relationshipLine. rewrite Ht.
      destruct (cardinality m); left; reflexivity.
  - unfold TypeScript.generateEntityLines.
    rewrite <- relationshipLine_dangling. reflexivity.
  - intros Hi. unfold TypeScript.generateEntityLines. rewrite Hi.
    reflexivity.
Qed.

(** ** Downloads *)

Lemma java_file_names (context : ContextData) (options : CodeGenOptions) :
  map filename (result (Java.generateJava context options))
  = map (fun e => fileNameOf ".java" (data_node (snd e))) (nodes context).
Proof.
  rewrite generateJava_files, map_map. apply map_ext.
  intros [k d]. unfold javaFile. simpl. destruct (data_node d); reflexivity.
Qed.

Lemma csharp_file_names (context : ContextData) (options : CodeGenOptions) :
  map filename (result (CSharp.generateCSharp context options))
  = map (fun e => fileNameOf ".cs" (data_node (snd e))) (nodes context).
Proof.
  rewrite generateCSharp_files, map_map. apply map_ext.
  intros [k d]. unfold csharpFile. simpl. destruct (data_node d); reflexivity.
Qed.

(** X18.  What is downloaded of the files [generateCode] returns.  For
    TypeScript it is always the one file, under its own name.  For Java
    and C# it depends on the number of nodes: with one node the file of
    the node under its own name; with two or more all the files joined
    in one text, each under a line with its name, as [generated-code.java]
    or [generated-code.cs]; with no node [downloadGeneratedFiles] fails. *)
Theorem download_of_the_generated_files (context : ContextData)
  (partial : option PartialOptions) (now : string) :
  (exists file,
      result (generateCode context typescript partial now) = [ file ]
      /\ downloadGeneratedFiles
           (result (generateCode context typescript partial now))
         = Some {| blob := content file; download := filename file |})
  /\ downloadGeneratedFiles (result (generateCode context java partial now))
     = match nodes context with
       | [] => None
       | [ e ] =>
           Some {| blob :=
                     content (javaFile context (defaultOptions java partial)
                                e);
                   download := fileNameOf ".java" (data_node (snd e)) |}
       | _ =>
           Some {| blob :=
                     combined (result (generateCode context java partial
                                         now));
                   download := "generated-code.java" |}
       end
  /\ downloadGeneratedFiles
       (result (generateCode context csharp partial now))
     = match nodes context with
       | [] => None
       | [ e ] =>
           Some {| blob :=
                     content (csharpFile context
                                (defaultOptions csharp partial) e);
                   download := fileNameOf ".cs" (data_node (snd e)) |}
       | _ =>
           Some {| blob :=
                     combined (result (generateCode context csharp partial
                                         now));
                   download := "generated-code.cs" |}
       end.
Proof.
  rewrite !generateCode_result. split; [|split].
  - eexists. split; reflexivity.
  - destruct (nodes context) as [|[k d] [|e2 r]]; simpl; try reflexivity.
    unfold javaFile. simpl. destruct (data_node d); reflexivity.
  - destruct (nodes context) as [|[k d] [|e2 r]]; simpl; try reflexivity.
    unfold csharpFile. simpl. destruct (data_node d); reflexivity.
Qed.

(** ** The store and the generators together *)

(** X19.  Adding a node to a context adds one file to the Java and to
    the C# output, named after the node, after the files there were; the
    names of the other files stay, and the TypeScript file keeps its
    name. *)
Theorem adding_a_node_adds_a_file {V : Type} (w : Store.World V)
  (id contextId : string) (node : DomainNode) (position : Position)
  (context : ContextData) (options : CodeGenOptions) (now : string) :
  JS.get (Store.contexts (Store.state w)) contextId = Some context ->
  JS.get (nodes context) id = None ->
  exists context',
    JS.get (Store.contexts
              (Store.state (Store.addNode id contextId node position w)))
      contextId = Some context'
    /\ map filename (result (Java.generateJava context' options))
       = map filename (result (Java.generateJava context options))
         ++ [ fileNameOf ".java" node ]
    /\ map filename (result (CSharp.generateCSharp context' options))
       = map filename (result (CSharp.generateCSharp context options))
         ++ [ fileNameOf ".cs" node ]
    /\ filename (result (TypeScript.generateTypeScript context' options now))
       = filename (result (TypeScript.generateTypeScript context options
                             now)).
Proof.
  intros Hc Hn. unfold Store.addNode. rewrite Hc.
  exists (Store.withNodes
            (Store.put (nodes context) id
               {| data_node := node; data_position := position |})
            context).
  split; [simpl; eapply get_assign_same; exact Hc|].
  rewrite !java_file_names, !csharp_file_names, !generateTypeScript_result.
  unfold Store.withNodes. cbn [nodes context_name filename].
  rewrite (put_fresh _ _ _ Hn), !map_app.
  repeat split.
Qed.

Lemma nodeAt_remove (ns : Nodes) (nodeId k : string) :
  nodeAt (JS.remove ns nodeId) k
  = if (k =? nodeId)%string then None else nodeAt ns k.
Proof.
  unfold nodeAt. destruct (String.eqb_spec k nodeId) as [->|N].
  - rewrite get_remove_same. reflexivity.
  - rewrite get_remove_other; [reflexivity|exact N].
Qed.

Lemma forMembers_remove {B : Type} (ns : Nodes) (nodeId : string)
  (ids : list string) (f : DomainNode -> list B) :
  flat_map (fun id => match nodeAt (JS.remove ns nodeId) id with
                      | Some m => f m
                      | None => []
                      end) ids
  = flat_map (fun id => match nodeAt ns id with
                        | Some m => f m
                        | None => []
                        end)
      (filter (fun id => negb (id =? nodeId)%string) ids).
Proof.
  induction ids as [|id ids IH]; simpl; [reflexivity|].
  rewrite nodeAt_remove.
  destruct (id =? nodeId)%string; simpl; rewrite IH; reflexivity.
Qed.

(** X20.  Deleting a node does not take it out of the [memberIds] of the
    aggregates; the generators do, for a member id that no longer resolves
    is passed over: after [deleteNode] the TypeScript and the Java code of
    an aggregate with another root is the code the aggregate without this
    member had before. *)
Theorem deleting_a_member_drops_its_collection {V : Type}
  (w : Store.World V) (contextId nodeId : string) (context : ContextData)
  (node : AggregateNode) (options : CodeGenOptions) :
  JS.get (Store.contexts (Store.state w)) contextId = Some context ->
  rootId node <> nodeId ->
  exists context',
    JS.get (Store.contexts
              (Store.state (Store.deleteNode contextId nodeId w)))
      contextId = Some context'
    /\ JS.get (nodes context') nodeId = None
    /\ TypeScript.generateAggregate node (nodes context') options
       = TypeScript.generateAggregate (withoutMember nodeId node)
           (nodes context) options
    /\ Java.generateAggregate node (nodes context') options
       = Java.generateAggregate (withoutMember nodeId node) (nodes context)
           options.
Proof.
  intros Hc Hr. unfold Store.deleteNode. rewrite Hc.
  exists (Store.withoutNode nodeId context).
  split; [simpl; eapply get_assign_same; exact Hc|].
  unfold Store.withoutNode. cbn [nodes].
  split; [apply get_remove_same|].
  assert (R : nodeAt (JS.remove (nodes context) nodeId) (rootId node)
              = nodeAt (nodes context) (rootId node)).
  { rewrite nodeAt_remove. destruct (String.eqb_spec (rootId node) nodeId);
      [contradiction|reflexivity]. }
  split.
  - unfold TypeScript.generateAggregate, TypeScript.generateAggregateLines,
      TypeScript.aggregateCommentLines, TypeScript.aggregateBodyLines,
      TypeScript.memberNodes, withoutMember. simpl.
    rewrite R, forMembers_remove. reflexivity.
  - unfold Java.generateAggregate, Java.generateAggregateLines,
      Java.aggregateHeadLines, Java.aggregateFieldLines,
      Java.aggregateConstructorLines, Java.aggregateMethodLines,
      Java.forMembers, withoutMember. simpl.
    rewrite R, !forMembers_remove. reflexivity.
Qed.

(** X19 at the empty context [Sales]. *)
Lemma adding_a_node_adds_a_file_sales :
  JS.get (Store.contexts (Store.state salesWorld)) "c1"
  = Some {| context_id := "c1"; context_name := "Sales";
            nodes := []; morphisms := [] |}
  /\ exists context',
      JS.get (Store.contexts
                (Store.state
                   (Store.addNode "n1" "c1" customerNode origin salesWorld)))
        "c1" = Some context'
      /\ map filename (result (Java.generateJava context' bare))
         = [ "Customer.java" ].
Proof.
  split; [reflexivity|].
  destruct (adding_a_node_adds_a_file salesWorld "n1" "c1" customerNode
              origin
              {| context_id := "c1"; context_name := "Sales";
                 nodes := []; morphisms := [] |} bare noon
              eq_refl eq_refl) as (c & Hc & Hj & _).
  exists c. split; [exact Hc|exact Hj].
Defined.

(** X20 at the aggregate of [orders], in a store that holds [orders]. *)
Lemma deleting_a_member_drops_its_collection_orders :
  JS.get [ ("c2", orders) ] "c2" = Some orders
  /\ rootId orderAggregate <> "n2"
  /\ exists context',
      JS.get (Store.contexts
                (Store.state
                   (Store.deleteNode "c2" "n2"
                      {| Store.state :=
                           Store.withContexts [ ("c2", orders) ]
                             (Store.state freshWorld);
                         Store.history := Store.history freshWorld |})))
        "c2" = Some context'
      /\ TypeScript.generateAggregate orderAggregate (nodes context') bare
         = TypeScript.generateAggregate (withoutMember "n2" orderAggregate)
             (nodes orders) bare.
Proof.
  assert (N : rootId orderAggregate <> "n2") by discriminate.
  split; [reflexivity|]. split; [exact N|].
  destruct (deleting_a_member_drops_its_collection
              {| Store.state :=
                   Store.withContexts [ ("c2", orders) ]
                     (Store.state freshWorld);
                 Store.history := Store.history freshWorld |}
              "c2" "n2" orders orderAggregate bare eq_refl N)
    as (c & Hc & _ & Ht & _).
  exists c. split; [exact Hc|exact Ht].
Defined.

(** * Further properties of the import *)

(** ** What the conversion links *)

Lemma hasNode_put (ns : Nodes) (k id : string) (d : NodeData) :
  hasNode ns id = true \/ id = k ->
  hasNode (Store.put ns k d) id = true.
Proof.
  unfold hasNode. intros H. destruct (String.eqb_spec id k) as [->|N].
  - rewrite get_put_same. reflexivity.
  - rewrite get_put_other by exact N.
    destruct H as [H|H]; [exact H|contradiction].
Qed.

Lemma In_assign {A : Type} (o : list (string * A)) (k : string) (v : A)
  (e : string * A) :
  In e (Store.assign o k v) -> In e o \/ e = (k, v).
Proof.
  induction o as [|[k' a] o IH]; simpl; [tauto|].
  destruct (String.eqb_spec k' k) as [->|N]; simpl.
  - intros [H|H]; [right; symmetry; exact H|left; right; exact H].
  - intros [H|H]; [left; left; exact H|].
    destruct (IH H) as [I|I]; [left; right; exact I|right; exact I].
Qed.

Lemma In_put {A : Type} (o : list (string * A)) (k : string) (v : A)
  (e : string * A) :
  In e (Store.put o k v) -> In e o \/ e = (k, v).
Proof.
  unfold Store.put. destruct (JS.get o k).
  - apply In_assign.
  - intros H. apply in_app_or in H. destruct H as [H|[H|[]]].
    + left. exact H.
    + right. symmetry. exact H.
Qed.

Lemma nodeLinked_more (ns ns' : Nodes) (n : DomainNode) :
  (forall id, hasNode ns id = true -> hasNode ns' id = true) ->
  nodeLinked ns n = true -> nodeLinked ns' n = true.
Proof.
  intros M. destruct n as [e|v|e|a]; simpl; try reflexivity.
  intros H. apply andb_true_iff in H. destruct H as [R F].
  apply andb_true_iff. split.
  - apply orb_true_iff in R. apply orb_true_iff.
    destruct R as [R|R]; [left; exact R|right; apply M; exact R].
  - rewrite forallb_forall in *. intros id I. apply M, F, I.
Qed.

Lemma place_nodes (nodeId : string) (node : DomainNode)
  (m : list (string * string)) (next : nat) (c : ImportModel.Canvas) :
  ImportModel.canvas_nodes (ImportModel.place nodeId node m next c)
  = Store.put (ImportModel.canvas_nodes c) nodeId
      {| data_node := node;
         data_position :=
           {| pos_x := ImportModel.canvas_x c;
              pos_y := ImportModel.canvas_y c |} |}.
Proof.
  unfold ImportModel.place.
  destruct (800 <? ImportModel.canvas_x c + 250); reflexivity.
Qed.

Lemma place_map (nodeId : string) (node : DomainNode)
  (m : list (string * string)) (next : nat) (c : ImportModel.Canvas) :
  ImportModel.nodeIdMap (ImportModel.place nodeId node m next c) = m.
Proof.
  unfold ImportModel.place.
  destruct (800 <? ImportModel.canvas_x c + 250); reflexivity.
Qed.

Lemma place_next (nodeId : string) (node : DomainNode)
  (m : list (string * string)) (next : nat) (c : ImportModel.Canvas) :
  ImportModel.canvas_next (ImportModel.place nodeId node m next c) = next.
Proof.
  unfold ImportModel.place.
  destruct (800 <? ImportModel.canvas_x c + 250); reflexivity.
Qed.

Lemma mapWithId_next {A B : Type} (ids : nat -> string)
  (f : string -> A -> B) (l : list A) (next : nat) :
  snd (ImportModel.mapWithId ids f next l) = next + length l.
Proof.
  revert next. induction l as [|a l IH]; intros next; simpl; [lia|].
  specialize (IH (S next)).
  destruct (ImportModel.mapWithId ids f (S next) l) as [bs n].
  simpl in *. lia.
Qed.

Lemma entityStep_placed (ids : nat -> string) (c : ImportModel.Canvas)
  (entity : Wasm.EntityInfo) :
  Placed ids (Wasm.entity_name entity) KEntity c
    (ImportModel.entityStep ids c entity).
Proof.
  unfold Placed, ImportModel.entityStep.
  pose proof (mapWithId_next ids ImportModel.toField
                (ImportModel.orEmpty (Wasm.entity_fields entity))
                (S (ImportModel.canvas_next c))) as N.
  destruct (ImportModel.mapWithId ids ImportModel.toField
              (S (ImportModel.canvas_next c))
              (ImportModel.orEmpty (Wasm.entity_fields entity)))
    as [fields next].
  simpl in N. eexists. exists next. split; [reflexivity|].
  split; [lia|]. repeat split.
Qed.

Lemma valueStep_placed (ids : nat -> string) (c : ImportModel.Canvas)
  (value : Wasm.ValueObjectInfo) :
  Placed ids (Wasm.value_name value) KValue c
    (ImportModel.valueStep ids c value).
Proof.
  unfold Placed, ImportModel.valueStep.
  pose proof (mapWithId_next ids ImportModel.toField
                (ImportModel.orEmpty (Wasm.value_fields value))
                (S (ImportModel.canvas_next c))) as N.
  destruct (ImportModel.mapWithId ids ImportModel.toField
              (S (ImportModel.canvas_next c))
              (ImportModel.orEmpty (Wasm.value_fields value)))
    as [fields next].
  simpl in N. eexists. exists next. split; [reflexivity|].
  split; [lia|]. repeat split.
Qed.

Lemma enumStep_placed (ids : nat -> string) (c : ImportModel.Canvas)
  (enumType : Wasm.EnumInfo) :
  Placed ids (Wasm.enum_name enumType) KEnum c
    (ImportModel.enumStep ids c enumType).
Proof.
  unfold Placed, ImportModel.enumStep.
  pose proof (mapWithId_next ids ImportModel.toVariant
                (ImportModel.orEmpty (Wasm.variants enumType))
                (S (ImportModel.canvas_next c))) as N.
  destruct (ImportModel.mapWithId ids ImportModel.toVariant
              (S (ImportModel.canvas_next c))
              (ImportModel.orEmpty (Wasm.variants enumType)))
    as [variants next].
  simpl in N. eexists. exists next. split; [reflexivity|].
  split; [lia|]. repeat split.
Qed.

Lemma idOf_value (m : list (string * string)) (r : string) :
  JS.truthy (ImportModel.idOf m r) = true ->
  JS.get m r = Some (ImportModel.idOf m r).
Proof.
  unfold ImportModel.idOf, JS.optOrElse, JS.orElse.
  destruct (JS.get m r) as [id|]; [|discriminate].
  destruct (JS.truthy id); [reflexivity|discriminate].
Qed.

Lemma truthy_or_empty (s : string) : s = "" \/ JS.truthy s = true.
Proof. destruct s; [left|right]; reflexivity. Qed.

Lemma aggregateStep_placed (ids : nat -> string) (c : ImportModel.Canvas)
  (agg : Wasm.AggregateInfo) :
  Placed ids (Wasm.aggregate_name agg) KAggregate c
    (ImportModel.aggregateStep ids c agg).
Proof.
  unfold Placed, ImportModel.aggregateStep.
  eexists. exists (S (ImportModel.canvas_next c)).
  split; [reflexivity|]. split; [lia|].
  split; [reflexivity|]. split; [reflexivity|].
  set (m := Store.put (ImportModel.nodeIdMap c) (Wasm.aggregate_name agg)
              (ids (ImportModel.canvas_next c))).
  simpl. split.
  - unfold ImportModel.rootOf. destruct (Wasm.root agg) as [r|];
      [|left; reflexivity].
    destruct (JS.truthy r); [|left; reflexivity].
    destruct (truthy_or_empty (ImportModel.idOf m r)) as [E|T];
      [left; exact E|].
    right. exists r. apply idOf_value. exact T.
  - apply Forall_forall. intros id I. apply filter_In in I.
    destruct I as [I T]. split; [exact T|].
    apply in_map_iff in I. destruct I as (r & <- & _).
    exists r. apply idOf_value. exact T.
Qed.

Lemma Placed_settled (ids : nat -> string) (nm : string) (k : Kind)
  (c c' : ImportModel.Canvas) :
  Placed ids nm k c c' -> settled c -> settled c'.
Proof.
  intros (node & next & -> & _ & _ & _ & R) [M L].
  set (nodeId := ids (ImportModel.canvas_next c)) in *.
  set (m := Store.put (ImportModel.nodeIdMap c) nm nodeId) in *.
  assert (M' : forall nm' id, JS.get m nm' = Some id ->
                 JS.truthy id = true ->
                 hasNode (ImportModel.canvas_nodes
                            (ImportModel.place nodeId node m next c)) id
                 = true).
  { intros nm' id G T. rewrite place_nodes. apply hasNode_put.
    destruct (String.eqb_spec nm' nm) as [->|N].
    - unfold m in G. rewrite get_put_same in G. injection G as <-.
      right. reflexivity.
    - unfold m in G. rewrite get_put_other in G by exact N.
      left. eapply M; eassumption. }
  split.
  - rewrite place_map. exact M'.
  - intros e I. rewrite place_nodes in I. apply In_put in I.
    destruct I as [I| ->].
    + eapply nodeLinked_more; [|apply L; exact I].
      intros id H. rewrite place_nodes. apply hasNode_put. left. exact H.
    + simpl. destruct node as [e|v|e|a]; try reflexivity.
      simpl in R. destruct R as [Rr Rm]. simpl.
      apply andb_true_iff. split.
      * apply orb_true_iff. destruct Rr as [E|[r G]].
        -- left. rewrite E. reflexivity.
        -- destruct (truthy_or_empty (rootId a)) as [E|T].
           ++ left. rewrite E. reflexivity.
           ++ right. eapply M'; eassumption.
      * apply forallb_forall. intros id I.
        rewrite Forall_forall in Rm. destruct (Rm id I) as (T & r & G).
        eapply M'; eassumption.
Qed.

Section Folds.

Context {A : Type}.
Variable ids : nat -> string.
Variable step : ImportModel.Canvas -> A -> ImportModel.Canvas.
Variable nameOf : A -> string.
Variable k : Kind.
Hypothesis step_placed : forall c a, Placed ids (nameOf a) k c (step c a).

Lemma fold_settled (l : list A) (c : ImportModel.Canvas) :
  settled c -> settled (fold_left step l c).
Proof.
  revert c. induction l as [|a l IH]; intros c Hs; simpl; [exact Hs|].
  apply IH. eapply Placed_settled; [apply step_placed|exact Hs].
Qed.

End Folds.

Lemma drawn_settled (ids : nat -> string) (next : nat)
  (ctx : Wasm.ContextInfo) :
  settled (ImportModel.drawn ids next ctx).
Proof.
  unfold ImportModel.drawn.
  eapply fold_settled; [apply aggregateStep_placed|].
  eapply fold_settled; [apply enumStep_placed|].
  eapply fold_settled; [apply valueStep_placed|].
  eapply fold_settled; [apply entityStep_placed|].
  split; simpl; [discriminate|contradiction].
Qed.

Lemma morphisms_linked (ids : nat -> string) (c : ImportModel.Canvas)
  (l : list Wasm.MorphismInfo) (acc : list Morphism * nat) :
  settled c ->
  forallb (morphismLinked (ImportModel.canvas_nodes c)) (fst acc) = true ->
  forallb (morphismLinked (ImportModel.canvas_nodes c))
    (fst (fold_left (ImportModel.morphismStep ids (ImportModel.nodeIdMap c))
            l acc)) = true.
Proof.
  intros [M _]. revert acc. induction l as [|morph l IH]; intros acc H;
    simpl; [exact H|].
  apply IH. unfold ImportModel.morphismStep.
  destruct (JS.get (ImportModel.nodeIdMap c) (Wasm.source morph))
    as [s|] eqn:Gs; [|exact H].
  destruct (JS.get (ImportModel.nodeIdMap c) (Wasm.target morph))
    as [t|] eqn:Gt; [|exact H].
  destruct (JS.truthy s) eqn:Ts; [|exact H].
  destruct (JS.truthy t) eqn:Tt; [|exact H].
  simpl. rewrite forallb_app, H. simpl.
  unfold morphismLinked. simpl.
  rewrite (M _ _ Gs Ts), (M _ _ Gt Tt). reflexivity.
Qed.

Lemma convertContext_linked (ids : nat -> string) (next : nat)
  (ctx : Wasm.ContextInfo) :
  linked (snd (fst (ImportModel.convertContext ids next ctx))) = true.
Proof.
  unfold ImportModel.convertContext.
  pose proof (drawn_settled ids (S next) ctx) as Hs.
  pose proof (morphisms_linked ids _ (ImportModel.orEmpty (Wasm.morphisms ctx))
                ([], ImportModel.canvas_next
                       (ImportModel.drawn ids (S next) ctx))
                Hs eq_refl) as L.
  destruct (fold_left _ _ _) as [ms n]. simpl in *.
  unfold linked. simpl. rewrite L, andb_true_r.
  apply forallb_forall. intros e I. apply Hs. exact I.
Qed.

Lemma contexts_linked (ids : nat -> string) (l : list Wasm.ContextInfo)
  (acc : list (string * ContextData) * nat) :
  Forall (fun e => linked (snd e) = true) (fst acc) ->
  Forall (fun e => linked (snd e) = true)
    (fst (fold_left (ImportModel.contextStep ids) l acc)).
Proof.
  revert acc. induction l as [|ctx l IH]; intros acc H; simpl; [exact H|].
  apply IH. unfold ImportModel.contextStep.
  pose proof (convertContext_linked ids (snd acc) ctx) as L.
  destruct (ImportModel.convertContext ids (snd acc) ctx) as [entry n].
  simpl in *. apply Forall_forall. intros e I. apply In_put in I.
  destruct I as [I| ->].
  - rewrite Forall_forall in H. apply H. exact I.
  - exact L.
Qed.


(** ** What the conversion keeps *)

Lemma get_none_keys {A : Type} (o : list (string * A)) (k : string) :
  ~ In k (JS.keys o) -> JS.get o k = None.
Proof.
  induction o as [|[k' a] o IH]; simpl; [reflexivity|].
  intros N. destruct (String.eqb_spec k' k) as [E|E].
  - exfalso. apply N. left. exact E.
  - apply IH. intros I. apply N. right. exact I.
Qed.

Lemma grid_wraps (n : nat) :
  800 < pos_x (grid n) + 250 ->
  grid (S n) = {| pos_x := 50; pos_y := pos_y (grid n) + 200 |}.
Proof.
  unfold grid. cbn [pos_x pos_y]. intros H.
  pose proof (Nat.div_mod_eq n 4) as E.
  pose proof (Nat.mod_upper_bound n 4 ltac:(lia)) as B.
  assert (R : n mod 4 = 3) by lia.
  assert (Q : S n / 4 = S (n / 4)).
  { symmetry. apply (Nat.div_unique (S n) 4 (S (n / 4)) 0); lia. }
  assert (M : S n mod 4 = 0).
  { symmetry. apply (Nat.mod_unique (S n) 4 (S (n / 4)) 0); lia. }
  rewrite Q, M. f_equal; lia.
Qed.

Lemma grid_goes_on (n : nat) :
  pos_x (grid n) + 250 <= 800 ->
  grid (S n) = {| pos_x := pos_x (grid n) + 250; pos_y := pos_y (grid n) |}.
Proof.
  unfold grid. cbn [pos_x pos_y]. intros H.
  pose proof (Nat.div_mod_eq n 4) as E.
  pose proof (Nat.mod_upper_bound n 4 ltac:(lia)) as B.
  assert (R : n mod 4 < 3) by lia.
  assert (Q : S n / 4 = n / 4).
  { symmetry. apply (Nat.div_unique (S n) 4 (n / 4) (S (n mod 4))); lia. }
  assert (M : S n mod 4 = S (n mod 4)).
  { symmetry. apply (Nat.mod_unique (S n) 4 (n / 4) (S (n mod 4))); lia. }
  rewrite Q, M. f_equal; lia.
Qed.

Lemma place_position (nodeId : string) (node : DomainNode)
  (m : list (string * string)) (next n : nat) (c : ImportModel.Canvas) :
  {| pos_x := ImportModel.canvas_x c; pos_y := ImportModel.canvas_y c |}
  = grid n ->
  {| pos_x := ImportModel.canvas_x (ImportModel.place nodeId node m next c);
     pos_y := ImportModel.canvas_y (ImportModel.place nodeId node m next c) |}
  = grid (S n).
Proof.
  intros G. unfold ImportModel.place.
  assert (X : ImportModel.canvas_x c = pos_x (grid n))
    by (rewrite <- G; reflexivity).
  assert (Y : ImportModel.canvas_y c = pos_y (grid n))
    by (rewrite <- G; reflexivity).
  destruct (Nat.ltb_spec 800 (ImportModel.canvas_x c + 250)) as [H|H];
    cbn [ImportModel.canvas_x ImportModel.canvas_y].
  - rewrite grid_wraps by (rewrite <- X; exact H). rewrite Y. reflexivity.
  - rewrite grid_goes_on by (rewrite <- X; exact H).
    rewrite X, Y. reflexivity.
Qed.

Lemma Placed_laid (ids : nat -> string) (nm : string) (k : Kind)
  (c c' : ImportModel.Canvas) (names : list string) (kinds : list Kind) :
  distinct ids ->
  Placed ids nm k c c' ->
  laid ids names kinds c ->
  laid ids (names ++ [nm]) (kinds ++ [k]) c'.
Proof.
  intros D (node & next & -> & Hn & Hname & Hkind & _)
    (K & Ns & Ks & Ps & XY & Dn & Dv).
  set (nodeId := ids (ImportModel.canvas_next c)) in *.
  set (m := Store.put (ImportModel.nodeIdMap c) nm nodeId) in *.
  set (d := {| data_node := node;
               data_position :=
                 {| pos_x := ImportModel.canvas_x c;
                    pos_y := ImportModel.canvas_y c |} |}).
  assert (F : JS.get (ImportModel.canvas_nodes c) nodeId = None).
  { apply get_none_keys. intros I. destruct (K _ I) as (j & Hj & E).
    apply D in E. lia. }
  assert (P : ImportModel.canvas_nodes (ImportModel.place nodeId node m next c)
              = ImportModel.canvas_nodes c ++ [(nodeId, d)]).
  { rewrite place_nodes. apply put_fresh. exact F. }
  unfold laid. rewrite P, place_map, place_next.
  split; [|split; [|split; [|split; [|split; [|split]]]]].
  - intros key I. unfold JS.keys in I. rewrite map_app in I.
    apply in_app_or in I. destruct I as [I|[<-|[]]].
    + destruct (K _ I) as (j & Hj & E). exists j. split; [lia|exact E].
    + exists (ImportModel.canvas_next c). split; [exact Hn|reflexivity].
  - rewrite map_app, Ns. simpl. rewrite Hname. reflexivity.
  - rewrite map_app, Ks. simpl. rewrite Hkind. reflexivity.
  - rewrite map_app, Ps, length_app. simpl length.
    rewrite Nat.add_1_r, seq_S, map_app. simpl. rewrite XY. reflexivity.
  - rewrite length_app. simpl length. rewrite Nat.add_1_r.
    apply place_position. exact XY.
  - intros nm'. rewrite in_app_iff, Dn. unfold m. split.
    + intros [[id G]|[<-|[]]].
      * destruct (String.eqb_spec nm' nm) as [->|N].
        -- exists nodeId. apply get_put_same.
        -- exists id. rewrite get_put_other by exact N. exact G.
      * exists nodeId. apply get_put_same.
    + intros [id G]. destruct (String.eqb_spec nm' nm) as [->|N].
      * right. left. reflexivity.
      * left. exists id. rewrite get_put_other in G by exact N. exact G.
  - intros nm' id G. unfold m in G.
    destruct (String.eqb_spec nm' nm) as [->|N].
    + rewrite get_put_same in G. injection G as <-. split.
      * exists (ImportModel.canvas_next c). split; [exact Hn|reflexivity].
      * exists d. split; [|exact Hname].
        rewrite <- (put_fresh _ _ _ F). apply get_put_same.
    + rewrite get_put_other in G by exact N.
      destruct (Dv _ _ G) as ((j & Hj & E) & (d' & G' & N')). split.
      * exists j. split; [lia|exact E].
      * exists d'. split; [|exact N'].
        rewrite <- (put_fresh _ _ _ F). rewrite get_put_other; [exact G'|].
        intros E'. rewrite E in E'. apply D in E'. lia.
Qed.

Lemma Placed_next (ids : nat -> string) (nm : string) (k : Kind)
  (c c' : ImportModel.Canvas) :
  Placed ids nm k c c' ->
  ImportModel.canvas_next c < ImportModel.canvas_next c'.
Proof.
  intros (node & next & -> & Hn & _). rewrite place_next. exact Hn.
Qed.

Section FoldsOfDistinctIds.

Context {A : Type}.
Variable ids : nat -> string.
Variable step : ImportModel.Canvas -> A -> ImportModel.Canvas.
Variable nameOf : A -> string.
Variable k : Kind.
Hypothesis step_placed : forall c a, Placed ids (nameOf a) k c (step c a).

Lemma fold_next (l : list A) (c : ImportModel.Canvas) :
  ImportModel.canvas_next c <= ImportModel.canvas_next (fold_left step l c).
Proof.
  revert c. induction l as [|a l IH]; intros c; simpl; [lia|].
  specialize (IH (step c a)).
  pose proof (Placed_next _ _ _ _ _ (step_placed c a)). lia.
Qed.

Lemma fold_laid (l : list A) (c : ImportModel.Canvas)
  (names : list string) (kinds : list Kind) :
  distinct ids ->
  laid ids names kinds c ->
  laid ids (names ++ map nameOf l) (kinds ++ map (fun _ => k) l)
    (fold_left step l c).
Proof.
  intros D. revert c names kinds.
  induction l as [|a l IH]; intros c names kinds L; simpl.
  - rewrite !app_nil_r. exact L.
  - specialize (IH (step c a) (names ++ [nameOf a]) (kinds ++ [k])).
    rewrite <- !app_assoc in IH. apply IH.
    eapply Placed_laid; [exact D|apply step_placed|exact L].
Qed.

End FoldsOfDistinctIds.

Lemma drawn_next (ids : nat -> string) (next : nat) (ctx : Wasm.ContextInfo) :
  next <= ImportModel.canvas_next (ImportModel.drawn ids next ctx).
Proof.
  unfold ImportModel.drawn.
  eapply Nat.le_trans; [|eapply fold_next; apply aggregateStep_placed].
  eapply Nat.le_trans; [|eapply fold_next; apply enumStep_placed].
  eapply Nat.le_trans; [|eapply fold_next; apply valueStep_placed].
  eapply Nat.le_trans; [|eapply fold_next; apply entityStep_placed].
  simpl. lia.
Qed.

Lemma drawn_laid (ids : nat -> string) (next : nat) (ctx : Wasm.ContextInfo) :
  distinct ids ->
  laid ids (declared ctx) (declaredKinds ctx) (ImportModel.drawn ids next ctx).
Proof.
  intros D. unfold ImportModel.drawn, declared, declaredKinds.
  rewrite !app_assoc.
  eapply fold_laid; [apply aggregateStep_placed|exact D|].
  eapply fold_laid; [apply enumStep_placed|exact D|].
  eapply fold_laid; [apply valueStep_placed|exact D|].
  apply (fold_laid ids (ImportModel.entityStep ids) Wasm.entity_name KEntity
           (entityStep_placed ids) _ _ [] [] D).
  unfold laid. simpl.
  split; [intros key []|].
  split; [reflexivity|]. split; [reflexivity|]. split; [reflexivity|].
  split; [reflexivity|].
  split; [intros nm; split; [intros []|intros [id G]; discriminate]|].
  intros nm id G. discriminate.
Qed.

Lemma morphisms_next (ids : nat -> string) (m : list (string * string))
  (l : list Wasm.MorphismInfo) (acc : list Morphism * nat) :
  snd acc <= snd (fold_left (ImportModel.morphismStep ids m) l acc).
Proof.
  revert acc. induction l as [|morph l IH]; intros acc; simpl; [lia|].
  eapply Nat.le_trans; [|apply IH]. unfold ImportModel.morphismStep.
  destruct (JS.get m (Wasm.source morph)) as [s|]; [|lia].
  destruct (JS.get m (Wasm.target morph)) as [t|]; [|lia].
  destruct (JS.truthy s && JS.truthy t); simpl; lia.
Qed.

Lemma convertContext_next (ids : nat -> string) (next : nat)
  (ctx : Wasm.ContextInfo) :
  next < snd (ImportModel.convertContext ids next ctx).
Proof.
  unfold ImportModel.convertContext.
  pose proof (drawn_next ids (S next) ctx) as N.
  pose proof (morphisms_next ids
                (ImportModel.nodeIdMap (ImportModel.drawn ids (S next) ctx))
                (ImportModel.orEmpty (Wasm.morphisms ctx))
                ([], ImportModel.canvas_next
                       (ImportModel.drawn ids (S next) ctx))) as M.
  destruct (fold_left _ _ _) as [ms n]. simpl in *. lia.
Qed.

Lemma convertContext_id (ids : nat -> string) (next : nat)
  (ctx : Wasm.ContextInfo) :
  fst (fst (ImportModel.convertContext ids next ctx)) = ids next.
Proof.
  unfold ImportModel.convertContext.
  destruct (fold_left _ _ _) as [ms n]. reflexivity.
Qed.

Lemma contexts_each (R : Wasm.ContextInfo -> string * ContextData -> Prop)
  (ids : nat -> string) :
  distinct ids ->
  (forall next ctx, R ctx (fst (ImportModel.convertContext ids next ctx))) ->
  forall l acc done,
    (forall key, In key (JS.keys (fst acc)) ->
                 exists j, j < snd acc /\ key = ids j) ->
    Forall2 R done (fst acc) ->
    Forall2 R (done ++ l) (fst (fold_left (ImportModel.contextStep ids) l acc)).
Proof.
  intros D H. induction l as [|ctx l IH]; intros acc done K F; simpl.
  - rewrite app_nil_r. exact F.
  - replace (done ++ ctx :: l) with ((done ++ [ctx]) ++ l)
      by (rewrite <- app_assoc; reflexivity).
    pose proof (H (snd acc) ctx) as Hr.
    pose proof (convertContext_next ids (snd acc) ctx) as Hn.
    pose proof (convertContext_id ids (snd acc) ctx) as Hi.
    assert (P : ImportModel.contextStep ids acc ctx
                = (fst acc
                   ++ [fst (ImportModel.convertContext ids (snd acc) ctx)],
                   snd (ImportModel.convertContext ids (snd acc) ctx))).
    { unfold ImportModel.contextStep.
      destruct (ImportModel.convertContext ids (snd acc) ctx)
        as [[key c] n]. simpl in *. f_equal. apply put_fresh.
      apply get_none_keys. intros I. destruct (K _ I) as (j & Hj & E).
      rewrite Hi in E. apply D in E. lia. }
    apply IH; rewrite P; simpl.
    + intros key I. unfold JS.keys in I. rewrite map_app in I.
      apply in_app_or in I. destruct I as [I|[<-|[]]].
      * destruct (K _ I) as (j & Hj & E). exists j. split; [lia|exact E].
      * exists (snd acc). split; [exact Hn|exact Hi].
    + apply Forall2_app; [exact F|].
      apply Forall2_cons; [exact Hr|apply Forall2_nil].
Qed.

Lemma convertContext_imports (ids : nat -> string) (next : nat)
  (ctx : Wasm.ContextInfo) :
  distinct ids ->
  imports ctx (fst (ImportModel.convertContext ids next ctx)).
Proof.
  intros D. unfold ImportModel.convertContext.
  destruct (drawn_laid ids (S next) ctx D) as (_ & Ns & Ks & Ps & _).
  destruct (fold_left _ _ _) as [ms n]. unfold imports. simpl.
  split; [reflexivity|]. split; [reflexivity|].
  split; [exact Ns|]. split; [exact Ks|].
  rewrite Ps. rewrite <- Ns, length_map. reflexivity.
Qed.

(** X22.  When no two generated ids are the same, the store after an
    import holds one context for every parsed context, in order and
    under its name, and the nodes of that context are the entities,
    value objects, enums and aggregates that the parsed context
    declares, in this order, under their names, four in a row on a
    grid of 250 by 200 that starts at (50, 50). *)
Theorem import_keeps_every_declared_object {V : Type}
  (ids : nat -> string) (data : Wasm.ParsedModel) (w : Store.World V) :
  distinct ids ->
  Forall2 imports (Wasm.contexts data)
    (Store.contexts (Store.state (ImportModel.importParsed ids data w))).
Proof.
  intros D. simpl. unfold ImportModel.convert.
  apply (contexts_each imports ids D
           (fun next ctx => convertContext_imports ids next ctx D)
           (Wasm.contexts data) ([], 0) []).
  - intros key [].
  - apply Forall2_nil.
Qed.

Lemma tally_distinct : distinct tally.
Proof.
  intros i. induction i as [|i IH]; intros [|j] E; simpl in E;
    try reflexivity; try discriminate E.
  injection E as E. f_equal. apply IH. exact E.
Qed.

Lemma tally_nonEmpty : nonEmpty tally.
Proof. intros [|n]; discriminate. Qed.

(** X22 for the parsed shop, with the ids [#], [i#], [ii#], ... *)
Lemma import_keeps_every_declared_object_shop :
  distinct tally
  /\ Forall2 imports (Wasm.contexts parsedShop)
       (Store.contexts
          (Store.state (ImportModel.importParsed tally parsedShop freshWorld))).
Proof.
  split; [exact tally_distinct|].
  apply (import_keeps_every_declared_object tally parsedShop freshWorld).
  exact tally_distinct.
Defined.

Lemma existsb_eqb_In (x : string) (l : list string) :
  existsb (String.eqb x) l = true <-> In x l.
Proof.
  rewrite existsb_exists. split.
  - intros (y & I & E). apply String.eqb_eq in E. subst y. exact I.
  - intros I. exists x. split; [exact I|apply String.eqb_refl].
Qed.

Lemma truthy_nonempty (s : string) : s <> "" -> JS.truthy s = true.
Proof. destruct s; [contradiction|reflexivity]. Qed.

Lemma morphisms_of (ids : nat -> string) (ctx : Wasm.ContextInfo)
  (c : ImportModel.Canvas) (kinds : list Kind) :
  nonEmpty ids ->
  laid ids (declared ctx) kinds c ->
  forall l acc done,
    Forall2 (morphismOf (ImportModel.canvas_nodes c)) done (fst acc) ->
    Forall2 (morphismOf (ImportModel.canvas_nodes c))
      (done ++ filter (joinsDeclared ctx) l)
      (fst (fold_left (ImportModel.morphismStep ids (ImportModel.nodeIdMap c))
              l acc)).
Proof.
  intros E (_ & _ & _ & _ & _ & Dn & Dv).
  induction l as [|morph l IH]; intros acc done F; simpl.
  - rewrite app_nil_r. exact F.
  - unfold ImportModel.morphismStep at 2. unfold joinsDeclared at 1.
    destruct (JS.get (ImportModel.nodeIdMap c) (Wasm.source morph))
      as [s|] eqn:Gs.
    + destruct (JS.get (ImportModel.nodeIdMap c) (Wasm.target morph))
        as [t|] eqn:Gt.
      * destruct (Dv _ _ Gs) as ((i & _ & Es) & Ns).
        destruct (Dv _ _ Gt) as ((j & _ & Et) & Nt).
        rewrite (truthy_nonempty s) by (rewrite Es; apply E).
        rewrite (truthy_nonempty t) by (rewrite Et; apply E).
        assert (Is : existsb (String.eqb (Wasm.source morph)) (declared ctx)
                     = true).
        { apply existsb_eqb_In, Dn. exists s. exact Gs. }
        assert (It : existsb (String.eqb (Wasm.target morph)) (declared ctx)
                     = true).
        { apply existsb_eqb_In, Dn. exists t. exact Gt. }
        rewrite Is, It. simpl.
        replace (done ++ morph :: filter (joinsDeclared ctx) l)
          with ((done ++ [morph]) ++ filter (joinsDeclared ctx) l)
          by (rewrite <- app_assoc; reflexivity).
        apply IH. simpl. apply Forall2_app; [exact F|].
        apply Forall2_cons; [|apply Forall2_nil].
        unfold morphismOf. simpl.
        split; [reflexivity|]. split; [reflexivity|].
        split; [exact Ns|exact Nt].
      * assert (It : existsb (String.eqb (Wasm.target morph)) (declared ctx)
                     = false).
        { destruct (existsb _ _) eqn:X; [|reflexivity].
          apply existsb_eqb_In, Dn in X. destruct X as [id G]. congruence. }
        rewrite It, andb_false_r. apply IH. exact F.
    + assert (Is : existsb (String.eqb (Wasm.source morph)) (declared ctx)
                   = false).
      { destruct (existsb _ _) eqn:X; [|reflexivity].
        apply existsb_eqb_In, Dn in X. destruct X as [id G]. congruence. }
      rewrite Is. simpl. apply IH. exact F.
Qed.

Lemma convertContext_importsMorphisms (ids : nat -> string) (next : nat)
  (ctx : Wasm.ContextInfo) :
  distinct ids -> nonEmpty ids ->
  importsMorphisms ctx (fst (ImportModel.convertContext ids next ctx)).
Proof.
  intros D E. unfold ImportModel.convertContext.
  pose proof (morphisms_of ids ctx _ _ E (drawn_laid ids (S next) ctx D)
                (ImportModel.orEmpty (Wasm.morphisms ctx))
                ([], ImportModel.canvas_next
                       (ImportModel.drawn ids (S next) ctx))
                [] (Forall2_nil _)) as M.
  destruct (fold_left _ _ _) as [ms n]. exact M.
Qed.



(** ** What the import does to the store *)

Lemma put_first_key {A : Type} (o : list (string * A)) (k k0 : string)
  (v : A) :
  nth_error (JS.keys o) 0 = Some k0 ->
  nth_error (JS.keys (Store.put o k v)) 0 = Some k0.
Proof.
  unfold Store.put. destruct (JS.get o k).
  - rewrite keys_assign. intros H. exact H.
  - destruct o as [|[k' a] o]; simpl; [discriminate|]. intros H. exact H.
Qed.

Lemma contexts_first_key (ids : nat -> string) (k0 : string)
  (l : list Wasm.ContextInfo) (acc : list (string * ContextData) * nat) :
  nth_error (JS.keys (fst acc)) 0 = Some k0 ->
  nth_error (JS.keys (fst (fold_left (ImportModel.contextStep ids) l acc))) 0
  = Some k0.
Proof.
  revert acc. induction l as [|ctx l IH]; intros acc H; simpl; [exact H|].
  apply IH. unfold ImportModel.contextStep.
  destruct (ImportModel.convertContext ids (snd acc) ctx) as [entry n].
  simpl. apply put_first_key. exact H.
Qed.

Lemma convert_first_key (ids : nat -> string) (data : Wasm.ParsedModel) :
  nth_error (JS.keys (ImportModel.convert ids data)) 0
  = match Wasm.contexts data with
    | [] => None
    | _ :: _ => Some (ids 0)
    end.
Proof.
  unfold ImportModel.convert. destruct (Wasm.contexts data) as [|ctx l];
    [reflexivity|].
  simpl. apply contexts_first_key. unfold ImportModel.contextStep.
  pose proof (convertContext_id ids 0 ctx) as I. simpl snd.
  destruct (ImportModel.convertContext ids 0 ctx) as [entry n].
  simpl in *. rewrite I. reflexivity.
Qed.

(** X24.  An import can be undone, and [undo] gives back the state as it
    was; it keeps a bounded history bounded.  After it the first parsed
    context is the active one, and it is a context of the store; with no
    parsed context there is no active context.  The store has no context
    map and no selection left, whatever the parsed model holds. *)
Theorem import_replaces_the_model {V : Type}
  (ids : nat -> string) (data : Wasm.ParsedModel) (w : Store.World V) :
  (Store.canUndo (ImportModel.importParsed ids data w) = true
   /\ Store.canRedo (ImportModel.importParsed ids data w) = false
   /\ Store.state (Store.undo (ImportModel.importParsed ids data w))
      = Store.state w)
  /\ (bounded w -> bounded (ImportModel.importParsed ids data w))
  /\ Store.activeContextId
       (Store.state (ImportModel.importParsed ids data w))
     = match Wasm.contexts data with
       | [] => None
       | _ :: _ => Some (ids 0)
       end
  /\ activeValid (Store.state (ImportModel.importParsed ids data w))
  /\ Store.contextMaps (Store.state (ImportModel.importParsed ids data w))
     = []
  /\ Store.selectedNodeIds
       (Store.state (ImportModel.importParsed ids data w)) = []
  /\ Store.selectedEdgeIds
       (Store.state (ImportModel.importParsed ids data w)) = [].
Proof.
  assert (A : Store.activeContextId
                (Store.state (ImportModel.importParsed ids data w))
              = nth_error (JS.keys (ImportModel.convert ids data)) 0).
  { simpl. destruct (JS.keys (ImportModel.convert ids data)); reflexivity. }
  split; [|split; [|split; [|split; [|split; [|split]]]]];
    try reflexivity.
  - eapply undo_after_save. reflexivity.
  - intros B. unfold bounded in *.
    unfold ImportModel.importParsed. cbn [Store.history].
    destruct (saveToHistory_past (Store.state w) (Store.history w))
      as (l & P & F & _ & L).
    rewrite P, F, length_app. simpl. lia.
  - rewrite A. apply convert_first_key.
  - unfold activeValid. rewrite A.
    destruct (nth_error (JS.keys (ImportModel.convert ids data)) 0)
      as [k|] eqn:E; [|exact I].
    simpl. eapply get_first_key. exact E.
Qed.

(** ** Code of an imported model *)

Lemma combine_maps {A B C : Type} (f : A -> B) (g : A -> C) (l : list A) :
  combine (map f l) (map g l) = map (fun a => (f a, g a)) l.
Proof.
  induction l as [|a l IH]; simpl; [reflexivity|]. rewrite IH. reflexivity.
Qed.

Lemma combine_apps {B C : Type} (a b : list B) (c d : list C) :
  length a = length c ->
  combine (a ++ b) (c ++ d) = combine a c ++ combine b d.
Proof.
  revert c. induction a as [|x a IH]; intros [|y c] E; simpl in *;
    try discriminate E; [reflexivity|].
  rewrite IH by (injection E as E; exact E). reflexivity.
Qed.

Lemma fileNameOf_as (extension : string) (n : DomainNode) :
  fileNameOf extension n = fileNameAs extension (name n, kind n).
Proof. destruct n; reflexivity. Qed.

Lemma imported_file_names (extension : string) (ctx : Wasm.ContextInfo)
  (e : string * ContextData) :
  imports ctx e ->
  map (fun n => fileNameOf extension (data_node (snd n))) (nodes (snd e))
  = generatedNames extension ctx.
Proof.
  intros (_ & _ & Ns & Ks & _).
  rewrite (map_ext _ (fun n => fileNameAs extension
                                 (name (data_node (snd n)),
                                  kind (data_node (snd n)))))
    by (intros n; apply fileNameOf_as).
  rewrite <- (map_map (fun n => (name (data_node (snd n)),
                                 kind (data_node (snd n))))
                (fileNameAs extension)).
  rewrite <- combine_maps, Ns, Ks.
  unfold declared, declaredKinds, generatedNames.
  rewrite !combine_apps by (rewrite !length_map; reflexivity).
  rewrite !combine_maps, !map_app, !map_map. reflexivity.
Qed.

Lemma convertContext_generates (ids : nat -> string)
  (options : CodeGenOptions) (next : nat) (ctx : Wasm.ContextInfo) :
  distinct ids ->
  generates options ctx (fst (ImportModel.convertContext ids next ctx)).
Proof.
  intros D. pose proof (convertContext_imports ids next ctx D) as I.
  unfold generates. rewrite java_file_names, csharp_file_names.
  split; apply imported_file_names; exact I.
Qed.

(** X25.  When no two generated ids are the same, the Java generator
    makes of a context of the store after an import one file for every
    object that the parsed context declares, entities first, then value
    objects, enums and aggregates: [N.java], and [NAggregate.java] for
    an aggregate.  The C# generator does the same with [.cs]. *)
Theorem code_of_an_imported_model {V : Type}
  (ids : nat -> string) (data : Wasm.ParsedModel) (w : Store.World V)
  (options : CodeGenOptions) :
  distinct ids ->
  Forall2 (generates options) (Wasm.contexts data)
    (Store.contexts (Store.state (ImportModel.importParsed ids data w))).
Proof.
  intros D. simpl. unfold ImportModel.convert.
  apply (contexts_each (generates options) ids D
           (fun next ctx => convertContext_generates ids options next ctx D)
           (Wasm.contexts data) ([], 0) []).
  - intros key [].
  - apply Forall2_nil.
Qed.

(** X25 for the parsed shop. *)
Lemma code_of_the_imported_shop :
  distinct tally
  /\ Forall2 (generates bare) (Wasm.contexts parsedShop)
       (Store.contexts
          (Store.state (ImportModel.importParsed tally parsedShop freshWorld))).
Proof.
  split; [exact tally_distinct|].
  apply (code_of_an_imported_model tally parsedShop freshWorld bare).
  exact tally_distinct.
Defined.

(** * Properties of the diagrams *)

Lemma isWord_sanitized (c : ascii) :
  Mermaid.isWord (if Mermaid.isWord c then c else "_"%char) = true.
Proof. destruct (Mermaid.isWord c) eqn:E; [exact E|reflexivity]. Qed.

(** X26.  [sanitizeName] gives a name of the same length that holds
    letters, digits and underscores only; it leaves such a name as it
    is, and no other, so that sanitizing twice is sanitizing once. *)
Theorem sanitizeName_gives_a_word (s : string) :
  allWord (Mermaid.sanitizeName s) = true
  /\ String.length (Mermaid.sanitizeName s) = String.length s
  /\ Mermaid.sanitizeName (Mermaid.sanitizeName s) = Mermaid.sanitizeName s
  /\ (Mermaid.sanitizeName s = s <-> allWord s = true).
Proof.
  unfold Mermaid.sanitizeName.
  induction s as [|c s (W & L & I & F)]; simpl.
  - repeat split; reflexivity.
  - split; [rewrite isWord_sanitized, W; reflexivity|].
    split; [rewrite L; reflexivity|].
    split; [rewrite I, isWord_sanitized; reflexivity|].
    destruct (Mermaid.isWord c) eqn:E; simpl.
    + split.
      * intros H. injection H as H. apply F. exact H.
      * intros H. f_equal. apply F. exact H.
    + split; [|discriminate].
      intros H. injection H as H _. rewrite <- H in E. discriminate E.
Qed.

Lemma hasNode_nodeAt (ns : Nodes) (id : string) :
  hasNode ns id = true -> exists n, nodeAt ns id = Some n.
Proof.
  unfold hasNode, nodeAt. destruct (JS.get ns id) as [d|]; [|discriminate].
  intros _. exists (data_node d). reflexivity.
Qed.

Lemma nodeAt_hasNode (ns : Nodes) (id : string) (n : DomainNode) :
  nodeAt ns id = Some n -> hasNode ns id = true.
Proof.
  unfold hasNode, nodeAt. destruct (JS.get ns id); [reflexivity|discriminate].
Qed.

Lemma relationships_drawn (ns : Nodes) (ms : list Morphism) :
  length (flat_map (Mermaid.erRelationship ns) ms)
  = length (filter (morphismLinked ns) ms)
  /\ length (flat_map (Mermaid.classRelationship ns) ms)
     = length (filter (morphismLinked ns) ms).
Proof.
  induction ms as [|m ms [E C]]; simpl; [split; reflexivity|].
  rewrite !length_app, E, C.
  unfold Mermaid.erRelationship, Mermaid.classRelationship, morphismLinked,
    hasNode, nodeAt.
  destruct (JS.get ns (sourceId m)); simpl;
    [destruct (JS.get ns (targetId m)); simpl|]; split; reflexivity.
Qed.

Lemma memberLine_length (ns : Nodes) (a : AggregateNode) (id : string) :
  length (Mermaid.memberLine ns a id) = if hasNode ns id then 1 else 0.
Proof.
  unfold Mermaid.memberLine, hasNode, nodeAt.
  destruct (JS.get ns id); reflexivity.
Qed.

Lemma members_drawn (ns : Nodes) (a : AggregateNode) (ids : list string) :
  forallb (hasNode ns) ids = true ->
  length (flat_map (Mermaid.memberLine ns a) ids) = length ids.
Proof.
  induction ids as [|id ids IH]; simpl; [reflexivity|].
  intros H. apply andb_true_iff in H. destruct H as [H1 H2].
  rewrite length_app, memberLine_length, H1, IH by exact H2. reflexivity.
Qed.

Lemma containment_drawn (ns : Nodes) (l : list (string * NodeData)) :
  forallb (fun e => nodeLinked ns (data_node (snd e))) l = true ->
  length (flat_map (Mermaid.containment ns) l)
  = list_sum (map (linksOf ns) l).
Proof.
  induction l as [|e l IH]; simpl; [reflexivity|].
  intros H. apply andb_true_iff in H. destruct H as [H1 H2].
  rewrite length_app, IH by exact H2. f_equal.
  unfold Mermaid.containment, linksOf.
  destruct (data_node (snd e)) as [x|x|x|a]; try reflexivity.
  simpl in H1. apply andb_true_iff in H1. destruct H1 as [_ M].
  rewrite length_app, memberLine_length, members_drawn by exact M.
  reflexivity.
Qed.

(** X27.  Both diagrams draw one relationship for every morphism whose
    source and target are nodes of the context, and none for a morphism
    with a missing end.  In a context whose morphisms and aggregates
    refer to its own nodes every morphism is drawn, and the class
    diagram has one containment line for every member of every
    aggregate, and one for its root if the root is a node. *)
Theorem diagrams_draw_what_resolves (context : ContextData) :
  length (flat_map (Mermaid.erRelationship (nodes context))
            (morphisms context))
  = length (filter (morphismLinked (nodes context)) (morphisms context))
  /\ length (flat_map (Mermaid.classRelationship (nodes context))
               (morphisms context))
     = length (filter (morphismLinked (nodes context)) (morphisms context))
  /\ (linked context = true ->
      length (flat_map (Mermaid.erRelationship (nodes context))
                (morphisms context))
      = length (morphisms context)
      /\ length (flat_map (Mermaid.classRelationship (nodes context))
                   (morphisms context))
         = length (morphisms context)
      /\ length (flat_map (Mermaid.containment (nodes context))
                   (nodes context))
         = list_sum (map (linksOf (nodes context)) (nodes context))).
Proof.
  destruct (relationships_drawn (nodes context) (morphisms context))
    as [E C].
  split; [exact E|]. split; [exact C|].
  intros L. unfold linked in L. apply andb_true_iff in L.
  destruct L as [Ln Lm].
  assert (F : filter (morphismLinked (nodes context)) (morphisms context)
              = morphisms context).
  { apply filter_all, Forall_forall. rewrite forallb_forall in Lm. exact Lm. }
  rewrite E, C, F. split; [reflexivity|]. split; [reflexivity|].
  apply containment_drawn. exact Ln.
Qed.

Lemma morphisms_drawn (ns : Nodes) (l : list Wasm.MorphismInfo)
  (ms : list Morphism) :
  Forall2 (morphismOf ns) l ms ->
  flat_map (Mermaid.erRelationship ns) ms = map erLineOf l
  /\ flat_map (Mermaid.classRelationship ns) ms = map classLineOf l.
Proof.
  induction 1 as [|morph m l ms (Hn & Hc & (s & Gs & Ns) & (t & Gt & Nt)) _
                   [E C]]; simpl; [split; reflexivity|].
  rewrite E, C.
  unfold Mermaid.erRelationship, Mermaid.classRelationship, nodeAt.
  rewrite Gs, Gt. simpl. rewrite Hn, Hc, Ns, Nt. split; reflexivity.
Qed.

Lemma convertContext_draws (ids : nat -> string) (next : nat)
  (ctx : Wasm.ContextInfo) :
  distinct ids -> nonEmpty ids ->
  draws ctx (fst (ImportModel.convertContext ids next ctx)).
Proof.
  intros D E. apply morphisms_drawn.
  apply (convertContext_importsMorphisms ids next ctx D E).
Qed.


